(** * Instagram AI commenter bot: monitor loop and comment task

    A shallow embedding of [src/main.ts] and [src/bot.ts].  The browser
    (Playwright), the behaviour engine, the AI generator and the fingerprint
    generator are external capabilities: the program talks to them through
    a signature of operations whose answers come from an arbitrary
    environment.  Files the program persists (snapshot CSV, interaction log,
    fingerprints, cookies) are part of the modelled state: a file reads
    back as what was written to it (a fingerprint file as the record that
    was serialised), and reading a file that does not exist fails.  The
    append to the interaction log and the read of the snapshot file at
    start-up are let through or refused by the environment, and the
    [catch] blocks that answer a refusal are part of the model; every
    other write goes through.  The console is the list of the lines handed
    to the loggers. *)

From Stdlib Require Import ZArith String Ascii List Bool Lia.
From Stdlib Require Import Floats.SpecFloat.
From stdpp Require Import gmap strings list pretty.

Local Open Scope string_scope.
Local Open Scope list_scope.
Local Open Scope Z_scope.

(* ===================================================================== *)
(** * JavaScript built-ins the sources rely on *)
(* ===================================================================== *)

(** Strings are sequences of ASCII code units; numbers are IEEE-754
    binary64 values ([spec_float] at precision 53), so that [parseFloat],
    [*] and [Math.round] round the way the runtime does. *)
Module JS.

Definition number : Type := spec_float.
Definition prec : Z := 53.
Definition emax : Z := 1024.

Definition NaN : number := S754_nan.
Definition of_Z (z : Z) : number := binary_normalize prec emax z 0 false.

Definition isNaN (x : number) : bool :=
  match x with S754_nan => true | _ => false end.

Definition mul (x y : number) : number := SFmul prec emax x y.
Definition add (x y : number) : number := SFadd prec emax x y.
Definition sub (x y : number) : number := SFsub prec emax x y.
Definition div (x y : number) : number := SFdiv prec emax x y.

(** [a > b], [a < b] and [a !== b] on numbers. *)
Definition gt (a b : number) : bool := SFltb b a.
Definition lt (a b : number) : bool := SFltb a b.
Definition strict_ne (a b : number) : bool := negb (SFeqb a b).

(** [Math.round]: the closest integer, ties towards +infinity. *)
Definition Math_round (x : number) : number :=
  match x with
  | S754_finite s m e =>
      if 0 <=? e then x
      else
        let sm := if s then Z.neg m else Z.pos m in
        binary_normalize prec emax ((2 * sm + 2 ^ (- e)) / 2 ^ (1 - e)) 0 s
  | _ => x
  end.

(** The real value of a number is an integer. *)
Definition is_integer (x : number) : bool :=
  match x with
  | S754_zero _ => true
  | S754_finite _ m e =>
      if 0 <=? e then true else (Z.pos m mod 2 ^ (- e) =? 0)
  | _ => false
  end.

(** [Number.isFinite] *)
Definition isFinite (x : number) : bool :=
  match x with S754_zero _ | S754_finite _ _ _ => true | _ => false end.

(** The integer part of a finite number (0 for the others). *)
Definition to_Z (x : number) : Z :=
  match x with
  | S754_finite s m e =>
      let v := if 0 <=? e then Z.pos m * 2 ^ e else Z.pos m / 2 ^ (- e) in
      if s then - v else v
  | _ => 0
  end.

(** ** Characters *)

Definition code (c : ascii) : nat := nat_of_ascii c.

(** The white space of ASCII.  Strings are ASCII: the no-break space and
    the other Unicode spaces that [trim], [parseInt] and [parseFloat] also
    skip do not occur in them. *)
Definition is_space (c : ascii) : bool :=
  let n := code c in ((n =? 32) || ((9 <=? n) && (n <=? 13)))%nat.

Definition is_digit (c : ascii) : bool :=
  let n := code c in ((48 <=? n) && (n <=? 57))%nat.

Definition digit_val (c : ascii) : Z := Z.of_nat (code c) - 48.

Definition lower_char (c : ascii) : ascii :=
  let n := code c in
  if ((65 <=? n) && (n <=? 90))%nat then ascii_of_nat (n + 32) else c.

(** ** Strings *)

Definition is_empty (s : string) : bool :=
  match s with EmptyString => true | _ => false end.

(** Truthiness of a possibly-null string: non-null and non-empty. *)
Definition truthy (o : option string) : bool :=
  match o with Some s => negb (is_empty s) | None => false end.

Fixpoint trimStart (s : string) : string :=
  match s with
  | String c s' => if is_space c then trimStart s' else s
  | EmptyString => EmptyString
  end.

Fixpoint trimEnd (s : string) : string :=
  match s with
  | EmptyString => EmptyString
  | String c s' =>
      match trimEnd s' with
      | EmptyString => if is_space c then EmptyString else String c EmptyString
      | t => String c t
      end
  end.

Definition trim (s : string) : string := trimEnd (trimStart s).

Fixpoint toLowerCase (s : string) : string :=
  match s with
  | EmptyString => EmptyString
  | String c s' => String (lower_char c) (toLowerCase s')
  end.

(** [s.replace(/c/g, '')] for a single character [c]. *)
Fixpoint remove_all (c : ascii) (s : string) : string :=
  match s with
  | EmptyString => EmptyString
  | String d s' =>
      if Ascii.eqb d c then remove_all c s' else String d (remove_all c s')
  end.

(** [s.replace(/c/g, r)] for a single character [c]. *)
Fixpoint replace_all (c : ascii) (r : string) (s : string) : string :=
  match s with
  | EmptyString => EmptyString
  | String d s' =>
      if Ascii.eqb d c then r +:+ replace_all c r s'
      else String d (replace_all c r s')
  end.

Definition startsWith (s p : string) : bool := String.prefix p s.

Fixpoint includes (s sub : string) : bool :=
  String.prefix sub s ||
  match s with
  | EmptyString => false
  | String _ s' => includes s' sub
  end.

Fixpoint split (sep : ascii) (s : string) : list string :=
  match s with
  | EmptyString => [EmptyString]
  | String c s' =>
      if Ascii.eqb c sep then EmptyString :: split sep s'
      else match split sep s' with
           | h :: t => String c h :: t
           | [] => [String c EmptyString]
           end
  end.

Fixpoint join (sep : string) (l : list string) : string :=
  match l with
  | [] => EmptyString
  | [x] => x
  | x :: rest => x +:+ sep +:+ join sep rest
  end.

(** [s.split(sep)[0]] *)
Definition first_field (sep : ascii) (s : string) : string :=
  hd EmptyString (split sep s).

Fixpoint take (n : nat) (s : string) : string :=
  match n, s with
  | S n', String c s' => String c (take n' s')
  | _, _ => EmptyString
  end.

(** ** Numeric literals *)

(** Reads the longest run of decimal digits: the accumulated value, the
    number of digits read and the rest of the string. *)
Fixpoint scan_digits (s : string) (acc : Z) (cnt : nat) : Z * nat * string :=
  match s with
  | String c s' =>
      if is_digit c then scan_digits s' (10 * acc + digit_val c) (S cnt)
      else (acc, cnt, s)
  | EmptyString => (acc, cnt, s)
  end.

(** An optional sign: [true] for [-]. *)
Definition scan_sign (s : string) : bool * string :=
  match s with
  | String c s' =>
      if Ascii.eqb c "-" then (true, s')
      else if Ascii.eqb c "+" then (false, s')
      else (false, s)
  | EmptyString => (false, s)
  end.

(** [parseInt(s, 10)] *)
Definition parseInt (s : string) : number :=
  let '(neg, s1) := scan_sign (trimStart s) in
  let '(v, cnt, _) := scan_digits s1 0 0%nat in
  match cnt with
  | O => NaN
  | _ => binary_normalize prec emax (if neg then - v else v) 0 neg
  end.

(** The value [(-1)^neg * d * 10^e10], rounded to the nearest number. *)
Definition of_decimal (neg : bool) (d : Z) (e10 : Z) : number :=
  match d with
  | Z.pos p =>
      if 0 <=? e10 then binary_normalize prec emax (if neg then - (d * 10 ^ e10) else d * 10 ^ e10) 0 neg
      else
        match 10 ^ (- e10) with
        | Z.pos q => SFdiv prec emax (S754_finite neg p 0) (S754_finite false q 0)
        | _ => NaN
        end
  | _ => S754_zero neg
  end.

(** The exponent part [e[+-]digits] of a decimal literal, if any. *)
Definition scan_exponent (s : string) : Z :=
  match s with
  | String c s' =>
      if Ascii.eqb (lower_char c) "e" then
        let '(eneg, s2) := scan_sign s' in
        let '(ev, ecnt, _) := scan_digits s2 0 0%nat in
        match ecnt with
        | O => 0
        | _ => if eneg then - ev else ev
        end
      else 0
  | EmptyString => 0
  end.

(** [parseFloat(s)]: the longest prefix that is a decimal literal. *)
Definition parseFloat (s : string) : number :=
  let '(neg, s1) := scan_sign (trimStart s) in
  if String.prefix "Infinity" s1 then S754_infinity neg
  else
    let '(iv, icnt, s2) := scan_digits s1 0 0%nat in
    let '(dv, fcnt, s3) :=
      match s2 with
      | String c s2' =>
          if Ascii.eqb c "." then scan_digits s2' iv 0%nat else (iv, 0%nat, s2)
      | EmptyString => (iv, 0%nat, s2)
      end in
    match (icnt + fcnt)%nat with
    | O => NaN
    | _ => of_decimal neg dv (scan_exponent s3 - Z.of_nat fcnt)
    end.

End JS.

(* ===================================================================== *)
(** * Configuration ([config.ts]) *)
(* ===================================================================== *)

Record DelayConfig := { base : Z; variance : Z }.

Record ActionDelayConfig := { min : Z; max : Z }.

Record BehaviorConfig := {
  shortWaitMs : DelayConfig;
  navigationWaitMs : DelayConfig;
  typingDelayMs : DelayConfig
}.

Record AccountConfig := {
  enabled : bool;
  username : string;
  password : string;
  aiPromptHint : option string;
  actionDelaySeconds : option ActionDelayConfig;
  targets : list string
}.

Record SettingsConfig := {
  headless : bool;
  developerMode : bool;
  googleAiApiKey : string;
  behavior : BehaviorConfig;
  defaultActionDelaySeconds : ActionDelayConfig;
  monitoringIntervalSeconds : ActionDelayConfig
}.

Record Config := { settings : SettingsConfig; accounts : list AccountConfig }.

(** The configuration shipped with the repository. *)
Definition config : Config :=
  {| settings :=
       {| headless := true;
          developerMode := false;
          googleAiApiKey := "YOUR_GOOGLE_AI_API_KEY_HERE";
          monitoringIntervalSeconds := {| min := 360; max := 600 |};
          behavior :=
            {| shortWaitMs := {| base := 1200; variance := 2000 |};
               navigationWaitMs := {| base := 3500; variance := 4500 |};
               typingDelayMs := {| base := 140; variance := 220 |} |};
          defaultActionDelaySeconds := {| min := 90; max := 180 |} |};
     accounts :=
       [ {| enabled := false;
            username := "your_instagram_username_1";
            password := "your_instagram_password_1";
            aiPromptHint := Some "Write a supportive comment related to fitness and personal growth.";
            actionDelaySeconds := Some {| min := 80; max := 160 |};
            targets := ["instagram"; "playwright"] |};
         {| enabled := false;
            username := "your_instagram_username_2";
            password := "your_instagram_password_2";
            aiPromptHint := Some "Write a curious and engaging comment about technology or art.";
            actionDelaySeconds := Some {| min := 80; max := 160 |};
            targets := ["nasa"; "google"] |} ] |}.

(* ===================================================================== *)
(** * External capabilities *)
(* ===================================================================== *)

(** Modelled from the spec: the [Fingerprint] record of [./fingerprint],
    which is not among the sources; the fields are those of spec section 3,
    under the names [initializeBotSession] reads. *)
Record Fingerprint := {
  userAgent : string;
  viewport : Z * Z;
  deviceScaleFactor : JS.number;
  locale : string;
  timezoneId : string;
  colorScheme : string;
  reducedMotion : string;
  hardwareConcurrency : Z;
  deviceMemory : Z;
  webgl : string * string
}.

(** Playwright locators, built the way the sources build them. *)
Inductive Locator :=
| Css (selector : string)                          (* page.locator(selector) *)
| ByText (text : string)                           (* page.getByText(text) *)
| ByRole (role name : string) (exact : bool)       (* page.getByRole(role, { name, exact }) *)
| Within (parent child : Locator)                  (* parent.locator(..), parent.getByText(..) *)
| HasNot (l inner : Locator)                       (* l.filter({ hasNot: inner }) *)
| Has (l inner : Locator)                          (* l.filter({ has: inner }) *)
| HasText (l : Locator) (pattern : string)         (* l.filter({ hasText: /pattern/i }) *)
| First (l : Locator).                             (* l.first() *)

(** Options of [naturalTyping]; [typoChance] in hundredths. *)
Record TypingOptions := { typingMin : Z; typingMax : Z; typoChance : Z }.

(** Options handed to [browser.newContext]. *)
Record ContextOptions := {
  storageState : option string;
  ctxUserAgent : string;
  ctxViewport : Z * Z;
  ctxDeviceScaleFactor : JS.number;
  ctxLocale : string;
  ctxTimezoneId : string;
  ctxColorScheme : string;
  ctxReducedMotion : string;
  hasTouch : bool;
  isMobile : bool;
  javaScriptEnabled : bool
}.

(** Argument of the init script that spoofs the hardware. *)
Record InitScriptArgs := {
  argHardwareConcurrency : Z;
  argDeviceMemory : Z;
  argWebgl : string * string
}.

Definition Browser : Type := nat.

(** A network response seen by the page's [response] listener. *)
Record Response := { url : string; contentType : option string }.

(** Operations awaited on the browser, the behaviour engine, the AI
    generator and the fingerprint generator.  Each may reject. *)
Inductive Op : Type -> Type :=
(* chromium, Browser, BrowserContext *)
| ChromiumLaunch (headless : bool) : Op Browser
| NewContext (b : Browser) (o : ContextOptions) : Op unit
| AddInitScript (a : InitScriptArgs) : Op unit
| NewPage : Op unit
| StorageState (path : string) : Op unit
| BrowserClose (b : Browser) : Op unit
(* Page, Locator *)
| Goto (url : string) : Op unit
| Screenshot (path : string) : Op unit
(* [visible]: the state waited for is [visible], which is also the default *)
| WaitForSelector (selector : string) (visible : bool) (timeout : Z) : Op unit
| WaitFor (l : Locator) (visible : bool) (timeout : Z) : Op unit
| Count (l : Locator) : Op nat
| IsVisible (l : Locator) (timeout : Z) : Op bool
| IsEnabled (l : Locator) : Op bool
| TextContent (l : Locator) : Op (option string)
| GetAttribute (l : Locator) (name : string) : Op (option string)
(* HumanBehavior *)
| RandomizedWait (c : DelayConfig) : Op unit
| RandomDelay (min max : Z) : Op unit
| MoveMouseRandomly : Op unit
| JitteryMovement (l : Locator) : Op unit
| HesitateAndClick (l : Locator) : Op unit
| NaturalTyping (l : Locator) (text : string) (o : option TypingOptions) : Op unit
(* AICommentGenerator *)
| GenerateInstagramComment
    (caption target : string) (hint image video : option string) : Op string
(* generateFingerprint *)
| GenerateFingerprint : Op Fingerprint.

(** What the host gives without ever rejecting: timers, the clock,
    randomness and the terminal. *)
Inductive Host : Type -> Type :=
| Delay (ms : JS.number) : Host unit   (* await delay(ms) *)
| MathRandom : Host JS.number          (* Math.random() *)
| Now : Host string                    (* new Date().toISOString() *)
| WaitForEnter : Host unit.            (* the promise of waitForEnter() *)

(** Outcome of an awaited operation: a value or a thrown error message. *)
Inductive Res (A : Type) : Type :=
| Ok (a : A)
| Throw (message : string).
Arguments Ok {A} a.
Arguments Throw {A} message.

Inductive InteractionResult := SUCCESS | SKIPPED | FAILED.

(** What [launchBotForTask] returns. *)
Inductive LaunchResult :=
| Finished (r : InteractionResult)
| LAUNCH_ERROR.

(** Writes to the files under [data/]. *)
Inductive FsWrite :=
| WriteProfileStats (content : string)
| AppendInteractionLog (entry : string)
| WriteFingerprint (account : string) (f : Fingerprint).

(** The file calls that the file system may refuse. *)
Inductive FsCall :=
| AppendFileSync (data : string)   (* fs.appendFileSync(globalLogPath, data, 'utf-8') *)
| ReadFileSync.                    (* fs.readFileSync(profileStatsPath, 'utf-8') *)

(** What a run leaves behind, in order: the operations awaited with their
    answers, the file writes, the calls of [initializeBotSession] and
    [launchBotForTask], and the file calls that were refused, each with the
    message of the error thrown. *)
Inductive Event :=
| EvOp (X : Type) (op : Op X) (r : Res X)
| EvHost (X : Type) (h : Host X) (x : X)
| EvFs (w : FsWrite)
| EvSession (account : AccountConfig)
| EvLaunch (account : AccountConfig) (target : string)
| EvLaunched (account : AccountConfig) (target : string) (r : LaunchResult)
| EvRefused (c : FsCall) (message : string).
Arguments EvOp {X} op r.
Arguments EvHost {X} h x.

Inductive Level := Info | Warn | Error | Success | Action | Debug | Header.

(** A line of the console: the logger's name, the severity, the message. *)
Definition LogLine : Type := string * Level * string.

Record ProfileStats := { postCount : JS.number; followerCount : JS.number }.

(** The immutable fields of an [InstagramBot]; the mutable ones
    ([capturedVideoUrl], [isCapturingVideo]) live in the state. *)
Record Bot := {
  bot_config : AccountConfig;
  bot_behavior : BehaviorConfig;
  bot_developerMode : bool;
  bot_actionDelays : Z * Z;
  bot_logger : string
}.

(** The environment the program runs in. *)
Class Env (World : Type) := {
  perform : forall X, Op X -> World -> Res X * list Response * World;
  host : forall X, Host X -> World -> X * World;
  (** whether the file system refuses a call, and with which error *)
  refuse : FsCall -> World -> option string * World;
  (** [String(n)], as template literals apply it to numbers *)
  Number_toString : JS.number -> string
}.
Arguments perform {World _ X} op w.
Arguments host {World _ X} h w.
Arguments refuse {World _} c w.

(* ===================================================================== *)
(** * Program state and the monad of awaited computations *)
(* ===================================================================== *)

Section Model.
Context {World : Type} {env : Env World}.

Record State := mkState {
  world : World;
  trace : list Event;
  console : list LogLine;
  (* fields of the InstagramBot instance that is running *)
  capturedVideoUrl : option string;
  isCapturingVideo : bool;
  (* Logger.incrementComments *)
  commentCount : nat;
  (* data/fingerprints/<account>.json *)
  fingerprintFiles : gmap string Fingerprint;
  (* data/cookies/<account>.json *)
  cookieFiles : gset string;
  (* data/logs/profile_stats.csv *)
  profileStatsFile : option string;
  (* data/logs/interaction_log.csv *)
  interactionLogFile : option string;
  (* the snapshot map of runMonitorMode *)
  profileStats : gmap string ProfileStats
}.

Definition set_world (w : World) (s : State) : State :=
  mkState w (trace s) (console s) (capturedVideoUrl s) (isCapturingVideo s)
    (commentCount s) (fingerprintFiles s) (cookieFiles s) (profileStatsFile s)
    (interactionLogFile s) (profileStats s).

Definition add_event (e : Event) (s : State) : State :=
  mkState (world s) (trace s ++ [e]) (console s) (capturedVideoUrl s)
    (isCapturingVideo s) (commentCount s) (fingerprintFiles s) (cookieFiles s)
    (profileStatsFile s) (interactionLogFile s) (profileStats s).

Definition add_line (l : LogLine) (s : State) : State :=
  mkState (world s) (trace s) (console s ++ [l]) (capturedVideoUrl s)
    (isCapturingVideo s) (commentCount s) (fingerprintFiles s) (cookieFiles s)
    (profileStatsFile s) (interactionLogFile s) (profileStats s).

Definition set_capturedVideoUrl (u : option string) (s : State) : State :=
  mkState (world s) (trace s) (console s) u (isCapturingVideo s)
    (commentCount s) (fingerprintFiles s) (cookieFiles s) (profileStatsFile s)
    (interactionLogFile s) (profileStats s).

Definition set_isCapturingVideo (b : bool) (s : State) : State :=
  mkState (world s) (trace s) (console s) (capturedVideoUrl s) b
    (commentCount s) (fingerprintFiles s) (cookieFiles s) (profileStatsFile s)
    (interactionLogFile s) (profileStats s).

Definition set_commentCount (n : nat) (s : State) : State :=
  mkState (world s) (trace s) (console s) (capturedVideoUrl s)
    (isCapturingVideo s) n (fingerprintFiles s) (cookieFiles s)
    (profileStatsFile s) (interactionLogFile s) (profileStats s).

Definition set_fingerprintFiles (m : gmap string Fingerprint) (s : State) : State :=
  mkState (world s) (trace s) (console s) (capturedVideoUrl s)
    (isCapturingVideo s) (commentCount s) m (cookieFiles s)
    (profileStatsFile s) (interactionLogFile s) (profileStats s).

Definition set_cookieFiles (c : gset string) (s : State) : State :=
  mkState (world s) (trace s) (console s) (capturedVideoUrl s)
    (isCapturingVideo s) (commentCount s) (fingerprintFiles s) c
    (profileStatsFile s) (interactionLogFile s) (profileStats s).

Definition set_profileStatsFile (f : option string) (s : State) : State :=
  mkState (world s) (trace s) (console s) (capturedVideoUrl s)
    (isCapturingVideo s) (commentCount s) (fingerprintFiles s) (cookieFiles s)
    f (interactionLogFile s) (profileStats s).

Definition set_interactionLogFile (f : option string) (s : State) : State :=
  mkState (world s) (trace s) (console s) (capturedVideoUrl s)
    (isCapturingVideo s) (commentCount s) (fingerprintFiles s) (cookieFiles s)
    (profileStatsFile s) f (profileStats s).

Definition set_profileStats (m : gmap string ProfileStats) (s : State) : State :=
  mkState (world s) (trace s) (console s) (capturedVideoUrl s)
    (isCapturingVideo s) (commentCount s) (fingerprintFiles s) (cookieFiles s)
    (profileStatsFile s) (interactionLogFile s) m.

(** A computation runs on a state and either returns or throws. *)
Definition M (A : Type) : Type := State -> Res A * State.

#[global] Instance M_ret : MRet M := fun A a s => (Ok a, s).

#[global] Instance M_bind : MBind M := fun A B f m s =>
  match m s with
  | (Ok a, s') => f a s'
  | (Throw e, s') => (Throw e, s')
  end.

Definition throw {A} (message : string) : M A := fun s => (Throw message, s).

(** [try { m } catch (e) { h e }] *)
Definition try_catch {A} (m : M A) (h : string -> M A) : M A := fun s =>
  match m s with
  | (Ok a, s') => (Ok a, s')
  | (Throw e, s') => h e s'
  end.

(** [try { m } finally { f }] *)
Definition try_finally {A} (m : M A) (f : M unit) : M A := fun s =>
  let '(r, s1) := m s in
  match f s1 with
  | (Ok _, s2) => (r, s2)
  | (Throw e, s2) => (Throw e, s2)
  end.

(** [try { m } catch (e) {}] *)
Definition attempt (m : M unit) : M unit := try_catch m (fun _ => mret tt).

Definition modify (f : State -> State) : M unit := fun s => (Ok tt, f s).

Definition gets {A} (f : State -> A) : M A := fun s => (Ok (f s), s).

Definition when (b : bool) (m : M unit) : M unit := if b then m else mret tt.

(** The [response] listener that [InstagramBot.init] puts on the page (the
    line it prints when it captures a URL is left out of the console). *)
Definition onResponse (r : Response) (s : State) : State :=
  if negb (isCapturingVideo s) then s
  else if JS.truthy (capturedVideoUrl s) then s
  else
    match contentType r with
    | Some ct =>
        if negb (JS.is_empty ct)
           && JS.includes ct "video/mp4"
           && JS.includes (url r) "fbcdn.net"
           && (JS.includes (url r) "instagram" || JS.includes (url r) "ig")
        then set_capturedVideoUrl (Some (url r)) s
        else s
    | None => s
    end.

(** Awaiting an operation: the environment answers, the responses that
    arrived meanwhile go through the listener, the call is recorded. *)
Definition deliver (responses : list Response) (s : State) : State :=
  fold_left (fun st resp => onResponse resp st) responses s.

Definition call {X} (op : Op X) : M X := fun s =>
  let '(r, responses, w) := perform op (world s) in
  (r, deliver responses (add_event (EvOp op r) (set_world w s))).

Definition await {X} (h : Host X) : M X := fun s =>
  let '(x, w) := host h (world s) in
  (Ok x, add_event (EvHost h x) (set_world w s)).

Definition emit (e : Event) : M unit := modify (add_event e).

(** A call that the file system may refuse: the environment lets it
    through, or it throws and the refusal is recorded. *)
Definition fs (c : FsCall) : M unit := fun s =>
  match refuse c (world s) with
  | (None, w) => (Ok tt, set_world w s)
  | (Some message, w) => (Throw message, add_event (EvRefused c message) (set_world w s))
  end.

Definition log (logger : string) (l : Level) (message : string) : M unit :=
  modify (add_line (logger, l, message)).

(** ** Paths and quoting *)

Definition dq : string := String (ascii_of_nat 34) EmptyString.
Definition q (s : string) : string := dq +:+ s +:+ dq.
Definition nl : string := String (ascii_of_nat 10) EmptyString.

Definition logsDir : string := "data/logs".
Definition path_join (dir file : string) : string := dir +:+ "/" +:+ file.

(* =================================================================== *)
(** * [bot.ts]: class InstagramBot *)
(* =================================================================== *)

Definition cookiePath (this : Bot) : string :=
  path_join "data/cookies" (username (bot_config this) +:+ ".json").

Definition new_InstagramBot
    (accountConfig : AccountConfig) (globalSettings : SettingsConfig)
    (logger : string) : M Bot :=
  modify (set_capturedVideoUrl None);;
  modify (set_isCapturingVideo false);;
  if developerMode globalSettings then
    log logger Debug "Developer mode is ON. Using short action delays.";;
    mret {| bot_config := accountConfig;
            bot_behavior := behavior globalSettings;
            bot_developerMode := developerMode globalSettings;
            bot_actionDelays := (1000, 2000);
            bot_logger := logger |}
  else
    let actionDelay :=
      default (defaultActionDelaySeconds globalSettings)
              (actionDelaySeconds accountConfig) in
    log logger Info ("Action delay loaded: " +:+ pretty (min actionDelay)
                     +:+ "s - " +:+ pretty (max actionDelay) +:+ "s");;
    mret {| bot_config := accountConfig;
            bot_behavior := behavior globalSettings;
            bot_developerMode := developerMode globalSettings;
            bot_actionDelays := (min actionDelay * 1000, max actionDelay * 1000);
            bot_logger := logger |}.

(** [fs.appendFileSync(globalLogPath, logEntry, 'utf-8')]: the entry goes
    to the end of the file, which is created when it is not there, unless
    the file system refuses the call. *)
Definition appendInteractionLog (logEntry : string) : M unit :=
  fs (AppendFileSync logEntry);;
  modify (fun s =>
    set_interactionLogFile
      (Some (default EmptyString (interactionLogFile s) +:+ logEntry))
      (add_event (EvFs (AppendInteractionLog logEntry)) s)).

Definition logEntryOf (timestamp account targetUsername actionType comment : string)
  : string :=
  timestamp +:+ "," +:+ account +:+ "," +:+ targetUsername +:+ ","
    +:+ actionType +:+ ","
    +:+ q (JS.replace_all (ascii_of_nat 34) (dq +:+ dq) comment) +:+ nl.

Definition logInteraction (this : Bot) (targetUsername actionType comment : string)
  : M unit :=
  timestamp ← await Now;
  let logEntry :=
    logEntryOf timestamp (username (bot_config this)) targetUsername actionType comment in
  when (String.eqb actionType "comment")
       (modify (fun s => set_commentCount (S (commentCount s)) s));;
  try_catch
    (appendInteractionLog logEntry)
    (fun e => log (bot_logger this) Error ("Failed to write to global CSV log: " +:+ e)).

Definition ensureCookiesAreSaved (this : Bot) : M unit :=
  saved ← gets (fun s => bool_decide (username (bot_config this) ∈ cookieFiles s));
  if negb saved then
    log (bot_logger this) Action "Session is active but cookie file is missing. Saving now...";;
    try_catch
      (call (StorageState (cookiePath this));;
       modify (fun s => set_cookieFiles ({[ username (bot_config this) ]} ∪ cookieFiles s) s);;
       log (bot_logger this) Success "Cookies saved successfully.")
      (fun e => log (bot_logger this) Error ("Failed to save cookies: " +:+ e))
  else mret tt.

Definition checkIfLoggedIn (this : Bot) : M bool :=
  try_catch
    (n ← call (Count (Css ("a[href=" +:+ q ("/" +:+ username (bot_config this) +:+ "/") +:+ "]")));
     if (0 <? n)%nat then mret true else
     n ← call (Count (Css ("svg[aria-label=" +:+ q "Home" +:+ "]")));
     if (0 <? n)%nat then mret true else
     n ← call (Count (Css ("input[name=" +:+ q "username" +:+ "]")));
     if (0 <? n)%nat then mret false else
     mret false)
    (fun e =>
       log (bot_logger this) Error ("Error checking login status: " +:+ e);;
       mret false).

Definition dismissCommonPopups (this : Bot) : M unit :=
  attempt
    (let allowCookiesButton := ByRole "button" "Allow all cookies" false in
     n ← call (Count allowCookiesButton);
     when (0 <? n)%nat
       (log (bot_logger this) Action ("Dismissing " +:+ q "Allow all cookies" +:+ " popup...");;
        call (HesitateAndClick allowCookiesButton);;
        call (RandomizedWait (shortWaitMs (bot_behavior this)))));;
  attempt
    (let saveInfoButton := ByRole "button" "Save Info" false in
     n ← call (Count saveInfoButton);
     when (0 <? n)%nat
       (log (bot_logger this) Action ("Dismissing " +:+ q "Save Info" +:+ " popup...");;
        call (HesitateAndClick saveInfoButton);;
        call (RandomizedWait (shortWaitMs (bot_behavior this)))));;
  attempt
    (let notNowButton := ByRole "button" "Not Now" false in
     n ← call (Count notNowButton);
     when (0 <? n)%nat
       (log (bot_logger this) Action ("Dismissing " +:+ q "Turn on Notifications" +:+ " popup...");;
        call (HesitateAndClick (First notNowButton));;
        call (RandomizedWait (shortWaitMs (bot_behavior this))))).

Definition usernameInput : string := "input[name=" +:+ q "username" +:+ "]".
Definition passwordInput : string := "input[name=" +:+ q "password" +:+ "]".

(** The rest of [login] once the username field is on the page. *)
Definition typeCredentialsAndSubmit (this : Bot) : M unit :=
  log (bot_logger this) Action "Typing credentials...";;
  call (RandomizedWait (shortWaitMs (bot_behavior this)));;
  call (NaturalTyping (Css usernameInput) (username (bot_config this))
          (Some {| typingMin := 80; typingMax := 250; typoChance := 7 |}));;
  call (RandomDelay 500 1500);;
  call (NaturalTyping (Css passwordInput) (password (bot_config this))
          (Some {| typingMin := 100; typingMax := 300; typoChance := 3 |}));;
  log (bot_logger this) Action "Submitting login form...";;
  call (RandomDelay 800 2000);;
  call (HesitateAndClick (ByRole "button" "Log in" true));;
  attempt
    (let saveInfoButton := ByRole "button" "Save info" false in
     call (WaitFor saveInfoButton true 8000);;
     log (bot_logger this) Action "Saving login info...";;
     call (RandomDelay 500 1500);;
     call (HesitateAndClick saveInfoButton);;
     call (RandomizedWait (navigationWaitMs (bot_behavior this))));;
  try_catch
    (call (WaitForSelector
             ("a[href=" +:+ q ("/" +:+ username (bot_config this) +:+ "/") +:+ "]")
             true 15000))
    (fun _ =>
       let screenshotPath :=
         path_join logsDir ("login_error_" +:+ username (bot_config this) +:+ ".png") in
       call (Screenshot screenshotPath);;
       throw ("Login failed. Screenshot saved to: " +:+ screenshotPath));;
  dismissCommonPopups this;;
  log (bot_logger this) Action "Saving cookies to disk...";;
  call (StorageState (cookiePath this));;
  modify (fun s => set_cookieFiles ({[ username (bot_config this) ]} ∪ cookieFiles s) s).

Definition login (this : Bot) : M unit :=
  n ← call (Count (Css usernameInput));
  when (n =? 0)%nat
    (log (bot_logger this) Action "Navigating to login page...";;
     call (Goto "https://www.instagram.com/accounts/login/?hl=en");;
     call (RandomizedWait (navigationWaitMs (bot_behavior this)));;
     call MoveMouseRandomly);;
  dismissCommonPopups this;;
  found ← try_catch (A := bool)
    (call (WaitForSelector usernameInput true 10000);; mret true)
    (fun _ =>
       call (Screenshot (path_join logsDir
               ("login_page_error_" +:+ username (bot_config this) +:+ ".png")));;
       loggedIn ← checkIfLoggedIn this;
       if (loggedIn : bool) then
         log (bot_logger this) Success "Detected that we are already logged in!";;
         ensureCookiesAreSaved this;;
         mret false
       else throw "Could not find username input on login page");
  if (found : bool) then typeCredentialsAndSubmit this else mret tt.

Definition init (this : Bot) : M bool :=
  call NewPage;;
  log (bot_logger this) Action "Navigating to Instagram...";;
  call (Goto "https://www.instagram.com/?hl=en");;
  call (RandomizedWait (navigationWaitMs (bot_behavior this)));;
  call MoveMouseRandomly;;
  log (bot_logger this) Info "Checking login status...";;
  try_catch
    (dismissCommonPopups this;;
     loggedIn ← checkIfLoggedIn this;
     if (loggedIn : bool) then
       log (bot_logger this) Success "Already logged in.";;
       ensureCookiesAreSaved this;;
       mret true
     else
       log (bot_logger this) Info "Not logged in. Performing login.";;
       login this;;
       mret true)
    (fun e =>
       log (bot_logger this) Error ("Error during init: " +:+ e +:+ ". Attempting login...");;
       login this;;
       mret true).

Definition dialogSelector : string := "div[role=" +:+ q "dialog" +:+ "]".

Definition errorScreenshot (this : Bot) (kind targetUsername : string) : string :=
  path_join logsDir
    (kind +:+ "_" +:+ username (bot_config this) +:+ "_" +:+ targetUsername +:+ ".png").

(** The caption block of [runCommentTask]: the value of [postCaption]. *)
Definition extractCaption (this : Bot) : M string :=
  log (bot_logger this) Action "Extracting post caption...";;
  let captionLocator := First (Css (dialogSelector +:+ " h1")) in
  try_catch
    (visible ← call (IsVisible captionLocator 2000);
     if (visible : bool) then
       text ← call (TextContent captionLocator);
       let postCaption := if JS.truthy text then default EmptyString text else EmptyString in
       log (bot_logger this) Info
         ("Found caption: " +:+ dq +:+ JS.take 50 postCaption +:+ "..." +:+ dq);;
       mret postCaption
     else
       log (bot_logger this) Info "No caption found on this post.";;
       mret EmptyString)
    (fun _ =>
       log (bot_logger this) Warn "Could not extract post caption.";;
       mret EmptyString).

(** The loop over [imageLocators]: the value of [postImageUrl]. *)
Fixpoint findPostImage (this : Bot) (imageLocators : list Locator) : M (option string) :=
  match imageLocators with
  | [] => mret None
  | imageLocator :: rest =>
      n ← call (Count imageLocator);
      visible ← (if (0 <? n)%nat then call (IsVisible imageLocator 2000) else mret false);
      if (visible : bool) then
        src ← call (GetAttribute imageLocator "src");
        match src with
        | Some src' =>
            if negb (JS.is_empty src') && negb (JS.includes src' "static")
               && negb (JS.includes src' "sprite")
            then
              log (bot_logger this) Info
                ("Found post image: " +:+ JS.take 80 src' +:+ "...");;
              mret (Some src')
            else findPostImage this rest
        | None => findPostImage this rest
        end
      else findPostImage this rest
  end.

(** The media block of [runCommentTask]: [(postImageUrl, postVideoUrl)]. *)
Definition extractMedia (this : Bot) : M (option string * option string) :=
  log (bot_logger this) Action "Extracting post media (image/video)...";;
  try_catch
    (let videoErrorMessage :=
       Within (Css dialogSelector) (ByText "Sorry, we're having trouble playing this video") in
     let videoElement := Css (dialogSelector +:+ " video") in
     n ← call (Count videoErrorMessage);
     isVideoPost ← (if (0 <? n)%nat then mret true
                    else m ← call (Count videoElement); mret (0 <? m)%nat);
     if (isVideoPost : bool) then
       log (bot_logger this) Info "Detected video post";;
       captured ← gets capturedVideoUrl;
       if JS.truthy captured then
         log (bot_logger this) Info
           ("Using captured video URL: " +:+ default EmptyString captured);;
         mret (None, captured)
       else
         log (bot_logger this) Warn
           "Video post detected but no video URL was captured from network requests";;
         mret (None, None)
     else
       postImageUrl ← findPostImage this
         [ First (Css (dialogSelector +:+ " img[src*=" +:+ q "instagram" +:+ "]"));
           First (Css (dialogSelector +:+ " img[alt]"));
           First (Css (dialogSelector +:+ " article img")) ];
       when (negb (JS.truthy postImageUrl))
         (log (bot_logger this) Info
            "No post image found or image could not be extracted.");;
       mret (postImageUrl, None))
    (fun _ =>
       log (bot_logger this) Warn "Could not extract post media.";;
       mret (None, None)).

(** The last statement of [runCommentTask]: both branches on the number
    of matches of the comment text in the thread. *)
Definition recordSubmission (this : Bot) (targetUsername aiComment : string)
    (matches : nat) : M InteractionResult :=
  if (0 <? matches)%nat then
    log (bot_logger this) Success
      ("Successfully commented on @" +:+ targetUsername +:+ "'s post.");;
    logInteraction this targetUsername "comment" aiComment;;
    mret SUCCESS
  else
    log (bot_logger this) Warn "Could not verify if comment was posted successfully.";;
    logInteraction this targetUsername "comment" aiComment;;
    mret SUCCESS.

Definition profileUrl (targetUsername : string) : string :=
  "https://www.instagram.com/" +:+ targetUsername +:+ "/?hl=en".

Definition privateNotice : Locator := ByText "This Account Is Private".

Definition allPostLinks : Locator :=
  Css ("main a[href*=" +:+ q "/p/" +:+ "], main a[href*=" +:+ q "/reel/" +:+ "]").

Definition nonPinnedPostLinks : Locator :=
  HasNot allPostLinks (Css ("svg[aria-label=" +:+ q "Pinned post icon" +:+ "]")).

Definition commentTextarea : Locator :=
  Within (Css dialogSelector) (Css ("textarea[aria-label*=" +:+ q "Add a comment" +:+ "]")).

Definition postButton : Locator :=
  Within (Within (Css dialogSelector) (Css "form")) (ByRole "button" "Post" false).

Definition ourComment (aiComment : string) : Locator :=
  Within (Css dialogSelector) (ByText aiComment).

(** The end of [runCommentTask], from the click on the Post button on. *)
Definition submitComment (this : Bot) (targetUsername aiComment : string)
  : M InteractionResult :=
  log (bot_logger this) Action "Submitting the comment...";;
  call (HesitateAndClick postButton);;
  call (RandomDelay 4000 7000);;
  matches ← call (Count (ourComment aiComment));
  recordSubmission this targetUsername aiComment matches.

(** The body of the [try] block of [runCommentTask]. *)
Definition commentTask (this : Bot) (targetUsername : string)
    (aiPromptHint : option string) : M InteractionResult :=
  modify (set_capturedVideoUrl None);;
  modify (set_isCapturingVideo false);;
  log (bot_logger this) Action
    ("Navigating to @" +:+ targetUsername +:+ "'s profile page...");;
  call (Goto (profileUrl targetUsername));;
  call (RandomizedWait (navigationWaitMs (bot_behavior this)));;
  isPrivate ← call (Count privateNotice);
  if (0 <? isPrivate)%nat then
    log (bot_logger this) Warn
      ("@" +:+ targetUsername +:+ " is private. Cannot comment on posts.");;
    mret SKIPPED
  else
  log (bot_logger this) Action "Looking for the latest, non-pinned post...";;
  postCount ← call (Count nonPinnedPostLinks);
  if (postCount =? 0)%nat then
    total ← call (Count allPostLinks);
    (if (0 <? total)%nat then
       log (bot_logger this) Warn
         ("Could not find any non-pinned posts on @" +:+ targetUsername
          +:+ "'s profile. All visible posts may be pinned. Skipping.")
     else
       log (bot_logger this) Warn
         ("Could not find any posts on @" +:+ targetUsername +:+ "'s profile. Skipping."));;
    call (Screenshot (errorScreenshot this "no_posts_error" targetUsername));;
    mret SKIPPED
  else
  let latestPost := First nonPinnedPostLinks in
  log (bot_logger this) Action "Opening latest post...";;
  modify (set_isCapturingVideo true);;
  call (HesitateAndClick latestPost);;
  call (WaitForSelector dialogSelector true 15000);;
  log (bot_logger this) Success "Post opened in a dialog.";;
  call (RandomizedWait (shortWaitMs (bot_behavior this)));;
  postCaption ← extractCaption this;
  media ← extractMedia this;
  log (bot_logger this) Action "Generating AI comment...";;
  aiComment ← call (GenerateInstagramComment postCaption targetUsername aiPromptHint
                      (fst media) (snd media));
  log (bot_logger this) Success ("AI Generated Comment: " +:+ q aiComment);;
  n ← call (Count commentTextarea);
  if (n =? 0)%nat then
    log (bot_logger this) Warn
      "Comments might be disabled for this post. Cannot find comment area.";;
    call (Screenshot (errorScreenshot this "no_comment_area_error" targetUsername));;
    mret SKIPPED
  else
  call (JitteryMovement commentTextarea);;
  call (RandomDelay 1000 3000);;
  log (bot_logger this) Action "Typing comment...";;
  call (NaturalTyping commentTextarea aiComment None);;
  call (RandomDelay 1500 4000);;
  n ← call (Count postButton);
  unusable ← (if (n =? 0)%nat then mret true
              else isEnabled ← call (IsEnabled postButton); mret (negb isEnabled));
  if (unusable : bool) then
    log (bot_logger this) Error ("Could not find an enabled " +:+ q "Post" +:+ " button.");;
    call (Screenshot (errorScreenshot this "no_post_button_error" targetUsername));;
    mret FAILED
  else
  submitComment this targetUsername aiComment.

(** The [catch] block of [runCommentTask]. *)
Definition commentTaskFailed (this : Bot) (targetUsername : string) (message : string)
  : M InteractionResult :=
  log (bot_logger this) Error
    ("An error occurred during comment task for @" +:+ targetUsername +:+ ": " +:+ message);;
  call (Screenshot (errorScreenshot this "comment_task_error" targetUsername));;
  mret FAILED.

(** The state in which the [try] block of [runCommentTask] starts. *)
Definition taskStart (this : Bot) (targetUsername : string) (s : State) : State :=
  add_line (bot_logger this, Header,
            "----- Starting Comment Task for @" +:+ targetUsername +:+ " -----") s.

Definition runCommentTask (this : Bot) (targetUsername : string)
    (aiPromptHint : option string) : M InteractionResult :=
  log (bot_logger this) Header
    ("----- Starting Comment Task for @" +:+ targetUsername +:+ " -----");;
  try_finally
    (try_catch (commentTask this targetUsername aiPromptHint)
               (commentTaskFailed this targetUsername))
    (modify (set_isCapturingVideo false)).

(* =================================================================== *)
(** * [main.ts] *)
(* =================================================================== *)

Definition globalLogger : string := "SYSTEM".

Definition CSV_HEADER : string := "username,post_count,follower_count" +:+ nl.

(** [fs.writeFileSync(profileStatsPath, content)] *)
Definition writeProfileStatsFile (content : string) : M unit :=
  modify (fun s =>
    set_profileStatsFile (Some content) (add_event (EvFs (WriteProfileStats content)) s)).

(** The loop of [loadProfileStatsFromCsv] over the lines after the header. *)
Definition parseStatsLines (lines : list string) : gmap string ProfileStats :=
  fold_left
    (fun stats line =>
       if JS.is_empty (JS.trim line) then stats
       else
         match JS.split "," line with
         | username :: postCountStr :: followerCountStr :: _ =>
             if negb (JS.is_empty username) && negb (JS.is_empty postCountStr)
                && negb (JS.is_empty followerCountStr)
             then <[ username := {| postCount := JS.parseInt postCountStr;
                                    followerCount := JS.parseInt followerCountStr |} ]> stats
             else stats
         | _ => stats
         end)
    lines ∅.

Definition loadProfileStatsFromCsv : M (gmap string ProfileStats) :=
  file ← gets profileStatsFile;
  match file with
  | None =>
      log globalLogger Info "No existing profile stats file found. Will create a new one.";;
      writeProfileStatsFile CSV_HEADER;;
      mret ∅
  | Some fileContent =>
      try_catch
        (fs ReadFileSync;;
         let lines := tail (JS.split (ascii_of_nat 10) fileContent) in
         let stats := parseStatsLines lines in
         log globalLogger Info "Loaded existing profile stats from data/logs/profile_stats.csv";;
         mret stats)
        (fun e =>
           log globalLogger Error
             ("Could not read or parse data/logs/profile_stats.csv. Starting fresh. Error: "
              +:+ e);;
           writeProfileStatsFile CSV_HEADER;;
           mret ∅)
  end.

(** The [for] loop of [updateProfileStatsInCsv]: the first line that
    starts with [prefix] is replaced. *)
Fixpoint replaceFirst (prefix newEntry : string) (lines : list string)
  : option (list string) :=
  match lines with
  | [] => None
  | line :: rest =>
      if JS.startsWith line prefix then Some (newEntry :: rest)
      else option_map (cons line) (replaceFirst prefix newEntry rest)
  end.

Definition upsertLine (username newEntry : string) (lines : list string) : list string :=
  match lines with
  | [] => [newEntry]
  | header :: rest =>
      match replaceFirst (username +:+ ",") newEntry rest with
      | Some rest' => header :: rest'
      | None => header :: rest ++ [newEntry]
      end
  end.

Definition statsEntry (username : string) (newPostCount newFollowerCount : JS.number)
  : string :=
  username +:+ "," +:+ Number_toString newPostCount +:+ ","
    +:+ Number_toString newFollowerCount.

(** The content [updateProfileStatsInCsv] writes back. *)
Definition updatedContent (username : string) (newPostCount newFollowerCount : JS.number)
    (fileContent : string) : string :=
  let lines := JS.split (ascii_of_nat 10) fileContent in
  let lines := upsertLine username (statsEntry username newPostCount newFollowerCount) lines in
  JS.join nl (List.filter (fun line => negb (JS.is_empty (JS.trim line))) lines) +:+ nl.

Definition updateProfileStatsInCsv (username : string)
    (newPostCount newFollowerCount : JS.number) : M unit :=
  try_catch
    (file ← gets profileStatsFile;
     match file with
     | None => throw "ENOENT: no such file or directory, open 'data/logs/profile_stats.csv'"
     | Some fileContent =>
         writeProfileStatsFile (updatedContent username newPostCount newFollowerCount fileContent)
     end)
    (fun e =>
       log globalLogger Error
         ("Failed to update profile stats for @" +:+ username +:+ " in CSV: " +:+ e)).

Definition parseFollowerCount (text : string) : option JS.number :=
  if JS.is_empty text then None
  else
    let cleanedText := JS.remove_all "," (JS.trim (JS.toLowerCase text)) in
    let num := JS.parseFloat cleanedText in
    if JS.isNaN num then None
    else if JS.includes cleanedText "k" then
      Some (JS.Math_round (JS.mul num (JS.of_Z 1000)))
    else if JS.includes cleanedText "m" then
      Some (JS.Math_round (JS.mul num (JS.of_Z 1000000)))
    else Some num.

Definition statsErrorScreenshot (username : string) : string :=
  path_join logsDir ("stats_error_" +:+ username +:+ ".png").

Definition unavailableNotice : Locator :=
  Css ("h2:text-is(" +:+ q "Sorry, this page isn't available." +:+ ")").

Definition privateAccountNotice : Locator :=
  Css ("h2:text-is(" +:+ q "This Account is Private" +:+ ")").

Definition statsList : Locator :=
  Has (Has (Css "header ul") (HasText (Css "li") "posts?"))
      (HasText (Css "li") "followers?").

Definition postLi : Locator := First (HasText (Within statsList (Css "li")) "posts?").

Definition followerLi : Locator :=
  First (HasText (Within statsList (Css "li")) "followers?").

Definition spanWithTitle : Locator := Within followerLi (Css "span[title]").

(** The follower count read from the [title] attribute, if it parses. *)
Definition followerCountFromTitle : M (option JS.number) :=
  n ← call (Count spanWithTitle);
  if (0 <? n)%nat then
    title ← call (GetAttribute spanWithTitle "title");
    match title with
    | Some t =>
        if negb (JS.is_empty t) then
          let parsed := JS.parseInt (JS.remove_all "," t) in
          if negb (JS.isNaN parsed) then mret (Some parsed) else mret None
        else mret None
    | None => mret None
    end
  else mret None.

(** The follower count read from the text of the list item. *)
Definition followerCountFromText : M (option JS.number) :=
  followerText ← call (TextContent followerLi);
  match followerText with
  | Some t =>
      if negb (JS.is_empty t) then
        let numberPart := JS.first_field " " (JS.remove_all "," t) in
        mret (parseFollowerCount numberPart)
      else mret None
  | None => mret None
  end.

(** The body of the [try] block of [getProfileStats]. *)
Definition fetchProfileStats (username logger : string) : M (option ProfileStats) :=
  log logger Debug ("Navigating to @" +:+ username +:+ " to check profile stats...");;
  call (Goto (profileUrl username));;
  call (WaitFor (Css "main") true 15000);;
  n ← call (Count unavailableNotice);
  if (0 <? n)%nat then
    log logger Warn ("Profile @" +:+ username +:+ " not found or is unavailable.");;
    mret None
  else
  n ← call (Count privateAccountNotice);
  if (0 <? n)%nat then
    log logger Warn ("Profile @" +:+ username +:+ " is private. Cannot get stats.");;
    mret None
  else
  call (WaitFor statsList true 10000);;
  postText ← call (TextContent postLi);
  if negb (JS.truthy postText) then
    log logger Warn ("Could not find post count text for @" +:+ username +:+ ".");;
    call (Screenshot (statsErrorScreenshot username));;
    mret None
  else
  let postCount :=
    JS.parseInt (JS.first_field " " (JS.remove_all "," (default EmptyString postText))) in
  if JS.isNaN postCount then
    log logger Warn
      ("Could not parse post count from text: " +:+ q (default EmptyString postText));;
    mret None
  else
  fromTitle ← followerCountFromTitle;
  followerCount ← match fromTitle with
                  | Some _ => mret fromTitle
                  | None => followerCountFromText
                  end;
  match followerCount with
  | None =>
      log logger Warn ("Could not find or parse follower count for @" +:+ username +:+ ".");;
      call (Screenshot (statsErrorScreenshot username));;
      mret None
  | Some followers =>
      log logger Debug
        ("Found stats for @" +:+ username +:+ ": Posts - " +:+ Number_toString postCount
         +:+ ", Followers - " +:+ Number_toString followers);;
      mret (Some {| postCount := postCount; followerCount := followers |})
  end.

(** The [catch] block of [getProfileStats]. *)
Definition fetchFailed (username logger message : string) : M (option ProfileStats) :=
  log logger Error ("Error getting profile stats for @" +:+ username +:+ ": " +:+ message);;
  call (Screenshot (statsErrorScreenshot username));;
  mret None.

Definition getProfileStats (username logger : string) : M (option ProfileStats) :=
  try_catch (fetchProfileStats username logger) (fetchFailed username logger).

(** The functions below read the global [config]; they are stated for
    whatever configuration [config.ts] holds. *)
Variable cfg : Config.

(** The first block of [initializeBotSession]: the persisted fingerprint
    of the account if there is one, else a new one, written to disk. *)
Definition loadOrCreateFingerprint (accountToUse : AccountConfig) (logger : string)
  : M Fingerprint :=
  persisted ← gets (fun s => fingerprintFiles s !! username accountToUse);
  match persisted with
  | Some fingerprint =>
      log logger Info ("Loading fingerprint for " +:+ username accountToUse);;
      mret fingerprint
  | None =>
      log logger Info ("Generating new fingerprint for " +:+ username accountToUse);;
      fingerprint ← call GenerateFingerprint;
      modify (fun s =>
        set_fingerprintFiles (<[ username accountToUse := fingerprint ]> (fingerprintFiles s))
          (add_event (EvFs (WriteFingerprint (username accountToUse) fingerprint)) s));;
      mret fingerprint
  end.

Definition contextOptions (accountToUse : AccountConfig) (fingerprint : Fingerprint)
    (cookiesSaved : bool) : ContextOptions :=
  {| storageState :=
       if cookiesSaved
       then Some (path_join "data/cookies" (username accountToUse +:+ ".json"))
       else None;
     ctxUserAgent := userAgent fingerprint;
     ctxViewport := viewport fingerprint;
     ctxDeviceScaleFactor := deviceScaleFactor fingerprint;
     ctxLocale := locale fingerprint;
     ctxTimezoneId := timezoneId fingerprint;
     ctxColorScheme := colorScheme fingerprint;
     ctxReducedMotion := reducedMotion fingerprint;
     hasTouch := false;
     isMobile := false;
     javaScriptEnabled := true |}.

Definition initScriptArgs (fingerprint : Fingerprint) : InitScriptArgs :=
  {| argHardwareConcurrency := hardwareConcurrency fingerprint;
     argDeviceMemory := deviceMemory fingerprint;
     argWebgl := webgl fingerprint |}.

(** The rest of [initializeBotSession], once the fingerprint is known. *)
Definition openSession (accountToUse : AccountConfig) (logger : string)
    (headlessOption : option bool) (fingerprint : Fingerprint)
  : M (option (Browser * Bot)) :=
  let headless := default (headless (settings cfg)) headlessOption in
  browser ← call (ChromiumLaunch headless);
  try_catch
    (cookiesSaved ← gets (fun s => bool_decide (username accountToUse ∈ cookieFiles s));
     call (NewContext browser (contextOptions accountToUse fingerprint cookiesSaved));;
     call (AddInitScript (initScriptArgs fingerprint));;
     bot ← new_InstagramBot accountToUse (settings cfg) logger;
     init bot;;
     log logger Success ("Bot session initialized for @" +:+ username accountToUse +:+ ".");;
     mret (Some (browser, bot)))
    (fun e =>
       log logger Error
         ("Bot initialization for " +:+ username accountToUse +:+ " failed: " +:+ e);;
       call (BrowserClose browser);;
       mret None).

Definition initializeBotSession (accountToUse : AccountConfig) (logger : string)
    (headlessOption : option bool) : M (option (Browser * Bot)) :=
  emit (EvSession accountToUse);;
  fingerprint ← loadOrCreateFingerprint accountToUse logger;
  openSession accountToUse logger headlessOption fingerprint.

Definition showResult (r : InteractionResult) : string :=
  match r with
  | SUCCESS => "SUCCESS"
  | SKIPPED => "SKIPPED"
  | FAILED => "FAILED"
  end.

(** The part of [launchBotForTask] that runs the task on the session. *)
Definition taskOnSession (accountToUse : AccountConfig) (targetUsername : string)
    (aiPromptHint : option string) (session : option (Browser * Bot)) : M LaunchResult :=
  let botLogger := username accountToUse in
  match session with
  | None => mret LAUNCH_ERROR
  | Some (browser, bot) =>
      try_finally
        (try_catch
           (result ← runCommentTask bot targetUsername aiPromptHint;
            log botLogger Success
              ("Task for @" +:+ targetUsername +:+ " completed with status: "
               +:+ showResult result +:+ ".");;
            mret (Finished result))
           (fun e =>
              log botLogger Error
                ("An unexpected error occurred during the bot task: " +:+ e);;
              mret (Finished FAILED)))
        (call (BrowserClose browser);;
         log globalLogger Info ("Browser closed for " +:+ username accountToUse +:+ "."))
  end.

Definition launchBotForTask (accountToUse : AccountConfig) (targetUsername : string)
    (aiPromptHint : option string) : M LaunchResult :=
  emit (EvLaunch accountToUse targetUsername);;
  let botLogger := username accountToUse in
  session ← initializeBotSession accountToUse botLogger (Some (headless (settings cfg)));
  outcome ← taskOnSession accountToUse targetUsername aiPromptHint session;
  emit (EvLaunched accountToUse targetUsername outcome);;
  mret outcome.

(** The part of [runTestCommentMode] after the account has been chosen. *)
Definition testCommentWith (accountToUse : option AccountConfig) : M unit :=
  match accountToUse with
  | None =>
      log globalLogger Error "No enabled accounts found in config.ts. Cannot run test mode."
  | Some account =>
      match targets account with
      | [] =>
          log globalLogger Error
            ("Account @" +:+ username account +:+ " has no targets defined. Cannot run test mode.")
      | targetUsername :: _ =>
          log globalLogger Info ("Using account: @" +:+ username account);;
          log globalLogger Info ("Targeting user: @" +:+ targetUsername);;
          log globalLogger Info "An AI comment will be generated based on the latest post.";;
          launchBotForTask account targetUsername (aiPromptHint account);;
          log globalLogger Header "----- TEST COMMENT MODE COMPLETE -----"
      end
  end.

(** [testUsername] is [process.argv[3]]. *)
Definition runTestCommentMode (testUsername : option string) : M unit :=
  log globalLogger Header "----- RUNNING IN TEST COMMENT MODE -----";;
  if JS.truthy testUsername then
    let name := default EmptyString testUsername in
    log globalLogger Info ("Attempting to run test for specified account: @" +:+ name);;
    match find (fun acc => String.eqb (username acc) name) (accounts cfg) with
    | None =>
        log globalLogger Error
          ("Account with username " +:+ q ("@" +:+ name) +:+ " not found in config.ts.")
    | Some account =>
        if negb (enabled account) then
          log globalLogger Error
            ("Account " +:+ q ("@" +:+ name) +:+ " is disabled in config.ts. Cannot run test.")
        else testCommentWith (Some account)
    end
  else
    log globalLogger Info
      "No specific account provided. Using the first enabled account found in config.";;
    testCommentWith (find enabled (accounts cfg)).

Definition waitForEnter : M unit :=
  log globalLogger Info
    ">>> Press [ENTER] in the terminal to proceed to the next account, or CTRL+C to exit. <<<";;
  await WaitForEnter.

(** The loop of [runCheckAccountsMode]; [index] is the position of the
    head of [remaining] among the [total] enabled accounts. *)
Fixpoint checkAccounts (total index : nat) (remaining : list AccountConfig) : M unit :=
  match remaining with
  | [] => mret tt
  | account :: rest =>
      log globalLogger Header ("----- Checking account: @" +:+ username account +:+ " -----");;
      session ← initializeBotSession account (username account) (Some false);
      match session with
      | None =>
          log globalLogger Warn
            ("Failed to initialize session for @" +:+ username account
             +:+ ". It might be locked or require verification. This account will be skipped.")
      | Some (browser, _) =>
          log globalLogger Info
            "Browser window is open for manual inspection (login, popups, etc.).";;
          waitForEnter;;
          log globalLogger Action ("Closing browser for @" +:+ username account +:+ "...");;
          call (BrowserClose browser)
      end;;
      when (S index <? total)%nat
        (log globalLogger Info ("Proceeding to the next account..." +:+ nl));;
      checkAccounts total (S index) rest
  end.

Definition runCheckAccountsMode : M unit :=
  log globalLogger Header "----- RUNNING IN ACCOUNT CHECK MODE -----";;
  let enabledAccounts := List.filter enabled (accounts cfg) in
  match enabledAccounts with
  | [] => log globalLogger Error "No enabled accounts found in config.ts. Exiting."
  | _ =>
      log globalLogger Info
        ("Found " +:+ pretty (length enabledAccounts) +:+ " enabled account(s) to check.");;
      checkAccounts (length enabledAccounts) 0 enabledAccounts;;
      log globalLogger Header "----- ACCOUNT CHECK MODE COMPLETE -----"
  end.

(** [targetMap]: a [Map] from target to the accounts tasked with it; a
    [Map] iterates in insertion order. *)
Definition TargetMap : Type := list (string * list AccountConfig).

Fixpoint tm_get (m : TargetMap) (target : string) : option (list AccountConfig) :=
  match m with
  | [] => None
  | (k, tasks) :: rest => if String.eqb k target then Some tasks else tm_get rest target
  end.

(** [if (!targetMap.has(t)) targetMap.set(t, []); targetMap.get(t).push({ account })] *)
Fixpoint tm_push (m : TargetMap) (target : string) (account : AccountConfig) : TargetMap :=
  match m with
  | [] => [(target, [account])]
  | (k, tasks) :: rest =>
      if String.eqb k target then (k, tasks ++ [account]) :: rest
      else (k, tasks) :: tm_push rest target account
  end.

Definition buildTargetMap (enabledAccounts : list AccountConfig) : TargetMap :=
  fold_left
    (fun m account =>
       fold_left (fun m targetUsername => tm_push m targetUsername account)
                 (targets account) m)
    enabledAccounts [].

Fixpoint forEach {A} (l : list A) (f : A -> M unit) : M unit :=
  match l with
  | [] => mret tt
  | x :: rest => f x;; forEach rest f
  end.

(** [Math.round(ms / unit)] as it appears in the log lines. *)
Definition roundedTo (ms : JS.number) (unit : Z) : string :=
  Number_toString (JS.Math_round (JS.div ms (JS.of_Z unit))).

(** [profileStats[t] = currentStats; await updateProfileStatsInCsv(t, ..)] *)
Definition commitStats (targetUsername : string) (currentStats : ProfileStats) : M unit :=
  modify (fun s => set_profileStats (<[ targetUsername := currentStats ]> (profileStats s)) s);;
  updateProfileStatsInCsv targetUsername (postCount currentStats) (followerCount currentStats).

(** The delay between two bot launches. *)
Definition waitBeforeNextBot : M unit :=
  r ← await MathRandom;
  let interBotDelay := JS.add (JS.of_Z 15000) (JS.mul r (JS.of_Z 25000)) in
  log globalLogger Info
    ("Waiting for ~" +:+ roundedTo interBotDelay 1000 +:+ "s before next bot launch...");;
  await (Delay interBotDelay).

(** Whether a launch calls for a retry. *)
Definition taskFailed (result : LaunchResult) : bool :=
  match result with
  | Finished FAILED | LAUNCH_ERROR => true
  | _ => false
  end.

(** The loop over [tasks]; the result is [allTasksSucceededOrSkipped]. *)
Fixpoint runTasks (tasks : list AccountConfig) (total : nat) (targetUsername : string)
    (allTasksSucceededOrSkipped : bool) : M bool :=
  match tasks with
  | [] => mret allTasksSucceededOrSkipped
  | account :: rest =>
      log globalLogger Action
        ("--- Starting task for account: @" +:+ username account +:+ " ---");;
      result ← launchBotForTask account targetUsername (aiPromptHint account);
      let failed := taskFailed result in
      when failed
        (log globalLogger Warn
           ("Task for @" +:+ username account +:+ " on @" +:+ targetUsername +:+ " failed."));;
      when (1 <? total)%nat waitBeforeNextBot;;
      runTasks rest total targetUsername
        (if failed then false else allTasksSucceededOrSkipped)
  end.

(** What the loop does once [currentStats] is known not to be null.  The
    snapshots are looked up as in a map: a target named like a property
    that every object inherits ([constructor], [__proto__], ...) counts
    here as not seen before, where the source finds the inherited value,
    takes the branch of the changed follower count and prints that line;
    the snapshot is committed and no task launched in both. *)
Definition compareStats (targetMap : TargetMap) (targetUsername : string)
    (currentStats : ProfileStats) : M unit :=
  let currentPostCount := postCount currentStats in
  let currentFollowerCount := followerCount currentStats in
  previousStats ← gets (fun s => profileStats s !! targetUsername);
  match previousStats with
  | None =>
      log globalLogger Info
        ("Initialized @" +:+ targetUsername +:+ " with " +:+ Number_toString currentPostCount
         +:+ " posts and " +:+ Number_toString currentFollowerCount
         +:+ " followers. Will monitor for changes.");;
      commitStats targetUsername currentStats
  | Some previous =>
      let previousPostCount := postCount previous in
      let previousFollowerCount := followerCount previous in
      if JS.gt currentPostCount previousPostCount then
        log globalLogger Success
          (">>> NEW POST DETECTED for @" +:+ targetUsername +:+ "! Posts: "
           +:+ Number_toString previousPostCount +:+ " -> "
           +:+ Number_toString currentPostCount +:+ " <<<");;
        let tasks := default [] (tm_get targetMap targetUsername) in
        when (0 <? length tasks)%nat
          (log globalLogger Action
             ("Found " +:+ pretty (length tasks) +:+ " account(s) tasked to comment on this post."));;
        allTasksSucceededOrSkipped ← runTasks tasks (length tasks) targetUsername true;
        if (allTasksSucceededOrSkipped : bool) then
          log globalLogger Success
            ("All tasks for @" +:+ targetUsername +:+ " succeeded. Updating stats to P:"
             +:+ Number_toString currentPostCount +:+ ", F:"
             +:+ Number_toString currentFollowerCount +:+ ".");;
          commitStats targetUsername currentStats
        else
          log globalLogger Warn
            ("One or more tasks failed for @" +:+ targetUsername
             +:+ ". Stats will NOT be updated to allow a retry on the next cycle.")
      else if JS.lt currentPostCount previousPostCount then
        log globalLogger Warn
          ("Posts were deleted for @" +:+ targetUsername +:+ ". Old: "
           +:+ Number_toString previousPostCount +:+ ", New: "
           +:+ Number_toString currentPostCount +:+ ". Stats updated.");;
        commitStats targetUsername currentStats
      else if JS.strict_ne currentFollowerCount previousFollowerCount then
        log globalLogger Info
          ("Follower count changed for @" +:+ targetUsername +:+ ". Old: "
           +:+ Number_toString previousFollowerCount +:+ ", New: "
           +:+ Number_toString currentFollowerCount +:+ ". Stats updated.");;
        commitStats targetUsername currentStats
      else
        log globalLogger Info
          ("No new posts or follower changes for @" +:+ targetUsername +:+ ". Posts: "
           +:+ Number_toString currentPostCount +:+ ", Followers: "
           +:+ Number_toString currentFollowerCount +:+ ".")
  end.

(** The start of the loop body: the fetch and the delay that follows it;
    the result is [currentStats]. *)
Definition fetchAndWait (targetUsername : string) : M (option ProfileStats) :=
  log globalLogger Info ("Checking target: @" +:+ targetUsername);;
  currentStats ← getProfileStats targetUsername globalLogger;
  r ← await MathRandom;
  let interProfileDelay := JS.add (JS.of_Z 20000) (JS.mul r (JS.of_Z 20000)) in
  log globalLogger Debug
    ("Waiting ~" +:+ roundedTo interProfileDelay 1000 +:+ "s before next check.");;
  await (Delay interProfileDelay);;
  mret currentStats.

(** The body of the loop over [monitoredUsernames]. *)
Definition checkTarget (targetMap : TargetMap) (targetUsername : string) : M unit :=
  currentStats ← fetchAndWait targetUsername;
  match currentStats with
  | None =>
      log globalLogger Warn
        ("Could not get profile stats for @" +:+ targetUsername +:+ ". Skipping.")
  | Some stats => compareStats targetMap targetUsername stats
  end.

(** One pass of the [while (true)] loop. *)
Definition monitoringCycle (targetMap : TargetMap) : M unit :=
  log globalLogger Header "----- Starting Monitoring Cycle -----";;
  forEach (map fst targetMap) (checkTarget targetMap);;
  let lo := JS.of_Z (min (monitoringIntervalSeconds (settings cfg))) in
  let hi := JS.of_Z (max (monitoringIntervalSeconds (settings cfg))) in
  r ← await MathRandom;
  let waitSeconds := JS.add lo (JS.mul r (JS.sub hi lo)) in
  log globalLogger Header
    ("----- Monitoring Cycle Complete. Waiting for ~" +:+ roundedTo waitSeconds 60
     +:+ " minutes. -----");;
  await (Delay (JS.mul waitSeconds (JS.of_Z 1000))).

(** The first [cycles] passes of the loop. *)
Fixpoint monitorLoop (cycles : nat) (targetMap : TargetMap) : M unit :=
  match cycles with
  | O => mret tt
  | S n => monitoringCycle targetMap;; monitorLoop n targetMap
  end.

Definition warnSharedTargets (targetMap : TargetMap) : M unit :=
  let sharedTargets := List.filter (fun entry => (1 <? length (snd entry))%nat) targetMap in
  when (0 <? length sharedTargets)%nat
    (log globalLogger Header "----- SHARED TARGET WARNING -----";;
     log globalLogger Warn "The following targets are shared by multiple accounts:";;
     forEach sharedTargets
       (fun shared =>
          log globalLogger Warn
            ("  - Target: " +:+ fst shared +:+ " | Accounts: "
             +:+ JS.join ", " (map username (snd shared))));;
     log globalLogger Warn
       "This is not an error, but be aware that all listed accounts will attempt to comment sequentially on new posts from these targets.").

(** How an observed prefix of [runMonitorMode] ends: the function has
    returned, or it is still in its loop after the cycles observed. *)
Inductive MonitorExit := Returned | Running.

(** The [try]/[catch]/[finally] around the loop: an error is logged and
    thrown again after the monitor browser is closed; while no error
    occurs the function stays in [body]. *)
Definition monitorWith (monitorBrowser : Browser) (body : M unit) : M MonitorExit :=
  fun s =>
    match body s with
    | (Ok _, s') => (Ok Running, s')
    | (Throw e, s') =>
        (log globalLogger Error ("A critical error occurred in monitor mode: " +:+ e);;
         log globalLogger Info "Closing monitor browser...";;
         call (BrowserClose monitorBrowser);;
         throw e) s'
    end.

Definition runMonitorMode (cycles : nat) : M MonitorExit :=
  log globalLogger Header "----- Instagram New Post Commenter Bot (Monitor Mode) -----";;
  let enabledAccounts := List.filter enabled (accounts cfg) in
  match enabledAccounts with
  | [] =>
      log globalLogger Error "No enabled accounts found in config.ts. Exiting.";;
      mret Returned
  | monitorAccount :: _ =>
      let targetMap := buildTargetMap enabledAccounts in
      warnSharedTargets targetMap;;
      if (length targetMap =? 0)%nat then
        log globalLogger Error "No enabled accounts with targets found in config.ts. Exiting.";;
        mret Returned
      else
      log globalLogger Info
        ("Monitoring " +:+ pretty (length targetMap)
         +:+ " unique targets across all enabled accounts.");;
      log globalLogger Info
        ("Using account @" +:+ username monitorAccount +:+ " for all monitoring checks.");;
      let monitorLogger := username monitorAccount +:+ "-MONITOR" in
      monitorSession ← initializeBotSession monitorAccount monitorLogger
                         (Some (headless (settings cfg)));
      match monitorSession with
      | None =>
          log globalLogger Error
            ("Could not initialize monitor account @" +:+ username monitorAccount
             +:+ ". Exiting.");;
          mret Returned
      | Some (monitorBrowser, _) =>
          monitorWith monitorBrowser
            (stats ← loadProfileStatsFromCsv;
             modify (set_profileStats stats);;
             monitorLoop cycles targetMap)
      end
  end.
End Model.

Arguments State World : clear implicits.
Arguments M World A : clear implicits.

(* ===================================================================== *)
(** * Vocabulary of the statements *)
(* ===================================================================== *)

#[global] Instance Locator_eq_dec : EqDecision Locator.
Proof. solve_decision. Defined.

(** The events a run added to the trace. *)
Definition new_events {World} (s s' : State World) : list Event :=
  drop (length (trace s)) (trace s').

(** Operations [bot.ts] and [getProfileStats] await: everything on a page,
    the behaviour engine and the AI generator. *)
Definition bot_op {X} (op : Op X) : Prop :=
  match op with
  | ChromiumLaunch _ | NewContext _ _ | AddInitScript _ | BrowserClose _
  | GenerateFingerprint => False
  | _ => True
  end.

(** Events of a bot at work on its page. *)
Definition bot_event (e : Event) : Prop :=
  match e with
  | EvOp op _ => bot_op op
  | EvHost _ _ => True
  | EvFs (AppendInteractionLog _) => True
  | EvRefused (AppendFileSync _) _ => True
  | _ => False
  end.

(** Events of a page being read: operations and host calls, no file
    write. *)
Definition page_event (e : Event) : Prop :=
  match e with
  | EvOp op _ => bot_op op
  | EvHost _ _ => True
  | _ => False
  end.

(** Events of one [initializeBotSession account]. *)
Definition session_event (account : AccountConfig) (e : Event) : Prop :=
  match e with
  | EvOp _ _ | EvHost _ _ => True
  | EvFs (AppendInteractionLog _) => True
  | EvFs (WriteFingerprint u _) => u = username account
  | EvSession a => a = account
  | EvRefused (AppendFileSync _) _ => True
  | _ => False
  end.

(** The accounts for which [launchBotForTask] was entered, in order. *)
Definition launchedAccounts (evs : list Event) : list AccountConfig :=
  flat_map (fun e => match e with EvLaunch a _ => [a] | _ => [] end) evs.

(** Entries and returns of [launchBotForTask], in order. *)
Definition taskEvents (evs : list Event) : list Event :=
  List.filter
    (fun e => match e with EvLaunch _ _ | EvLaunched _ _ _ => true | _ => false end) evs.

(** What the launched tasks returned, in order. *)
Definition taskResults (evs : list Event) : list LaunchResult :=
  flat_map (fun e => match e with EvLaunched _ _ r => [r] | _ => [] end) evs.

(** The accounts for which [initializeBotSession] was entered. *)
Definition sessionAccounts (evs : list Event) : list AccountConfig :=
  flat_map (fun e => match e with EvSession a => [a] | _ => [] end) evs.

(** The file writes among the events. *)
Definition fsWrites (evs : list Event) : list FsWrite :=
  flat_map (fun e => match e with EvFs w => [w] | _ => [] end) evs.

(** The contents written to [profile_stats.csv]. *)
Definition statsWrites (evs : list Event) : list string :=
  flat_map (fun e => match e with EvFs (WriteProfileStats c) => [c] | _ => [] end) evs.

(** The entries appended to [interaction_log.csv]. *)
Definition logAppends (evs : list Event) : list string :=
  flat_map (fun e => match e with EvFs (AppendInteractionLog c) => [c] | _ => [] end) evs.

(** The entries whose append to [interaction_log.csv] was refused. *)
Definition refusedAppends (evs : list Event) : list string :=
  flat_map (fun e => match e with EvRefused (AppendFileSync c) _ => [c] | _ => [] end) evs.

(** The entries [logInteraction] handed to [fs.appendFileSync], in order:
    those that were appended and those that were refused. *)
Definition logAttempts (evs : list Event) : list string :=
  flat_map (fun e => match e with
                     | EvFs (AppendInteractionLog c) | EvRefused (AppendFileSync c) _ => [c]
                     | _ => []
                     end) evs.

(** The events by which a fetch reads the follower count [f]: from the
    [title] attribute when it parses, else from the text of the item. *)
Definition followersFrom (f : JS.number) (evs : list Event) : Prop :=
  (exists n t,
     evs = [ EvOp (Count spanWithTitle) (Ok n);
             EvOp (GetAttribute spanWithTitle "title") (Ok (Some t)) ]
     /\ f = JS.parseInt (JS.remove_all "," t) /\ JS.isNaN f = false)
  \/ (exists pre t,
        evs = pre ++ [ EvOp (TextContent followerLi) (Ok (Some t)) ]
        /\ parseFollowerCount (JS.first_field " " (JS.remove_all "," t)) = Some f).

(** The events of a fetch that yields [stats] for [u]: the page was found
    available and public, the text of the posts item parsed to the post
    count, and the follower count was read. *)
Definition fetchedFrom (u : string) (stats : ProfileStats) (evs : list Event) : Prop :=
  exists postText rest,
    evs = [ EvOp (Goto (profileUrl u)) (Ok tt);
            EvOp (WaitFor (Css "main") true 15000) (Ok tt);
            EvOp (Count unavailableNotice) (Ok 0%nat);
            EvOp (Count privateAccountNotice) (Ok 0%nat);
            EvOp (WaitFor statsList true 10000) (Ok tt);
            EvOp (TextContent postLi) (Ok (Some postText)) ] ++ rest
    /\ postText <> EmptyString
    /\ postCount stats = JS.parseInt (JS.first_field " " (JS.remove_all "," postText))
    /\ JS.isNaN (postCount stats) = false
    /\ followersFrom (followerCount stats) rest.

(** The event does not generate or write a fingerprint; a browser context
    it creates has the user agent, viewport, scale factor, locale, time
    zone, colour scheme and reduced-motion setting of [f], and no stored
    state but the cookie file of the account; an init script it installs
    is given the hardware concurrency, device memory and WebGL strings of
    [f]. *)
Definition uses_fingerprint (account : AccountConfig) (f : Fingerprint) (e : Event) : Prop :=
  match e with
  | EvOp op _ =>
      match op with
      | NewContext _ options =>
          ctxUserAgent options = userAgent f
          /\ ctxViewport options = viewport f
          /\ ctxDeviceScaleFactor options = deviceScaleFactor f
          /\ ctxLocale options = locale f
          /\ ctxTimezoneId options = timezoneId f
          /\ ctxColorScheme options = colorScheme f
          /\ ctxReducedMotion options = reducedMotion f
          /\ (storageState options = None
              \/ storageState options
                 = Some (path_join "data/cookies" (username account +:+ ".json")))
      | AddInitScript args =>
          argHardwareConcurrency args = hardwareConcurrency f
          /\ argDeviceMemory args = deviceMemory f
          /\ argWebgl args = webgl f
      | GenerateFingerprint => False
      | _ => True
      end
  | EvFs (WriteFingerprint _ _) => False
  | _ => True
  end.

(** A session is entered for an enabled account only. *)
Definition session_enabled (e : Event) : Prop :=
  match e with
  | EvSession a => enabled a = true
  | _ => True
  end.

(** What the loop of [loadProfileStatsFromCsv] stores for a line: nothing
    for a blank line or a line whose first three fields are not all there. *)
Definition statsLineOf (line : string) : option (string * ProfileStats) :=
  if JS.is_empty (JS.trim line) then None
  else
    match JS.split "," line with
    | username :: postCountStr :: followerCountStr :: _ =>
        if negb (JS.is_empty username) && negb (JS.is_empty postCountStr)
           && negb (JS.is_empty followerCountStr)
        then Some (username, {| postCount := JS.parseInt postCountStr;
                                followerCount := JS.parseInt followerCountStr |})
        else None
    | _ => None
    end.

Definition addStatsLine (stats : gmap string ProfileStats) (line : string)
  : gmap string ProfileStats :=
  match statsLineOf line with
  | Some (username, entry) => <[ username := entry ]> stats
  | None => stats
  end.

(** What [loadProfileStatsFromCsv] makes of the content it has read from
    the snapshot file. *)
Definition readBack (fileContent : string) : gmap string ProfileStats :=
  parseStatsLines (tail (JS.split (ascii_of_nat 10) fileContent)).

(** The string has no occurrence of the character. *)
Definition lacks (c : ascii) (s : string) : Prop := JS.includes s (String c EmptyString) = false.

(** Events that neither launch nor close a browser and mark no entry of
    [initializeBotSession] or [launchBotForTask]. *)
Definition plain (e : Event) : Prop :=
  match e with
  | EvOp op _ => match op with ChromiumLaunch _ | BrowserClose _ => False | _ => True end
  | EvHost _ _ | EvFs _ | EvRefused _ _ => True
  | _ => False
  end.

(** What happens to browsers: [chromium.launch] returned one, or [close]
    was awaited on one. *)
Inductive BrowserEvent := Opened (b : Browser) | Closed (b : Browser).

(** The browsers launched and the browsers closed, in the order of the
    events; a launch that rejected opened nothing. *)
Definition browserLog (evs : list Event) : list BrowserEvent :=
  flat_map
    (fun e => match e with
              | EvOp op r =>
                  match op in Op X return Res X -> list BrowserEvent with
                  | ChromiumLaunch _ =>
                      fun r => match r with Ok b => [Opened b] | Throw _ => [] end
                  | BrowserClose b => fun _ => [Closed b]
                  | _ => fun _ => []
                  end r
              | _ => []
              end) evs.

(** Browsers opened one at a time, each closed before the next is
    opened. *)
Definition openedAndClosed (bs : list Browser) : list BrowserEvent :=
  flat_map (fun b => [Opened b; Closed b]) bs.

(** The operations of [main.ts] that are awaited outside every [try]
    block or inside a [catch] or [finally] block. *)
Definition unguarded {X} (op : Op X) : Prop :=
  match op with
  | GenerateFingerprint | ChromiumLaunch _ | BrowserClose _ => True
  | _ => False
  end.

(** The answers of the AI generator to the calls made, in order. *)
Definition aiCalls (evs : list Event) : list (Res string) :=
  flat_map
    (fun e => match e with
              | EvOp op r =>
                  match op in Op X return Res X -> list (Res string) with
                  | GenerateInstagramComment _ _ _ _ _ => fun r => [r]
                  | _ => fun _ => []
                  end r
              | _ => []
              end) evs.

(** The locators a click was asked on, in order. *)
Definition clicked (evs : list Event) : list Locator :=
  flat_map
    (fun e => match e with
              | EvOp op _ => match op with HesitateAndClick l => [l] | _ => [] end
              | _ => []
              end) evs.

(** The texts typed, each with the locator it was typed into, in order. *)
Definition typed (evs : list Event) : list (Locator * string) :=
  flat_map
    (fun e => match e with
              | EvOp op _ => match op with NaturalTyping l text _ => [(l, text)] | _ => [] end
              | _ => []
              end) evs.

(** Events of reading a page: no click, no typing, no call of the AI
    generator and no file write. *)
Definition reading (e : Event) : Prop :=
  match e with
  | EvOp op _ =>
      match op with
      | HesitateAndClick _ | NaturalTyping _ _ _
      | GenerateInstagramComment _ _ _ _ _ => False
      | _ => bot_op op
      end
  | EvHost _ _ => True
  | _ => False
  end.

(** What a comment task has left behind when it ends with [r]: the entry
    handed to the interaction log, the calls of the AI generator, the
    clicks and the text typed. *)
Definition taskOutcome (this : Bot) (targetUsername : string)
    (r : Res InteractionResult) (evs : list Event) : Prop :=
  let latestPost := First nonPinnedPostLinks in
  match r with
  | Ok SUCCESS =>
      exists timestamp aiComment,
        logAttempts evs
        = [logEntryOf timestamp (username (bot_config this)) targetUsername
             "comment" aiComment]
        /\ aiCalls evs = [Ok aiComment]
        /\ clicked evs = [latestPost; postButton]
        /\ typed evs = [(commentTextarea, aiComment)]
  | Ok SKIPPED =>
      logAttempts evs = [] /\ (length (aiCalls evs) <= 1)%nat
      /\ clicked evs `prefix_of` [latestPost]
      /\ typed evs = []
  | Ok FAILED | Throw _ =>
      logAttempts evs = [] /\ (length (aiCalls evs) <= 1)%nat
      /\ clicked evs `prefix_of` [latestPost; postButton]
      /\ (length (typed evs) <= 1)%nat
  end.

(** The number of tasks that returned [SUCCESS]. *)
Definition successes (evs : list Event) : nat :=
  length (List.filter (fun r => match r with Finished SUCCESS => true | _ => false end)
            (taskResults evs)).

(** The page showed the account logged in: its profile link or the Home
    icon was counted on the page, or the wait for the profile link after
    a login ended well. *)
Definition shows_logged_in (account : string) (e : Event) : Prop :=
  let profileLink := "a[href=" +:+ q ("/" +:+ account +:+ "/") +:+ "]" in
  match e with
  | EvOp op r =>
      match op in Op X return Res X -> Prop with
      | Count l =>
          fun r => (l = Css profileLink \/ l = Css ("svg[aria-label=" +:+ q "Home" +:+ "]"))
                   /\ exists n, r = Ok n /\ (0 < n)%nat
      | WaitForSelector selector _ _ => fun r => selector = profileLink /\ r = Ok tt
      | _ => fun _ => False
      end r
  | _ => False
  end.

(** The clicks asked on the Post button. *)
Definition postClicks (evs : list Event) : list Locator :=
  List.filter (fun l => bool_decide (l = postButton)) (clicked evs).

(** Events that cost nothing: the AI generator is not called and the
    Post button is not clicked. *)
Definition costless (e : Event) : Prop := aiCalls [e] = [] /\ postClicks [e] = [].

(** A text that can stand as a field of a line of the snapshot file. *)
Definition csvField (x : string) : Prop :=
  JS.is_empty x = false /\ lacks "," x /\ lacks (ascii_of_nat 10) x.

(** The test the [response] listener makes on a response. *)
Definition isVideoResponse (r : Response) : bool :=
  match contentType r with
  | Some ct =>
      negb (JS.is_empty ct) && JS.includes ct "video/mp4" && JS.includes (url r) "fbcdn.net"
      && (JS.includes (url r) "instagram" || JS.includes (url r) "ig")
  | None => false
  end.

(** The [cleanedText] of [parseFollowerCount]. *)
Definition cleanedText (text : string) : string :=
  JS.remove_all "," (JS.trim (JS.toLowerCase text)).

(** The line the loop prints before it fetches the snapshot of [t]. *)
Definition checkingLine (t : string) : LogLine :=
  (globalLogger, Info, "Checking target: @" +:+ t).

(** A task that does not call for a retry. *)
Definition succeededOrSkipped (r : LaunchResult) : bool :=
  match r with
  | Finished SUCCESS | Finished SKIPPED => true
  | Finished FAILED | LAUNCH_ERROR => false
  end.

(** The enabled accounts that list [target]. *)
Definition subscribers (cfg : Config) (target : string) : list AccountConfig :=
  List.filter (fun a => enabled a && existsb (String.eqb target) (targets a)) (accounts cfg).

(** One entry per occurrence of [target] in the list of an enabled account. *)
Definition subscriptions (cfg : Config) (target : string) : list AccountConfig :=
  flat_map (fun a => map (fun _ => a) (List.filter (String.eqb target) (targets a)))
           (List.filter enabled (accounts cfg)).

(** ** Lines and states the statements name *)

(** The line [runCommentTask] prints once the comment is submitted. *)
Definition submissionLine (this : Bot) (t : string) (matches : nat) : LogLine :=
  if (0 <? matches)%nat
  then (bot_logger this, Success, "Successfully commented on @" +:+ t +:+ "'s post.")
  else (bot_logger this, Warn, "Could not verify if comment was posted successfully.").

(** The line [loadProfileStatsFromCsv] prints when the read is refused. *)
Definition startingFresh (message : string) : LogLine :=
  (globalLogger, Error,
   "Could not read or parse data/logs/profile_stats.csv. Starting fresh. Error: "
   +:+ message).

(** The line the loop prints when it skips [t]. *)
Definition skipLine (t : string) : LogLine :=
  (globalLogger, Warn, "Could not get profile stats for @" +:+ t +:+ ". Skipping.").

(** Entries and returns of the launches of [tasks], each task returning
    before the next one is entered. *)
Definition launchSequence (t : string) (tasks : list AccountConfig)
    (results : list LaunchResult) : list Event :=
  flat_map (fun ar => [EvLaunch (fst ar) t; EvLaunched (fst ar) t (snd ar)])
           (zip tasks results).

(** [targetMap.get(t) || []] *)
Definition tasksFor (m : TargetMap) (target : string) : list AccountConfig :=
  default [] (tm_get m target).

Section Outcomes.
Context {World : Type} {env : Env World}.

(** The line [logInteraction] prints when the append is refused. *)
Definition refusalLine (this : Bot) (message : string) : LogLine :=
  (bot_logger this, Error, "Failed to write to global CSV log: " +:+ message).

(** The state [logInteraction] leaves when the clock says [ts] and the
    world goes on as [w]: the entry is appended, or the refusal is recorded
    and answered with an error line. *)
Definition logged (this : Bot) (t c ts : string) (w : World) (s : State World) : State World :=
  let entry := logEntryOf ts (username (bot_config this)) t "comment" c in
  let s1 := add_event (EvHost Now ts) (set_world w s) in
  let s2 := set_commentCount (S (commentCount s1)) s1 in
  match refuse (AppendFileSync entry) w with
  | (None, w') =>
      let s3 := set_world w' s2 in
      set_interactionLogFile
        (Some (default EmptyString (interactionLogFile s3) +:+ entry))
        (add_event (EvFs (AppendInteractionLog entry)) s3)
  | (Some message, w') =>
      add_line (refusalLine this message)
        (add_event (EvRefused (AppendFileSync entry) message) (set_world w' s2))
  end.



End Outcomes.

(** ** Relations between the state before and after a computation *)

Section Relations.
Context {World : Type} {env : Env World}.

(** The trace grew by events that all satisfy [P]. *)
Definition emits (P : Event -> Prop) (s s' : State World) : Prop :=
  exists evs, trace s' = trace s ++ evs /\ Forall P evs.

(** The snapshot map and the snapshot file are what they were. *)
Definition keeps_stats (s s' : State World) : Prop :=
  profileStats s' = profileStats s /\ profileStatsFile s' = profileStatsFile s.

(** The fingerprint files are what they were. *)
Definition keeps_fingerprints (s s' : State World) : Prop :=
  fingerprintFiles s' = fingerprintFiles s.

(** The snapshot file is still there if it was. *)
Definition file_kept (s s' : State World) : Prop :=
  is_Some (profileStatsFile s) -> is_Some (profileStatsFile s').

(** [R] relates every state to the one a computation leaves. *)
Definition steps {A} (R : State World -> State World -> Prop) (m : M World A) : Prop :=
  forall s, R s (snd (m s)).

(** [R] is a preorder that the updates of [bot.ts] respect, as long as
    the recorded events satisfy [P]. *)
Record Frame (R : State World -> State World -> Prop) (P : Event -> Prop) : Prop := {
  fr_refl : forall s, R s s;
  fr_trans : forall s1 s2 s3, R s1 s2 -> R s2 s3 -> R s1 s3;
  fr_world : forall s w, R s (set_world w s);
  fr_event : forall s e, P e -> R s (add_event e s);
  fr_line : forall s l, R s (add_line l s);
  fr_captured : forall s u, R s (set_capturedVideoUrl u s);
  fr_capturing : forall s b, R s (set_isCapturingVideo b s);
  fr_count : forall s n, R s (set_commentCount n s);
  fr_cookies : forall s c, R s (set_cookieFiles c s);
  fr_log : forall s f, R s (set_interactionLogFile f s)
}.
(** What a bot at work leaves alone: it only adds bot events, and keeps
    the snapshots and the fingerprints. *)
Definition bot_rel (s s' : State World) : Prop :=
  (emits bot_event s s' /\ keeps_stats s s') /\ keeps_fingerprints s s'.

(** What a session of [account] leaves alone. *)
Definition session_rel (account : AccountConfig) (s s' : State World) : Prop :=
  emits (session_event account) s s' /\ keeps_stats s s'.

(** What reading a page leaves alone. *)
Definition page_rel (s s' : State World) : Prop := emits page_event s s' /\ keeps_stats s s'.

(** What a session that runs on the fingerprint [f] leaves alone. *)
Definition fingerprint_rel (a : AccountConfig) (f : Fingerprint) (s s' : State World) : Prop :=
  emits (uses_fingerprint a f) s s' /\ keeps_fingerprints s s'.

(** After the events [pre] of a comment task, [m] ends the task: whatever
    its result, the events of the whole task are those of
    [taskOutcome]. *)
Definition ends_task (this : Bot) (targetUsername : string) (pre : list Event)
    (m : M World InteractionResult) : Prop :=
  forall s, exists evs,
    trace (snd (m s)) = trace s ++ evs
    /\ taskOutcome this targetUsername (fst (m s)) (pre ++ evs).

(** After the run the cookie file of the bot's account is on disk, or a
    [storageState] that was to write it rejected during the run. *)
Definition cookies_saved (this : Bot) (s s' : State World) : Prop :=
  username (bot_config this) ∈ cookieFiles s'
  \/ exists e, In (EvOp (StorageState (cookiePath this)) (Throw e)) (new_events s s').

(** Since [s] the interaction log was handed one entry per task that
    returned [SUCCESS]. *)
Definition logged_per_success (s s' : State World) : Prop :=
  exists evs, trace s' = trace s ++ evs /\ length (logAttempts evs) = successes evs.

(** The same, but for one entry more: that of a task which did not
    return. *)
Definition logged_nearly (s s' : State World) : Prop :=
  exists evs, trace s' = trace s ++ evs
              /\ (successes evs <= length (logAttempts evs) <= S (successes evs))%nat.

(** [Rok] relates every state to the one [m] leaves when it returns, and
    [Rthrow] to the one it leaves when it throws. *)
Definition leaves {A} (Rok Rthrow : State World -> State World -> Prop) (m : M World A)
  : Prop :=
  forall s, match fst (m s) with
            | Ok _ => Rok s (snd (m s))
            | Throw _ => Rthrow s (snd (m s))
            end.

(** Between [s] and [s'] the page showed the account logged in. *)
Definition seen_logged_in (account : string) (s s' : State World) : Prop :=
  exists e, In e (new_events s s') /\ shows_logged_in account e.

(** Since [s] the AI generator was called, and the Post button clicked,
    at most once per entry of [launchBotForTask]. *)
Definition within_launches (s s' : State World) : Prop :=
  exists evs, trace s' = trace s ++ evs
    /\ (length (aiCalls evs) <= length (launchedAccounts evs))%nat
    /\ (length (postClicks evs) <= length (launchedAccounts evs))%nat.

(** The browsers launched since [s] were opened one at a time and are all
    closed. *)
Definition one_at_a_time (s s' : State World) : Prop :=
  exists evs, trace s' = trace s ++ evs
              /\ exists bs, browserLog evs = openedAndClosed bs.
End Relations.

(* ===================================================================== *)
(** * Scripted environments *)
(* ===================================================================== *)

(** A page described by what it answers; [fails] tells which operations
    reject. *)
Record Script := {
  fails : forall X, Op X -> bool;
  counts : Locator -> nat;
  visible : Locator -> bool;
  usable : Locator -> bool;
  texts : Locator -> option string;
  attributes : Locator -> string -> option string;
  comment : string;
  generated : Fingerprint
}.

Definition scripted_perform (p : Script) (X : Type) (op : Op X) (w : unit)
  : Res X * list Response * unit :=
  if fails p X op then (Throw "rejected", [], w)
  else
    (match op in Op X return Res X with
     | ChromiumLaunch _ => Ok 0%nat
     | NewContext _ _ => Ok tt
     | AddInitScript _ => Ok tt
     | NewPage => Ok tt
     | StorageState _ => Ok tt
     | BrowserClose _ => Ok tt
     | Goto _ => Ok tt
     | Screenshot _ => Ok tt
     | WaitForSelector _ _ _ => Ok tt
     | WaitFor _ _ _ => Ok tt
     | Count l => Ok (counts p l)
     | IsVisible l _ => Ok (visible p l)
     | IsEnabled l => Ok (usable p l)
     | TextContent l => Ok (texts p l)
     | GetAttribute l a => Ok (attributes p l a)
     | RandomizedWait _ => Ok tt
     | RandomDelay _ _ => Ok tt
     | MoveMouseRandomly => Ok tt
     | JitteryMovement _ => Ok tt
     | HesitateAndClick _ => Ok tt
     | NaturalTyping _ _ _ => Ok tt
     | GenerateInstagramComment _ _ _ _ _ => Ok (comment p)
     | GenerateFingerprint => Ok (generated p)
     end, [], w).

Definition scripted_host (X : Type) (h : Host X) (w : unit) : X * unit :=
  (match h in Host X return X with
   | Delay _ => tt
   | MathRandom => S754_zero false
   | Now => "2025-01-01T00:00:00.000Z"
   | WaitForEnter => tt
   end, w).

(** Prints the integers exactly; enough for the counts of the examples. *)
Definition showNumber (x : JS.number) : string :=
  if JS.is_integer x then pretty (JS.to_Z x) else "NaN".

(** The file system takes every call. *)
Definition scripted (p : Script) : Env unit :=
  {| perform := scripted_perform p; host := scripted_host;
     refuse := fun _ w => (None, w); Number_toString := showNumber |}.


Definition desktop : Fingerprint :=
  {| userAgent := "Mozilla/5.0 (Windows NT 10.0; Win64; x64)";
     viewport := (1920, 1080);
     deviceScaleFactor := JS.of_Z 1;
     locale := "en-US";
     timezoneId := "America/New_York";
     colorScheme := "light";
     reducedMotion := "no-preference";
     hardwareConcurrency := 8;
     deviceMemory := 8;
     webgl := ("Google Inc. (NVIDIA)", "ANGLE (NVIDIA GeForce GTX 1060)") |}.

Definition laptop : Fingerprint :=
  {| userAgent := "Mozilla/5.0 (Macintosh; Intel Mac OS X 10_15_7)";
     viewport := (1440, 900);
     deviceScaleFactor := JS.of_Z 2;
     locale := "en-GB";
     timezoneId := "Europe/London";
     colorScheme := "dark";
     reducedMotion := "no-preference";
     hardwareConcurrency := 4;
     deviceMemory := 4;
     webgl := ("Apple", "Apple M1") |}.

(** Every operation succeeds; nothing is on the page. *)
Definition blank : Script :=
  {| fails := fun _ _ => false;
     counts := fun _ => 0%nat;
     visible := fun _ => false;
     usable := fun _ => false;
     texts := fun _ => None;
     attributes := fun _ _ => None;
     comment := "Love this!";
     generated := desktop |}.

(** The profile shows the private-account notice. *)
Definition privateProfile : Script :=
  {| fails := fun _ _ => false;
     counts := fun l => if decide (l = privateNotice) then 1%nat else 0%nat;
     visible := fun _ => false;
     usable := fun _ => false;
     texts := fun _ => None;
     attributes := fun _ _ => None;
     comment := "Love this!";
     generated := desktop |}.

(** The browser is gone: navigation and screenshots reject. *)
Definition offline : Script :=
  {| fails := fun _ op => match op with Goto _ | Screenshot _ => true | _ => false end;
     counts := fun _ => 0%nat;
     visible := fun _ => false;
     usable := fun _ => false;
     texts := fun _ => None;
     attributes := fun _ _ => None;
     comment := "Love this!";
     generated := desktop |}.

(** The profile page shows the private-account heading that
    [getProfileStats] looks for. *)
Definition privateStats : Script :=
  {| fails := fun _ _ => false;
     counts := fun l => if decide (l = privateAccountNotice) then 1%nat else 0%nat;
     visible := fun _ => false;
     usable := fun _ => false;
     texts := fun _ => None;
     attributes := fun _ _ => None;
     comment := "Love this!";
     generated := desktop |}.

(** The site cannot be reached: navigation rejects, screenshots are
    taken. *)
Definition unreachable : Script :=
  {| fails := fun _ op => match op with Goto _ => true | _ => false end;
     counts := fun _ => 0%nat;
     visible := fun _ => false;
     usable := fun _ => false;
     texts := fun _ => None;
     attributes := fun _ _ => None;
     comment := "Love this!";
     generated := desktop |}.


(** A public profile with 6 posts and 100 followers, read by a session
    that has to log in; the profile shows no post link. *)
Definition sixPosts : Script :=
  {| fails := fun _ _ => false;
     counts := fun _ => 0%nat;
     visible := fun _ => false;
     usable := fun _ => false;
     texts := fun l => if decide (l = postLi) then Some "6 posts"
                       else if decide (l = followerLi) then Some "100 followers"
                       else None;
     attributes := fun _ _ => None;
     comment := "Love this!";
     generated := desktop |}.


Definition stats (posts followers : Z) : ProfileStats :=
  {| postCount := JS.of_Z posts; followerCount := JS.of_Z followers |}.

(** The empty store: no file written yet, nothing in memory. *)
Definition initial : State unit :=
  mkState tt [] [] None false 0%nat ∅ ∅ None None ∅.

(** The monitor knows [nasa] with 5 posts and 100 followers. *)
Definition watching (posts followers : Z) : State unit :=
  mkState tt [] [] None false 0%nat ∅ ∅
    (Some ("username,post_count,follower_count" +:+ String (ascii_of_nat 10)
             ("nasa," +:+ pretty posts +:+ "," +:+ pretty followers
              +:+ String (ascii_of_nat 10) EmptyString)))
    None
    {[ "nasa" := stats posts followers ]}.

(** The snapshot file holds [nasa] and [google]. *)
Definition twoSnapshots : State unit :=
  mkState tt [] [] None false 0%nat ∅ ∅
    (Some ("username,post_count,follower_count" +:+ String (ascii_of_nat 10)
             ("nasa,5,100" +:+ String (ascii_of_nat 10)
                ("google,3,50" +:+ String (ascii_of_nat 10) EmptyString))))
    None ∅.

(** The monitor has its file, and no snapshot yet. *)
Definition started : State unit :=
  mkState tt [] [] None false 0%nat ∅ ∅
    (Some ("username,post_count,follower_count" +:+ String (ascii_of_nat 10) EmptyString))
    None ∅.

(** The fingerprint of [alice] is on disk. *)
Definition returning : State unit :=
  mkState tt [] [] None false 0%nat {[ "alice" := laptop ]} ∅ None None ∅.

Definition alice : AccountConfig :=
  {| enabled := true; username := "alice"; password := "secret";
     aiPromptHint := None; actionDelaySeconds := None; targets := ["nasa"] |}.

(** An account that lists the same target twice. *)
Definition bob : AccountConfig :=
  {| enabled := true; username := "bob"; password := "secret";
     aiPromptHint := None; actionDelaySeconds := None; targets := ["nasa"; "nasa"] |}.

(** A disabled account with the target of [alice]. *)
Definition carol : AccountConfig :=
  {| enabled := false; username := "carol"; password := "secret";
     aiPromptHint := None; actionDelaySeconds := None; targets := ["nasa"] |}.

Definition carolAndAlice : Config :=
  {| settings := settings config; accounts := [carol; alice] |}.

Definition onlyAlice : Config := {| settings := settings config; accounts := [alice] |}.

Definition onlyBob : Config := {| settings := settings config; accounts := [bob] |}.

(** An enabled account with nothing to watch. *)
Definition idle : AccountConfig :=
  {| enabled := true; username := "idle"; password := "secret";
     aiPromptHint := None; actionDelaySeconds := None; targets := [] |}.

Definition carolAndIdle : Config :=
  {| settings := settings config; accounts := [carol; idle] |}.

Definition aliceBot : Bot :=
  {| bot_config := alice;
     bot_behavior := behavior (settings config);
     bot_developerMode := false;
     bot_actionDelays := (90000, 180000);
     bot_logger := "alice" |}.

(* ===================================================================== *)
(** * Reasoning about computations *)
(* ===================================================================== *)

Create HintDb steps.

Section Calculus.
Context {World : Type} {env : Env World}.
Implicit Types s : State World.

(** ** The listener only ever touches [capturedVideoUrl] *)

Lemma onResponse_cases resp s :
  onResponse resp s = s \/ onResponse resp s = set_capturedVideoUrl (Some (url resp)) s.
Proof.
  unfold onResponse.
  destruct (negb (isCapturingVideo s)); [now left|].
  destruct (JS.truthy (capturedVideoUrl s)); [now left|].
  destruct (contentType resp); [|now left].
  match goal with |- context [if ?c then _ else _] => destruct c end; auto.
Qed.

Lemma deliver_inv (Q : State World -> Prop) rs s :
  (forall s u, Q s -> Q (set_capturedVideoUrl u s)) -> Q s -> Q (deliver rs s).
Proof.
  intros HQ. revert s. induction rs as [|resp rs IH]; intros s Hs; [exact Hs|].
  apply IH. destruct (onResponse_cases resp s) as [-> | ->]; auto.
Qed.

Lemma world_deliver rs s : world (deliver rs s) = world s.
Proof. apply (deliver_inv (fun s' => world s' = world s)); auto. Qed.

Lemma trace_deliver rs s : trace (deliver rs s) = trace s.
Proof. apply (deliver_inv (fun s' => trace s' = trace s)); auto. Qed.

Lemma console_deliver rs s : console (deliver rs s) = console s.
Proof. apply (deliver_inv (fun s' => console s' = console s)); auto. Qed.

Lemma isCapturingVideo_deliver rs s :
  isCapturingVideo (deliver rs s) = isCapturingVideo s.
Proof. apply (deliver_inv (fun s' => isCapturingVideo s' = isCapturingVideo s)); auto. Qed.

Lemma commentCount_deliver rs s : commentCount (deliver rs s) = commentCount s.
Proof. apply (deliver_inv (fun s' => commentCount s' = commentCount s)); auto. Qed.

Lemma fingerprintFiles_deliver rs s :
  fingerprintFiles (deliver rs s) = fingerprintFiles s.
Proof. apply (deliver_inv (fun s' => fingerprintFiles s' = fingerprintFiles s)); auto. Qed.

Lemma cookieFiles_deliver rs s : cookieFiles (deliver rs s) = cookieFiles s.
Proof. apply (deliver_inv (fun s' => cookieFiles s' = cookieFiles s)); auto. Qed.

Lemma profileStatsFile_deliver rs s :
  profileStatsFile (deliver rs s) = profileStatsFile s.
Proof. apply (deliver_inv (fun s' => profileStatsFile s' = profileStatsFile s)); auto. Qed.

Lemma interactionLogFile_deliver rs s :
  interactionLogFile (deliver rs s) = interactionLogFile s.
Proof.
  apply (deliver_inv (fun s' => interactionLogFile s' = interactionLogFile s)); auto.
Qed.

Lemma profileStats_deliver rs s : profileStats (deliver rs s) = profileStats s.
Proof. apply (deliver_inv (fun s' => profileStats s' = profileStats s)); auto. Qed.

(** ** Running the primitives *)

Lemma run_bind {A B} (m : M World A) (f : A -> M World B) s :
  (m ≫= f) s =
  match m s with
  | (Ok a, s') => f a s'
  | (Throw e, s') => (Throw e, s')
  end.
Proof. reflexivity. Qed.

Lemma run_call {X} (op : Op X) s r rs w :
  perform op (world s) = (r, rs, w) ->
  call op s = (r, deliver rs (add_event (EvOp op r) (set_world w s))).
Proof. intros H. unfold call. now rewrite H. Qed.

Lemma run_await {X} (h : Host X) s x w :
  host h (world s) = (x, w) ->
  await h s = (Ok x, add_event (EvHost h x) (set_world w s)).
Proof. intros H. unfold await. now rewrite H. Qed.

(** ** Frames *)

Lemma emits_refl P s : emits P s s.
Proof. exists []. split; [now rewrite app_nil_r | constructor]. Qed.

Lemma emits_trans P s1 s2 s3 : emits P s1 s2 -> emits P s2 s3 -> emits P s1 s3.
Proof.
  intros (e1 & H1 & F1) (e2 & H2 & F2). exists (e1 ++ e2). split.
  - now rewrite H2, H1, app_assoc.
  - apply Forall_app; auto.
Qed.

Lemma steps_weaken {A} (R1 R2 : State World -> State World -> Prop) (m : M World A) :
  (forall s s', R1 s s' -> R2 s s') -> steps R1 m -> steps R2 m.
Proof. intros H Hm s. apply H, Hm. Qed.

Lemma emits_weaken (P Q : Event -> Prop) s s' :
  (forall e, P e -> Q e) -> emits P s s' -> emits Q s s'.
Proof.
  intros HPQ (evs & H & F). exists evs. split; [exact H|].
  eapply Forall_impl; eauto.
Qed.

Lemma emits_new_events P s s' :
  emits P s s' -> trace s' = trace s ++ new_events s s' /\ Forall P (new_events s s').
Proof.
  intros (evs & H & F). unfold new_events. rewrite H, drop_app_length. auto.
Qed.

Lemma emits_same_trace P s s' : trace s' = trace s -> emits P s s'.
Proof. intros H. exists []. split; [now rewrite app_nil_r | constructor]. Qed.

Lemma emits_Frame P : Frame (World := World) (emits P) P.
Proof.
  split; intros; try (now apply emits_same_trace).
  - eapply emits_trans; eauto.
  - exists [e]. split; [reflexivity | now constructor].
Qed.

Lemma keeps_stats_Frame : Frame (World := World) keeps_stats (fun _ => True).
Proof.
  split; intros; unfold keeps_stats in *; simpl; try tauto.
  destruct H as (H1 & H2), H0 as (H4 & H5). split; congruence.
Qed.

Lemma keeps_fingerprints_Frame : Frame (World := World) keeps_fingerprints (fun _ => True).
Proof.
  split; intros; unfold keeps_fingerprints in *; simpl; try tauto. congruence.
Qed.

Lemma Frame_and R1 R2 P1 P2 :
  Frame R1 P1 -> Frame R2 P2 ->
  Frame (fun s s' => R1 s s' /\ R2 s s') (fun e => P1 e /\ P2 e).
Proof.
  intros F1 F2. split; intros.
  - split; [apply (fr_refl _ _ F1) | apply (fr_refl _ _ F2)].
  - destruct H, H0. split; [eapply (fr_trans _ _ F1) | eapply (fr_trans _ _ F2)]; eauto.
  - split; [apply (fr_world _ _ F1) | apply (fr_world _ _ F2)].
  - destruct H. split; [apply (fr_event _ _ F1) | apply (fr_event _ _ F2)]; auto.
  - split; [apply (fr_line _ _ F1) | apply (fr_line _ _ F2)].
  - split; [apply (fr_captured _ _ F1) | apply (fr_captured _ _ F2)].
  - split; [apply (fr_capturing _ _ F1) | apply (fr_capturing _ _ F2)].
  - split; [apply (fr_count _ _ F1) | apply (fr_count _ _ F2)].
  - split; [apply (fr_cookies _ _ F1) | apply (fr_cookies _ _ F2)].
  - split; [apply (fr_log _ _ F1) | apply (fr_log _ _ F2)].
Qed.

Section Rules.
Variable R : State World -> State World -> Prop.
Variable P : Event -> Prop.
Hypothesis HF : Frame R P.

Lemma steps_ret {A} (a : A) : steps R (mret a).
Proof. intros s. apply (fr_refl _ _ HF). Qed.

Lemma steps_throw {A} e : steps R (throw (A := A) e).
Proof. intros s. apply (fr_refl _ _ HF). Qed.

Lemma steps_bind {A B} (m : M World A) (f : A -> M World B) :
  steps R m -> (forall a, steps R (f a)) -> steps R (m ≫= f).
Proof.
  intros Hm Hf s. rewrite run_bind. specialize (Hm s).
  destruct (m s) as [[a|e] s1]; simpl in *; [|exact Hm].
  eapply (fr_trans _ _ HF); [exact Hm | apply Hf].
Qed.

Lemma steps_try_catch {A} (m : M World A) h :
  steps R m -> (forall e, steps R (h e)) -> steps R (try_catch m h).
Proof.
  intros Hm Hh s. unfold try_catch. specialize (Hm s).
  destruct (m s) as [[a|e] s1]; simpl in *; [exact Hm|].
  eapply (fr_trans _ _ HF); [exact Hm | apply Hh].
Qed.

Lemma steps_try_finally {A} (m : M World A) f :
  steps R m -> steps R f -> steps R (try_finally m f).
Proof.
  intros Hm Hf s. unfold try_finally. specialize (Hm s).
  destruct (m s) as [r s1]; simpl in *. specialize (Hf s1).
  destruct (f s1) as [[[]|e] s2]; simpl in *;
    eapply (fr_trans _ _ HF); eauto.
Qed.

Lemma steps_attempt m : steps R m -> steps R (attempt m).
Proof. intros Hm. apply steps_try_catch; [exact Hm | intros; apply steps_ret]. Qed.

Lemma steps_when b m : steps R m -> steps R (when b m).
Proof. intros Hm. destruct b; [exact Hm | apply steps_ret]. Qed.

Lemma steps_gets {A} (f : State World -> A) : steps R (gets f).
Proof. intros s. apply (fr_refl _ _ HF). Qed.

Lemma steps_modify f : (forall s, R s (f s)) -> steps R (modify f).
Proof. intros H s. apply H. Qed.

Lemma steps_log logger l message : steps R (log logger l message).
Proof. intros s. apply (fr_line _ _ HF). Qed.

Lemma steps_emit e : P e -> steps R (emit e).
Proof. intros H s. now apply (fr_event _ _ HF). Qed.

Lemma R_deliver rs s : R s (deliver rs s).
Proof.
  revert s. induction rs as [|resp rs IH]; intros s; [apply (fr_refl _ _ HF)|].
  simpl. eapply (fr_trans _ _ HF); [|apply IH].
  destruct (onResponse_cases resp s) as [-> | ->];
    [apply (fr_refl _ _ HF) | apply (fr_captured _ _ HF)].
Qed.

Lemma steps_call {X} (op : Op X) : (forall r, P (EvOp op r)) -> steps R (call op).
Proof.
  intros H s. unfold call. destruct (perform op (world s)) as [[r rs] w]. simpl.
  eapply (fr_trans _ _ HF); [apply (fr_world _ _ HF)|].
  eapply (fr_trans _ _ HF); [apply (fr_event _ _ HF), H | apply R_deliver].
Qed.

Lemma steps_await {X} (h : Host X) : (forall x, P (EvHost h x)) -> steps R (await h).
Proof.
  intros H s. unfold await. destruct (host h (world s)) as [x w]. simpl.
  eapply (fr_trans _ _ HF); [apply (fr_world _ _ HF)|].
  apply (fr_event _ _ HF), H.
Qed.

Lemma steps_fs (c : FsCall) : (forall e, P (EvRefused c e)) -> steps R (fs c).
Proof.
  intros H s. unfold fs. destruct (refuse c (world s)) as [[e|] w]; simpl.
  - eapply (fr_trans _ _ HF); [apply (fr_world _ _ HF)|].
    apply (fr_event _ _ HF), H.
  - apply (fr_world _ _ HF).
Qed.
End Rules.
End Calculus.

(** One step of a syntax-directed proof that a computation respects the
    frame [HF]; [HPop] and [HPhost] say that the events of the operations
    and of the host are among those the frame allows. *)
Ltac frame_step HF HPop HPhost :=
  first
    [ apply (steps_ret _ _ HF)
    | apply (steps_throw _ _ HF)
    | apply (steps_log _ _ HF)
    | apply (steps_gets _ _ HF)
    | apply (steps_call _ _ HF); intros; first [ apply HPop; exact I | exact I | idtac ]
    | apply (steps_await _ _ HF); intros; first [ apply HPhost | exact I | idtac ]
    | apply (steps_fs _ _ HF); intros;
      first [ exact I | solve [ repeat split ] | solve [ auto ] | idtac ]
    | apply steps_modify; intros;
      first [ apply (fr_captured _ _ HF) | apply (fr_capturing _ _ HF)
            | apply (fr_count _ _ HF) | apply (fr_cookies _ _ HF)
            | apply (fr_log _ _ HF) ]
    | solve [ eauto 4 with steps ]
    | apply (steps_bind _ _ HF); [ | intros ]
    | apply (steps_try_catch _ _ HF); [ | intros ]
    | apply (steps_try_finally _ _ HF)
    | apply (steps_attempt _ _ HF)
    | apply (steps_when _ _ HF)
    | match goal with
      | |- steps _ (if ?b then _ else _) => destruct b
      | |- steps _ (match ?x with _ => _ end) => destruct x
      end ].

Ltac frame HF HPop HPhost := cbv zeta; repeat frame_step HF HPop HPhost.

Section BotFrames.
Context {World : Type} {env : Env World}.
Variable R : State World -> State World -> Prop.
Variable P : Event -> Prop.
Hypothesis HF : Frame R P.
Hypothesis HPop : forall X (op : Op X) r, bot_op op -> P (EvOp op r).
Hypothesis HPhost : forall X (h : Host X) x, P (EvHost h x).
Hypothesis HPlog : forall entry, P (EvFs (AppendInteractionLog entry)).
Hypothesis HPrefused : forall entry e, P (EvRefused (AppendFileSync entry) e).

Lemma steps_new_InstagramBot a g l : steps R (new_InstagramBot a g l).
Proof. unfold new_InstagramBot. frame HF HPop HPhost. Qed.

Lemma steps_appendInteractionLog entry : steps R (appendInteractionLog entry).
Proof.
  unfold appendInteractionLog.
  apply (steps_bind _ _ HF); [apply (steps_fs _ _ HF), HPrefused|intros _].
  intros s. unfold modify. simpl.
  eapply (fr_trans _ _ HF);
    [apply (fr_event _ _ HF) with (e := EvFs (AppendInteractionLog entry)), HPlog|].
  apply (fr_log _ _ HF).
Qed.
Hint Resolve steps_appendInteractionLog : steps.

Lemma steps_logInteraction this t a c : steps R (logInteraction this t a c).
Proof. unfold logInteraction. frame HF HPop HPhost. Qed.
Hint Resolve steps_logInteraction : steps.

Lemma steps_ensureCookiesAreSaved this : steps R (ensureCookiesAreSaved this).
Proof. unfold ensureCookiesAreSaved. frame HF HPop HPhost. Qed.
Hint Resolve steps_ensureCookiesAreSaved : steps.

Lemma steps_checkIfLoggedIn this : steps R (checkIfLoggedIn this).
Proof. unfold checkIfLoggedIn. frame HF HPop HPhost. Qed.
Hint Resolve steps_checkIfLoggedIn : steps.

Lemma steps_dismissCommonPopups this : steps R (dismissCommonPopups this).
Proof. unfold dismissCommonPopups. frame HF HPop HPhost. Qed.
Hint Resolve steps_dismissCommonPopups : steps.

Lemma steps_typeCredentialsAndSubmit this : steps R (typeCredentialsAndSubmit this).
Proof. unfold typeCredentialsAndSubmit. frame HF HPop HPhost. Qed.
Hint Resolve steps_typeCredentialsAndSubmit : steps.

Lemma steps_login this : steps R (login this).
Proof. unfold login. frame HF HPop HPhost. Qed.
Hint Resolve steps_login : steps.

Lemma steps_init this : steps R (init this).
Proof. unfold init. frame HF HPop HPhost. Qed.

Lemma steps_extractCaption this : steps R (extractCaption this).
Proof. unfold extractCaption. frame HF HPop HPhost. Qed.
Hint Resolve steps_extractCaption : steps.

Lemma steps_findPostImage this ls : steps R (findPostImage this ls).
Proof.
  induction ls as [|l ls IH]; simpl; [apply (steps_ret _ _ HF)|].
  frame HF HPop HPhost; exact IH.
Qed.
Hint Resolve steps_findPostImage : steps.

Lemma steps_extractMedia this : steps R (extractMedia this).
Proof. unfold extractMedia. frame HF HPop HPhost. Qed.
Hint Resolve steps_extractMedia : steps.

Lemma steps_recordSubmission this t c n : steps R (recordSubmission this t c n).
Proof. unfold recordSubmission. frame HF HPop HPhost. Qed.
Hint Resolve steps_recordSubmission : steps.

Lemma steps_submitComment this t c : steps R (submitComment this t c).
Proof. unfold submitComment. frame HF HPop HPhost. Qed.
Hint Resolve steps_submitComment : steps.

Lemma steps_commentTask this t h : steps R (commentTask this t h).
Proof. unfold commentTask. frame HF HPop HPhost. Qed.

Lemma steps_commentTaskFailed this t e : steps R (commentTaskFailed this t e).
Proof. unfold commentTaskFailed. frame HF HPop HPhost. Qed.

Lemma steps_runCommentTask this t h : steps R (runCommentTask this t h).
Proof.
  unfold runCommentTask.
  pose proof (steps_commentTask this t h).
  pose proof (steps_commentTaskFailed this t).
  frame HF HPop HPhost.
Qed.

Lemma steps_followerCountFromTitle : steps R followerCountFromTitle.
Proof. unfold followerCountFromTitle. frame HF HPop HPhost. Qed.
Hint Resolve steps_followerCountFromTitle : steps.

Lemma steps_followerCountFromText : steps R followerCountFromText.
Proof. unfold followerCountFromText. frame HF HPop HPhost. Qed.
Hint Resolve steps_followerCountFromText : steps.

Lemma steps_fetchProfileStats u l : steps R (fetchProfileStats u l).
Proof. unfold fetchProfileStats. frame HF HPop HPhost. Qed.

Lemma steps_fetchFailed u l e : steps R (fetchFailed u l e).
Proof. unfold fetchFailed. frame HF HPop HPhost. Qed.

Lemma steps_getProfileStats u l : steps R (getProfileStats u l).
Proof.
  unfold getProfileStats.
  pose proof (steps_fetchProfileStats u l).
  pose proof (steps_fetchFailed u l).
  frame HF HPop HPhost.
Qed.
End BotFrames.

#[global] Hint Resolve steps_new_InstagramBot steps_logInteraction
  steps_ensureCookiesAreSaved steps_checkIfLoggedIn steps_dismissCommonPopups
  steps_login steps_init steps_extractCaption steps_extractMedia
  steps_recordSubmission steps_submitComment steps_commentTask
  steps_commentTaskFailed steps_runCommentTask steps_fetchProfileStats
  steps_fetchFailed steps_getProfileStats : steps.

(* ===================================================================== *)
(** * [runCommentTask] *)
(* ===================================================================== *)

Section Running.
Context {World : Type} {env : Env World}.
Implicit Types s : State World.

Lemma new_events_app s s' evs : trace s' = trace s ++ evs -> new_events s s' = evs.
Proof. intros H. unfold new_events. now rewrite H, drop_app_length. Qed.

Lemma run_modify_bind {B} f (k : unit -> M World B) s :
  (modify f ≫= k) s = k tt (f s).
Proof. reflexivity. Qed.

Lemma run_log_bind {B} logger l message (k : unit -> M World B) s :
  (log logger l message ≫= k) s = k tt (add_line (logger, l, message) s).
Proof. reflexivity. Qed.

Lemma run_call_bind {X B} (op : Op X) (k : X -> M World B) s w0 a rs w :
  world s = w0 ->
  perform op w0 = (Ok a, rs, w) ->
  (call op ≫= k) s = k a (deliver rs (add_event (EvOp op (Ok a)) (set_world w s))).
Proof. intros <- H. rewrite run_bind, (run_call _ _ _ _ _ H). reflexivity. Qed.

Lemma run_call_bind_throw {X B} (op : Op X) (k : X -> M World B) s w0 e rs w :
  world s = w0 ->
  perform op w0 = (Throw e, rs, w) ->
  (call op ≫= k) s = (Throw e, deliver rs (add_event (EvOp op (Throw e)) (set_world w s))).
Proof. intros <- H. rewrite run_bind, (run_call _ _ _ _ _ H). reflexivity. Qed.
End Running.

Ltac world_eq := repeat rewrite world_deliver; reflexivity.

(** Runs the next awaited operation of the goal with the answer [E]. *)
Ltac run_ok E :=
  cbv beta;
  match goal with
  | |- context [ (call ?op ≫= ?k) ?st ] =>
      rewrite (run_call_bind op k st _ _ _ _ ltac:(world_eq) E)
  end.

Ltac run_throw E :=
  cbv beta;
  match goal with
  | |- context [ (call ?op ≫= ?k) ?st ] =>
      rewrite (run_call_bind_throw op k st _ _ _ _ ltac:(world_eq) E)
  end.

Ltac run_pure :=
  cbv beta; repeat first [ rewrite run_log_bind | rewrite run_modify_bind ]; cbv beta.

(** Normalises the trace of a state built by the run tactics. *)
Ltac trace_norm :=
  repeat (rewrite ?trace_deliver;
          cbn [trace add_event set_world add_line set_capturedVideoUrl
               set_isCapturingVideo]).

(** Runs the next awaited operation of the goal on both of its outcomes. *)
Ltac run_any E :=
  cbv beta;
  match goal with
  | |- context [ (call ?op ≫= ?k) ?st ] =>
      let w0 := fresh "w" in
      let Hw := fresh "Hw" in
      assert (Hw : exists w0, world st = w0) by (eexists; reflexivity);
      destruct Hw as [w0 Hw];
      repeat rewrite world_deliver in Hw; cbn [world add_event set_world add_line] in Hw;
      destruct (perform op w0) as [[[?a|?e] ?rs] ?w] eqn:E;
      [ rewrite (run_call_bind op k st w0 _ _ _
                   ltac:(repeat rewrite world_deliver; exact Hw) E)
      | rewrite (run_call_bind_throw op k st w0 _ _ _
                   ltac:(repeat rewrite world_deliver; exact Hw) E) ];
      subst w0
  end.

Section CommentTask.
Context {World : Type} {env : Env World}.
Implicit Types s : State World.

(** [runCommentTask] in terms of its three blocks. *)
Lemma runCommentTask_blocks this t h s :
  runCommentTask this t h s =
  match commentTask this t h (taskStart this t s) with
  | (Ok r, s1) => (Ok r, set_isCapturingVideo false s1)
  | (Throw e, s1) =>
      let '(r, s2) := commentTaskFailed this t e s1 in
      (r, set_isCapturingVideo false s2)
  end.
Proof.
  unfold runCommentTask. rewrite run_log_bind. unfold try_finally, try_catch, taskStart.
  destruct (commentTask this t h _) as [[r|e] s1]; [reflexivity|].
  destruct (commentTaskFailed this t e s1) as [r s2]. reflexivity.
Qed.

(** The [catch] block: one screenshot, then [FAILED] unless the
    screenshot itself rejects. *)
Lemma commentTaskFailed_run this t e s :
  exists shot s',
    commentTaskFailed this t e s =
      (match shot with Ok _ => Ok FAILED | Throw e' => Throw e' end, s')
    /\ trace s' = trace s ++ [EvOp (Screenshot (errorScreenshot this "comment_task_error" t)) shot].
Proof.
  unfold commentTaskFailed. run_pure.
  destruct (perform (Screenshot (errorScreenshot this "comment_task_error" t)) (world s))
    as [[[[]|e'] rs] w] eqn:E.
  - eexists (Ok tt), _. run_ok E. split; [reflexivity|].
    simpl. now rewrite trace_deliver.
  - eexists (Throw e'), _. run_throw E. split; [reflexivity|].
    now rewrite trace_deliver.
Qed.
End CommentTask.

Section TaskOutcomes.
Context {World : Type} {env : Env World}.
Implicit Types s : State World.

(** C5: when the profile page of the target shows the private notice (the
    navigation and the wait succeed and the notice is counted [n > 0]
    times), [runCommentTask] returns [SKIPPED], and the navigation, the
    wait and that count are all it ever awaited: no post is enumerated, no
    caption or media extracted, the AI generator is not called, nothing is
    logged to the interaction log. *)
Theorem private_profile_is_skipped this targetUsername aiPromptHint s rs1 w1 rs2 w2 n rs3 w3 :
  perform (Goto (profileUrl targetUsername)) (world s) = (Ok tt, rs1, w1) ->
  perform (RandomizedWait (navigationWaitMs (bot_behavior this))) w1 = (Ok tt, rs2, w2) ->
  perform (Count privateNotice) w2 = (Ok n, rs3, w3) ->
  (0 < n)%nat ->
  let run := runCommentTask this targetUsername aiPromptHint s in
  fst run = Ok SKIPPED
  /\ new_events s (snd run) =
       [ EvOp (Goto (profileUrl targetUsername)) (Ok tt);
         EvOp (RandomizedWait (navigationWaitMs (bot_behavior this))) (Ok tt);
         EvOp (Count privateNotice) (Ok n) ]
  /\ interactionLogFile (snd run) = interactionLogFile s.
Proof.
  intros H1 H2 H3 Hn run. subst run.
  rewrite runCommentTask_blocks. unfold commentTask, taskStart.
  run_pure. run_ok H1. run_ok H2. run_ok H3.
  destruct (Nat.ltb_spec 0 n) as [_|]; [|lia].
  run_pure. simpl. repeat split.
  - apply new_events_app. simpl. rewrite !trace_deliver. simpl.
    rewrite !trace_deliver. simpl. rewrite !trace_deliver. simpl.
    now rewrite <- !app_assoc.
  - rewrite !interactionLogFile_deliver. simpl. rewrite !interactionLogFile_deliver. simpl.
    rewrite !interactionLogFile_deliver. reflexivity.
Qed.

Lemma logInteraction_run this t c s :
  logInteraction this t "comment" c s =
  (Ok tt, logged this t c (fst (host Now (world s))) (snd (host Now (world s))) s).
Proof.
  unfold logInteraction, logged. rewrite run_bind. unfold await.
  destruct (host Now (world s)) as [ts w]. cbn [fst snd]. cbv zeta.
  change (String.eqb "comment" "comment") with true. cbn [when]. rewrite run_modify_bind.
  unfold try_catch, appendInteractionLog. rewrite run_bind. unfold fs.
  cbn [world set_commentCount add_event set_world].
  destruct (refuse (AppendFileSync _) w) as [[message|] w']; reflexivity.
Qed.

Lemma recordSubmission_run this t c matches s :
  recordSubmission this t c matches s =
  (Ok SUCCESS,
   logged this t c (fst (host Now (world s))) (snd (host Now (world s)))
          (add_line (submissionLine this t matches) s)).
Proof.
  unfold recordSubmission, submissionLine.
  destruct (0 <? matches)%nat; run_pure; rewrite run_bind, logInteraction_run; reflexivity.
Qed.

(** What [logInteraction] adds to the trace: the reading of the clock,
    then the append or its refusal. *)
Lemma logged_trace this t c ts w s :
  let entry := logEntryOf ts (username (bot_config this)) t "comment" c in
  trace (logged this t c ts w s)
  = trace s ++ [EvHost Now ts;
                match fst (refuse (AppendFileSync entry) w) with
                | None => EvFs (AppendInteractionLog entry)
                | Some message => EvRefused (AppendFileSync entry) message
                end].
Proof.
  cbv zeta. unfold logged.
  destruct (refuse (AppendFileSync _) w) as [[message|] w']; cbn; now rewrite <- app_assoc.
Qed.


(** Whatever happens, the capture window is closed when the call ends. *)
Lemma capture_window_closed this t h s :
  isCapturingVideo (snd (runCommentTask this t h s)) = false.
Proof.
  rewrite runCommentTask_blocks.
  destruct (commentTask this t h _) as [[r|e] s1]; [reflexivity|].
  destruct (commentTaskFailed this t e s1) as [r s2]. reflexivity.
Qed.

(** C7 (amended): on every exit path the capture flag is false when
    [runCommentTask] completes; an exception raised inside the task
    sequence is caught and answered with one diagnostic screenshot, and the
    result is [FAILED] when that screenshot is taken; when the screenshot
    itself rejects, its error leaves [runCommentTask] as an exception. *)
Theorem task_failure_and_cleanup this t h s :
  let run := runCommentTask this t h s in
  isCapturingVideo (snd run) = false
  /\ forall e s1,
       commentTask this t h (taskStart this t s) = (Throw e, s1) ->
       exists shot,
         new_events s1 (snd run)
         = [EvOp (Screenshot (errorScreenshot this "comment_task_error" t)) shot]
         /\ fst run = match shot with Ok _ => Ok FAILED | Throw e' => Throw e' end.
Proof.
  intros run. split; [apply capture_window_closed|].
  intros e s1 H. subst run. rewrite runCommentTask_blocks, H.
  destruct (commentTaskFailed_run this t e s1) as (shot & s2 & -> & Htr).
  exists shot. split; [|reflexivity].
  apply new_events_app. exact Htr.
Qed.

(** An outcome of the [try] block is the outcome of [runCommentTask]. *)
Lemma runCommentTask_returns this t h s r s1 :
  commentTask this t h (taskStart this t s) = (Ok r, s1) ->
  runCommentTask this t h s = (Ok r, set_isCapturingVideo false s1).
Proof. intros H. now rewrite runCommentTask_blocks, H. Qed.
End TaskOutcomes.

(** C5, on a private profile. *)
Lemma private_profile_is_skipped_witness :
  let run := runCommentTask (env := scripted privateProfile) aliceBot "nasa" None initial in
  fst run = Ok SKIPPED
  /\ new_events initial (snd run) =
       [ EvOp (Goto (profileUrl "nasa")) (Ok tt);
         EvOp (RandomizedWait (navigationWaitMs (bot_behavior aliceBot))) (Ok tt);
         EvOp (Count privateNotice) (Ok 1%nat) ]
  /\ interactionLogFile (snd run) = interactionLogFile initial.
Proof.
  apply (private_profile_is_skipped (env := scripted privateProfile)
           aliceBot "nasa" None initial [] tt [] tt 1 [] tt);
    [reflexivity | reflexivity | reflexivity | lia].
Defined.


(** C7 as stated fails: with the browser gone the navigation rejects inside
    the task sequence, the screenshot of the [catch] block rejects too, and
    [runCommentTask] ends with an exception, not with [FAILED]. *)
Lemma exception_escapes_runCommentTask :
  fst (commentTask (env := scripted offline) aliceBot "nasa" None
         (taskStart aliceBot "nasa" initial)) = Throw "rejected"
  /\ fst (runCommentTask (env := scripted offline) aliceBot "nasa" None initial)
     = Throw "rejected"
  /\ fst (runCommentTask (env := scripted offline) aliceBot "nasa" None initial)
     <> Ok FAILED.
Proof. vm_compute. repeat split; discriminate. Qed.

(** C7 (amended): with the site out of reach the navigation rejects, the
    screenshot is taken and the result is [FAILED]; with the browser gone
    the screenshot rejects too and its error escapes; the capture flag is
    false either way. *)
Lemma task_failure_and_cleanup_witness :
  let failed := runCommentTask (env := scripted unreachable) aliceBot "nasa" None initial in
  let escaped := runCommentTask (env := scripted offline) aliceBot "nasa" None initial in
  isCapturingVideo (snd failed) = false
  /\ fst failed = Ok FAILED
  /\ isCapturingVideo (snd escaped) = false
  /\ fst escaped = Throw "rejected".
Proof.
  cbv zeta.
  destruct (task_failure_and_cleanup (env := scripted unreachable) aliceBot "nasa" None
              initial) as [Hflag Hcatch].
  destruct (task_failure_and_cleanup (env := scripted offline) aliceBot "nasa" None initial)
    as [Hflag' Hcatch'].
  split; [exact Hflag|]. split; [|split; [exact Hflag'|]].
  - destruct (Hcatch "rejected"
                (snd (commentTask (env := scripted unreachable) aliceBot "nasa" None
                        (taskStart aliceBot "nasa" initial))))
      as (shot & _ & Hr); [vm_compute; reflexivity|].
    destruct shot as [[]|e']; [exact Hr|]. vm_compute in Hr. discriminate Hr.
  - destruct (Hcatch' "rejected"
                (snd (commentTask (env := scripted offline) aliceBot "nasa" None
                        (taskStart aliceBot "nasa" initial))))
      as (shot & _ & Hr); [vm_compute; reflexivity|].
    destruct shot as [[]|e']; [vm_compute in Hr; discriminate Hr|].
    rewrite Hr. vm_compute in Hr. now injection Hr as <-.
Defined.

(* ===================================================================== *)
(** * Sessions and launches *)
(* ===================================================================== *)

Section Sessions.
Context {World : Type} {env : Env World}.
Variable cfg : Config.
Implicit Types s : State World.

Lemma Frame_with R1 R2 (P : Event -> Prop) :
  Frame (World := World) R1 P -> Frame R2 (fun _ => True) ->
  Frame (fun s s' => R1 s s' /\ R2 s s') P.
Proof.
  intros F1 F2. split; intros.
  - split; [apply (fr_refl _ _ F1) | apply (fr_refl _ _ F2)].
  - destruct H, H0. split; [eapply (fr_trans _ _ F1) | eapply (fr_trans _ _ F2)]; eauto.
  - split; [apply (fr_world _ _ F1) | apply (fr_world _ _ F2)].
  - split; [apply (fr_event _ _ F1) | apply (fr_event _ _ F2)]; auto.
  - split; [apply (fr_line _ _ F1) | apply (fr_line _ _ F2)].
  - split; [apply (fr_captured _ _ F1) | apply (fr_captured _ _ F2)].
  - split; [apply (fr_capturing _ _ F1) | apply (fr_capturing _ _ F2)].
  - split; [apply (fr_count _ _ F1) | apply (fr_count _ _ F2)].
  - split; [apply (fr_cookies _ _ F1) | apply (fr_cookies _ _ F2)].
  - split; [apply (fr_log _ _ F1) | apply (fr_log _ _ F2)].
Qed.

Lemma bot_Frame : Frame (World := World) bot_rel bot_event.
Proof.
  apply Frame_with; [apply Frame_with|];
    [apply emits_Frame | apply keeps_stats_Frame | apply keeps_fingerprints_Frame].
Qed.

Lemma session_Frame a : Frame (World := World) (session_rel a) (session_event a).
Proof. apply Frame_with; [apply emits_Frame | apply keeps_stats_Frame]. Qed.

Lemma bot_event_session a e : bot_event e -> session_event a e.
Proof. destruct e as [X op r|X h x|[]| | | |[]]; simpl; tauto. Qed.

Lemma session_op a X (op : Op X) r : bot_op op -> session_event a (EvOp op r).
Proof. intros _. exact I. Qed.

Lemma session_host a X (h : Host X) x : session_event a (EvHost h x).
Proof. exact I. Qed.

Lemma session_log a entry : session_event a (EvFs (AppendInteractionLog entry)).
Proof. exact I. Qed.

Lemma session_rel_refl a s : session_rel a s s.
Proof. apply (fr_refl _ _ (session_Frame a)). Qed.

Lemma session_rel_trans a s1 s2 s3 :
  session_rel a s1 s2 -> session_rel a s2 s3 -> session_rel a s1 s3.
Proof. apply (fr_trans _ _ (session_Frame a)). Qed.

Lemma steps_loadOrCreateFingerprint a l :
  steps (session_rel a) (loadOrCreateFingerprint a l).
Proof.
  unfold loadOrCreateFingerprint.
  frame (session_Frame a) (session_op a) (session_host a).
  intros s. split; [|split; reflexivity].
  eexists [_]. split; [reflexivity|]. constructor; [reflexivity | constructor].
Qed.

Lemma steps_openSession a l h f : steps (session_rel a) (openSession cfg a l h f).
Proof.
  unfold openSession.
  pose proof (session_Frame a). pose proof (session_op a).
  pose proof (session_host a). pose proof (session_log a).
  frame (session_Frame a) (session_op a) (session_host a).
Qed.

Lemma steps_initializeBotSession a l h :
  steps (session_rel a) (initializeBotSession cfg a l h).
Proof.
  unfold initializeBotSession.
  pose proof (steps_loadOrCreateFingerprint a l).
  pose proof (steps_openSession a l h).
  frame (session_Frame a) (session_op a) (session_host a).
  apply (steps_emit _ _ (session_Frame a)). reflexivity.
Qed.

(** The events of a session hold no entry or return of [launchBotForTask],
    no snapshot write and no session but the account's own. *)
Lemma session_events_summary a evs :
  Forall (session_event a) evs ->
  taskEvents evs = [] /\ launchedAccounts evs = [] /\ taskResults evs = []
  /\ statsWrites evs = [] /\ Forall (fun b => b = a) (sessionAccounts evs).
Proof.
  induction 1 as [|e evs He _ IH]; [now repeat split|].
  destruct IH as (I1 & I2 & I3 & I4 & I5).
  unfold taskEvents, launchedAccounts, taskResults, statsWrites, sessionAccounts in *.
  destruct e as [X op r|X h x|[]| | | |[]]; simpl in *;
    rewrite ?I1, ?I2, ?I3, ?I4; try tauto;
    repeat split; auto.
Qed.

Lemma steps_taskOnSession a t h session :
  steps (session_rel a) (taskOnSession a t h session).
Proof.
  pose proof (session_Frame a) as HF. pose proof (session_op a) as HPop.
  pose proof (session_host a) as HPhost. pose proof (session_log a) as HPlog.
  unfold taskOnSession. frame HF HPop HPhost.
Qed.

Lemma launchBotForTask_unfold a t h s :
  launchBotForTask cfg a t h s =
  match initializeBotSession cfg a (username a) (Some (headless (settings cfg)))
          (add_event (EvLaunch a t) s) with
  | (Ok session, s1) =>
      match taskOnSession a t h session s1 with
      | (Ok r, s2) => (Ok r, add_event (EvLaunched a t r) s2)
      | (Throw e, s2) => (Throw e, s2)
      end
  | (Throw e, s1) => (Throw e, s1)
  end.
Proof.
  unfold launchBotForTask. cbv zeta. rewrite run_bind. unfold emit at 1, modify at 1.
  cbv iota beta. rewrite run_bind.
  destruct (initializeBotSession _ _ _ _ _) as [[session|e] s1]; [|reflexivity].
  rewrite run_bind.
  destruct (taskOnSession a t h session s1) as [[r|e] s2]; reflexivity.
Qed.

(** [launchBotForTask] records its entry, then only events of a session of
    the account, then its return if it returns; the snapshots are kept. *)
Lemma launchBotForTask_run a t h s :
  exists r s' evs,
    launchBotForTask cfg a t h s = (r, s')
    /\ keeps_stats s s'
    /\ trace s' = trace s ++ EvLaunch a t :: evs
                  ++ match r with Ok o => [EvLaunched a t o] | Throw _ => [] end
    /\ Forall (session_event a) evs.
Proof.
  rewrite launchBotForTask_unfold.
  pose proof (steps_initializeBotSession a (username a) (Some (headless (settings cfg)))
                (add_event (EvLaunch a t) s)) as Hi.
  destruct (initializeBotSession _ _ _ _ _) as [[session|e] s1]; cbn [snd] in Hi.
  - pose proof (steps_taskOnSession a t h session s1) as H2.
    destruct (taskOnSession a t h session s1) as [[r|e] s2]; cbn [snd] in H2;
      pose proof (session_rel_trans _ _ _ _ Hi H2) as [(evs & Htr & Hev) Hk].
    + eexists _, _, evs. split; [reflexivity|]. split; [exact Hk|]. split; [|exact Hev].
      cbn [trace add_event] in *. rewrite Htr, <- !app_assoc. reflexivity.
    + eexists _, _, evs. split; [reflexivity|]. split; [exact Hk|]. split; [|exact Hev].
      cbn [trace add_event] in *. rewrite Htr, <- !app_assoc, app_nil_r. reflexivity.
  - destruct Hi as [(evs & Htr & Hev) Hk].
    eexists _, _, evs. split; [reflexivity|]. split; [exact Hk|]. split; [|exact Hev].
    cbn [trace add_event] in *. rewrite Htr, <- !app_assoc, app_nil_r. reflexivity.
Qed.
End Sessions.

(* ===================================================================== *)
(** * The target map *)
(* ===================================================================== *)

Section TargetMap.
Implicit Types m : TargetMap.

Lemma tm_get_push m k a t :
  tm_get (tm_push m k a) t =
  if String.eqb k t then Some (tasksFor m t ++ [a]) else tm_get m t.
Proof.
  unfold tasksFor. induction m as [|[k' tasks] rest IH]; simpl.
  - destruct (String.eqb k t); reflexivity.
  - destruct (String.eqb_spec k' k) as [->|Hne]; simpl.
    + destruct (String.eqb k t); reflexivity.
    + rewrite IH. destruct (String.eqb_spec k' t) as [->|]; [|reflexivity].
      destruct (String.eqb_spec k t) as [->|]; [congruence | reflexivity].
Qed.

Lemma tasksFor_push m k a t :
  tasksFor (tm_push m k a) t = tasksFor m t ++ (if String.eqb t k then [a] else []).
Proof.
  unfold tasksFor at 1. rewrite tm_get_push, String.eqb_sym.
  destruct (String.eqb t k); simpl; [reflexivity|].
  unfold tasksFor. now rewrite app_nil_r.
Qed.

Lemma tasksFor_account m a ts t :
  tasksFor (fold_left (fun m k => tm_push m k a) ts m) t =
  tasksFor m t ++ map (fun _ => a) (List.filter (String.eqb t) ts).
Proof.
  revert m. induction ts as [|k ts IH]; intros m; simpl.
  - now rewrite app_nil_r.
  - rewrite IH, tasksFor_push, <- app_assoc. destruct (String.eqb t k); reflexivity.
Qed.

Lemma tasksFor_accounts m accs t :
  tasksFor
    (fold_left (fun m a => fold_left (fun m k => tm_push m k a) (targets a) m) accs m) t =
  tasksFor m t
  ++ flat_map (fun a => map (fun _ => a) (List.filter (String.eqb t) (targets a))) accs.
Proof.
  revert m. induction accs as [|a accs IH]; intros m; simpl.
  - now rewrite app_nil_r.
  - rewrite IH, tasksFor_account, <- app_assoc. reflexivity.
Qed.

(** The tasks of a target: one per occurrence of the target in the list of
    an enabled account, in the order of the configuration. *)
Lemma tasksFor_buildTargetMap cfg t :
  tasksFor (buildTargetMap (List.filter enabled (accounts cfg))) t = subscriptions cfg t.
Proof. unfold buildTargetMap, subscriptions. now rewrite tasksFor_accounts. Qed.



(** Every account the map holds is enabled when it is built from the
    enabled accounts. *)
Lemma subscriptions_enabled cfg t : Forall (fun a => enabled a = true) (subscriptions cfg t).
Proof.
  unfold subscriptions. apply Forall_flat_map.
  apply Forall_forall. intros a Ha. apply list_elem_of_In, filter_In in Ha as [_ Ha].
  apply Forall_forall. intros b Hb. apply list_elem_of_In, in_map_iff in Hb as (_ & <- & _).
  exact Ha.
Qed.
End TargetMap.

(* ===================================================================== *)
(** * The lines of the snapshot file *)
(* ===================================================================== *)

Section Lines.

Lemma includes_char_cons c d s :
  JS.includes (String d s) (String c EmptyString)
  = (if ascii_dec c d then true else false) || JS.includes s (String c EmptyString).
Proof.
  cbn [JS.includes String.prefix]. destruct (ascii_dec c d); [destruct s|]; reflexivity.
Qed.

Lemma lacks_cons c d s : lacks c (String d s) <-> c <> d /\ lacks c s.
Proof.
  unfold lacks. rewrite includes_char_cons. destruct (ascii_dec c d); simpl.
  - split; [discriminate | tauto].
  - tauto.
Qed.

Lemma lacks_app c a b : lacks c a -> lacks c b -> lacks c (a +:+ b).
Proof.
  intros Ha Hb. induction a as [|d a IH]; [exact Hb|].
  apply lacks_cons in Ha as [Hd Ha]. simpl. apply lacks_cons. auto.
Qed.

Lemma split_nonempty sep s : JS.split sep s <> [].
Proof.
  destruct s as [|c s]; simpl; [discriminate|].
  destruct (Ascii.eqb c sep); [discriminate|]. destruct (JS.split sep s); discriminate.
Qed.

Lemma split_app sep a b :
  JS.split sep (a +:+ String sep b) = JS.split sep a ++ JS.split sep b.
Proof.
  induction a as [|c a IH]; simpl.
  - now rewrite Ascii.eqb_refl.
  - destruct (Ascii.eqb c sep); [now rewrite IH|].
    rewrite IH. pose proof (split_nonempty sep a).
    destruct (JS.split sep a); [congruence | reflexivity].
Qed.

Lemma split_lacks sep s : lacks sep s -> JS.split sep s = [s].
Proof.
  induction s as [|c s IH]; [reflexivity|].
  intros H. apply lacks_cons in H as [Hc Hs]. simpl.
  destruct (Ascii.eqb_spec c sep) as [->|_]; [congruence|]. now rewrite IH.
Qed.

Lemma split_fields sep s : Forall (lacks sep) (JS.split sep s).
Proof.
  induction s as [|c s IH]; simpl; [repeat constructor|].
  destruct (Ascii.eqb_spec c sep) as [->|Hne]; [constructor; [reflexivity | exact IH]|].
  pose proof (split_nonempty sep s).
  destruct (JS.split sep s) as [|h t]; [congruence|].
  inversion IH; subst. constructor; [|assumption].
  apply lacks_cons. split; [congruence | assumption].
Qed.

Lemma split_join sep lines :
  lines <> [] -> Forall (lacks sep) lines ->
  JS.split sep (JS.join (String sep EmptyString) lines) = lines.
Proof.
  intros Hne Hall. induction Hall as [|x rest Hx Hrest IH]; [congruence|].
  destruct rest as [|y rest].
  - simpl. now apply split_lacks.
  - change (JS.join (String sep EmptyString) (x :: y :: rest))
      with (x +:+ String sep (JS.join (String sep EmptyString) (y :: rest))).
    rewrite split_app, split_lacks by assumption. rewrite IH by discriminate. reflexivity.
Qed.

(** A file that ends with a newline splits into its lines and one empty
    string. *)
Lemma split_written sep lines :
  lines <> [] -> Forall (lacks sep) lines ->
  JS.split sep (JS.join (String sep EmptyString) lines +:+ String sep EmptyString)
  = lines ++ [EmptyString].
Proof. intros Hne Hall. now rewrite split_app, split_join. Qed.
End Lines.

Section StatsLines.

Lemma prefix_nil s : String.prefix EmptyString s = true.
Proof. now destruct s. Qed.

Lemma prefix_app p x : String.prefix p (p +:+ x) = true.
Proof.
  induction p as [|c p IH]; simpl; [apply prefix_nil|].
  destruct (ascii_dec c c); [exact IH | congruence].
Qed.

Lemma prefix_split p s : String.prefix p s = true -> exists x, s = p +:+ x.
Proof.
  revert s. induction p as [|c p IH]; intros s H; [now exists s|].
  destruct s as [|d s]; [discriminate|]. simpl in H.
  destruct (ascii_dec c d) as [->|]; [|discriminate].
  destruct (IH s H) as [x ->]. now exists x.
Qed.

Lemma append_char a c x : (a +:+ String c EmptyString) +:+ x = a +:+ String c x.
Proof.
  induction a as [|d a IH]; [reflexivity|].
  change (String d ((a +:+ String c EmptyString) +:+ x) = String d (a +:+ String c x)).
  now rewrite IH.
Qed.

Lemma split_two sep s a b rest :
  JS.split sep s = a :: b :: rest -> exists x, s = a +:+ String sep x.
Proof.
  revert a. induction s as [|c s IH]; intros a; simpl; [discriminate|].
  destruct (Ascii.eqb_spec c sep) as [->|Hne].
  - intros [= <- _]. now exists s.
  - destruct (JS.split sep s) as [|h t] eqn:Hs; [discriminate|].
    intros [= <- ->]. destruct (IH h eq_refl) as [x ->]. now exists x.
Qed.

(** A line that starts with [u,] is a line of [u], or of nobody. *)
Lemma statsLineOf_prefix u line k st :
  lacks "," u -> String.prefix (u +:+ ",") line = true ->
  statsLineOf line = Some (k, st) -> k = u.
Proof.
  intros Hu Hp. apply prefix_split in Hp as [x ->].
  unfold statsLineOf. destruct (JS.is_empty _); [discriminate|].
  rewrite append_char. rewrite split_app, split_lacks by exact Hu. cbn [app].
  destruct (JS.split "," x) as [|ps [|fs t]]; try discriminate.
  destruct (_ && _); [|discriminate]. now intros [= <- _].
Qed.

(** A line of [k] starts with [k,]. *)
Lemma statsLineOf_key line k st :
  statsLineOf line = Some (k, st) -> String.prefix (k +:+ ",") line = true.
Proof.
  unfold statsLineOf. destruct (JS.is_empty _); [discriminate|].
  destruct (JS.split "," line) as [|a [|b [|c t]]] eqn:Hs; try discriminate.
  destruct (_ && _); [|discriminate]. intros [= <- _].
  destruct (split_two _ _ _ _ _ Hs) as [x ->].
  rewrite <- (append_char a "," x). apply prefix_app.
Qed.

Lemma trimStart_keeps c s :
  JS.is_space c = false -> JS.includes s (String c EmptyString) = true ->
  JS.includes (JS.trimStart s) (String c EmptyString) = true.
Proof.
  intros Hc. induction s as [|d s IH]; [discriminate|].
  intros H. cbn [JS.trimStart]. destruct (JS.is_space d) eqn:Hd; [|exact H].
  apply IH. rewrite includes_char_cons in H.
  destruct (ascii_dec c d) as [->|]; [congruence | exact H].
Qed.

Lemma trimEnd_keeps c s :
  JS.is_space c = false -> JS.includes s (String c EmptyString) = true ->
  JS.is_empty (JS.trimEnd s) = false.
Proof.
  intros Hc. induction s as [|d s IH]; [discriminate|].
  intros H. cbn [JS.trimEnd]. rewrite includes_char_cons in H.
  destruct (JS.trimEnd s) as [|e t] eqn:Ht; [|reflexivity].
  destruct (ascii_dec c d) as [->|]; [now rewrite Hc|].
  simpl in H. now apply IH in H.
Qed.

(** A line with a comma in it is not blank. *)
Lemma comma_not_blank a b : JS.is_empty (JS.trim (a +:+ String "," b)) = false.
Proof.
  unfold JS.trim. apply (trimEnd_keeps ","); [reflexivity|].
  apply trimStart_keeps; [reflexivity|].
  induction a as [|c a IH]; simpl.
  - now destruct b.
  - rewrite IH. apply orb_true_r.
Qed.

Lemma parseStatsLines_fold lines : parseStatsLines lines = fold_left addStatsLine lines ∅.
Proof.
  unfold parseStatsLines. generalize (∅ : gmap string ProfileStats).
  induction lines as [|line lines IH]; intros acc; [reflexivity|].
  cbn [fold_left]. rewrite IH. f_equal.
  unfold addStatsLine, statsLineOf. destruct (JS.is_empty (JS.trim line)); [reflexivity|].
  destruct (JS.split "," line) as [|a [|b [|c t]]]; try reflexivity.
  now destruct (_ && _).
Qed.

Lemma fold_other k lines acc :
  Forall (fun l => forall st, statsLineOf l <> Some (k, st)) lines ->
  fold_left addStatsLine lines acc !! k = acc !! k.
Proof.
  intros H. revert acc. induction H as [|l lines Hl _ IH]; intros acc; [reflexivity|].
  cbn [fold_left]. rewrite IH. unfold addStatsLine.
  destruct (statsLineOf l) as [[k' st]|] eqn:E; [|reflexivity].
  apply lookup_insert_ne. intros ->. now apply (Hl st).
Qed.

Lemma fold_agree k lines acc1 acc2 :
  acc1 !! k = acc2 !! k ->
  fold_left addStatsLine lines acc1 !! k = fold_left addStatsLine lines acc2 !! k.
Proof.
  revert acc1 acc2. induction lines as [|l lines IH]; intros acc1 acc2 H; [exact H|].
  cbn [fold_left]. apply IH. unfold addStatsLine.
  destruct (statsLineOf l) as [[k' st]|]; [|exact H].
  destruct (decide (k' = k)) as [->|Hne].
  - now rewrite !lookup_insert_eq.
  - now rewrite !lookup_insert_ne.
Qed.

Lemma fold_blank lines acc :
  fold_left addStatsLine
    (List.filter (fun line => negb (JS.is_empty (JS.trim line))) lines ++ [EmptyString]) acc
  = fold_left addStatsLine lines acc.
Proof.
  rewrite fold_left_app. cbn [fold_left].
  change (addStatsLine ?m EmptyString) with m.
  revert acc. induction lines as [|l lines IH]; intros acc; [reflexivity|].
  cbn [List.filter fold_left]. destruct (JS.is_empty (JS.trim l)) eqn:Hb; cbn [negb fold_left].
  - rewrite IH. f_equal. unfold addStatsLine, statsLineOf. now rewrite Hb.
  - apply IH.
Qed.

Lemma replaceFirst_cases prefix e lines :
  match replaceFirst prefix e lines with
  | Some lines' =>
      exists pre old post,
        lines = pre ++ old :: post /\ lines' = pre ++ e :: post
        /\ JS.startsWith old prefix = true
        /\ Forall (fun l => JS.startsWith l prefix = false) pre
  | None => Forall (fun l => JS.startsWith l prefix = false) lines
  end.
Proof.
  induction lines as [|l lines IH]; cbn [replaceFirst]; [constructor|].
  destruct (JS.startsWith l prefix) eqn:Hl.
  - exists [], l, lines. repeat split; auto.
  - destruct (replaceFirst prefix e lines) as [lines'|]; cbn [option_map].
    + destruct IH as (pre & old & post & -> & -> & Ho & Hpre).
      exists (l :: pre), old, post. repeat split; auto.
    + constructor; assumption.
Qed.
End StatsLines.

Section UpdatedFile.
Context {World : Type} {env : Env World}.

Lemma statsEntry_line u p f :
  csvField u -> csvField (Number_toString p) -> csvField (Number_toString f) ->
  statsLineOf (statsEntry u p f)
  = Some (u, {| postCount := JS.parseInt (Number_toString p);
                followerCount := JS.parseInt (Number_toString f) |})
  /\ lacks (ascii_of_nat 10) (statsEntry u p f).
Proof.
  intros (U0 & U1 & U2) (P0 & P1 & P2) (F0 & F1 & F2).
  change (statsEntry u p f)
    with (u +:+ String "," (Number_toString p +:+ String "," (Number_toString f))).
  split.
  - unfold statsLineOf. rewrite comma_not_blank.
    rewrite split_app, (split_lacks _ u), split_app, !split_lacks by assumption.
    cbn [app]. now rewrite U0, P0, F0.
  - apply lacks_app; [assumption|]. apply lacks_cons. split; [discriminate|].
    apply lacks_app; [assumption|]. apply lacks_cons. split; [discriminate | assumption].
Qed.

(** What is loaded from the file that an update has written. *)
Lemma loaded_after_update u p f content :
  csvField u -> csvField (Number_toString p) -> csvField (Number_toString f) ->
  JS.is_empty (JS.trim (JS.first_field (ascii_of_nat 10) content)) = false ->
  let old := parseStatsLines (tail (JS.split (ascii_of_nat 10) content)) in
  let new := parseStatsLines
               (tail (JS.split (ascii_of_nat 10) (updatedContent u p f content))) in
  (forall u', u' <> u -> new !! u' = old !! u')
  /\ ((length (List.filter (fun l => JS.startsWith l (u +:+ ","))
                 (tail (JS.split (ascii_of_nat 10) content))) <= 1)%nat ->
      new !! u = Some {| postCount := JS.parseInt (Number_toString p);
                         followerCount := JS.parseInt (Number_toString f) |}).
Proof.
  intros Hu Hp Hf Hheader. cbv zeta.
  destruct (statsEntry_line u p f Hu Hp Hf) as [He Henl].
  destruct Hu as (U0 & U1 & U2).
  unfold updatedContent, JS.first_field in *.
  pose proof (split_nonempty (ascii_of_nat 10) content) as Hne.
  pose proof (split_fields (ascii_of_nat 10) content) as Hfields.
  destruct (JS.split (ascii_of_nat 10) content) as [|header rest]; [congruence|].
  cbn [hd] in Hheader. inversion Hfields as [|? ? Hh Hrest]; subst.
  cbn [upsertLine tail].
  pose proof (replaceFirst_cases (u +:+ ",") (statsEntry u p f) rest) as Hcases.
  assert (Hload : forall R,
            Forall (lacks (ascii_of_nat 10)) R ->
            parseStatsLines
              (tail (JS.split (ascii_of_nat 10)
                       (JS.join nl (List.filter (fun line => negb (JS.is_empty (JS.trim line)))
                                      (header :: R)) +:+ nl)))
            = fold_left addStatsLine R ∅).
  { intros R HR. cbn [List.filter]. rewrite Hheader. cbn [negb]. unfold nl.
    rewrite split_written; [|discriminate|].
    - cbn [app tail]. now rewrite parseStatsLines_fold, fold_blank.
    - constructor; [exact Hh|]. apply Forall_forall. intros x Hx.
      apply list_elem_of_In, filter_In in Hx as [Hx _].
      rewrite Forall_forall in HR. now apply HR, list_elem_of_In. }
  assert (Hadd : forall acc,
            addStatsLine acc (statsEntry u p f)
            = <[ u := {| postCount := JS.parseInt (Number_toString p);
                         followerCount := JS.parseInt (Number_toString f) |} ]> acc)
    by (intros acc; unfold addStatsLine; now rewrite He).
  rewrite (parseStatsLines_fold rest).
  destruct (replaceFirst (u +:+ ",") (statsEntry u p f) rest) as [rest'|].
  - destruct Hcases as (pre & old & post & -> & -> & Hold & Hpre).
    apply Forall_app in Hrest as [Hpre_nl Hpost_nl]. inversion Hpost_nl; subst.
    rewrite Hload by (apply Forall_app; split; [|constructor]; assumption).
    rewrite !fold_left_app. cbn [fold_left]. split.
    + intros u' Hne'. apply fold_agree. rewrite Hadd.
      rewrite lookup_insert_ne by congruence. unfold addStatsLine.
      destruct (statsLineOf old) as [[k st]|] eqn:Eo; [|reflexivity].
      rewrite (statsLineOf_prefix u old k st U1 Hold Eo).
      now rewrite lookup_insert_ne by congruence.
    + intros Huniq. rewrite fold_other.
      * rewrite Hadd. apply lookup_insert_eq.
      * rewrite List.filter_app, length_app in Huniq. cbn [List.filter] in Huniq.
        rewrite Hold in Huniq. cbn [length] in Huniq.
        assert (Hnone : List.filter (fun l => JS.startsWith l (u +:+ ",")) post = [])
          by (destruct (List.filter _ post); [reflexivity | simpl in Huniq; lia]).
        apply Forall_forall. intros l Hl st Hst.
        apply statsLineOf_key in Hst.
        assert (Hin : In l (List.filter (fun l => JS.startsWith l (u +:+ ",")) post))
          by (apply filter_In; split; [now apply list_elem_of_In | exact Hst]).
        now rewrite Hnone in Hin.
  - rewrite Hload by (apply Forall_app; split; [assumption | repeat constructor; assumption]).
    rewrite fold_left_app. cbn [fold_left]. rewrite Hadd. split.
    + intros u' Hne'. now rewrite lookup_insert_ne by congruence.
    + intros _. apply lookup_insert_eq.
Qed.

End UpdatedFile.

(* ===================================================================== *)
(** * The monitor loop *)
(* ===================================================================== *)

Section Monitor.
Context {World : Type} {env : Env World}.
Variable cfg : Config.
Implicit Types s : State World.

Lemma page_Frame : Frame (World := World) page_rel page_event.
Proof. apply Frame_with; [apply emits_Frame | apply keeps_stats_Frame]. Qed.

Lemma page_op X (op : Op X) r : bot_op op -> page_event (EvOp op r).
Proof. intros H. exact H. Qed.

Lemma page_host X (h : Host X) x : page_event (EvHost h x).
Proof. exact I. Qed.

Lemma page_event_session a e : page_event e -> session_event a e.
Proof. destruct e as [X op r|X h x|[]| | | |[]]; simpl; tauto. Qed.

Lemma page_events_summary evs :
  Forall page_event evs ->
  fsWrites evs = [] /\ statsWrites evs = [] /\ taskEvents evs = []
  /\ launchedAccounts evs = [] /\ taskResults evs = [] /\ sessionAccounts evs = [].
Proof.
  induction 1 as [|e evs He _ IH]; [now repeat split|].
  destruct IH as (I1 & I2 & I3 & I4 & I5 & I6).
  unfold fsWrites, statsWrites, taskEvents, launchedAccounts, taskResults,
    sessionAccounts in *.
  destruct e as [X op r|X h x|[]| | | |[]]; simpl in *;
    rewrite ?I1, ?I2, ?I3, ?I4, ?I5, ?I6; tauto.
Qed.

Lemma steps_fetchAndWait t : steps page_rel (fetchAndWait t).
Proof.
  pose proof page_Frame as HF. pose proof page_op as HPop.
  unfold fetchAndWait. frame HF HPop page_host.
Qed.

Lemma steps_waitBeforeNextBot : steps page_rel waitBeforeNextBot.
Proof.
  pose proof page_Frame as HF.
  unfold waitBeforeNextBot. frame HF page_op page_host.
Qed.

Lemma waitBeforeNextBot_returns s : fst (waitBeforeNextBot s) = Ok tt.
Proof.
  unfold waitBeforeNextBot. rewrite run_bind. unfold await.
  destruct (host MathRandom (world s)) as [r w]. cbv zeta. run_pure.
  destruct (host (Delay _) _) as [[] w']. reflexivity.
Qed.

Lemma run_gets_bind {A B} (f : State World -> A) (k : A -> M World B) s :
  (gets f ≫= k) s = k (f s) s.
Proof. reflexivity. Qed.

(** ** Committing a snapshot *)



(** ** The loop over the tasks *)

Lemma taskEvents_app l1 l2 : taskEvents (l1 ++ l2) = taskEvents l1 ++ taskEvents l2.
Proof. apply List.filter_app. Qed.

Lemma launchedAccounts_app l1 l2 :
  launchedAccounts (l1 ++ l2) = launchedAccounts l1 ++ launchedAccounts l2.
Proof. apply flat_map_app. Qed.

Lemma taskResults_app l1 l2 : taskResults (l1 ++ l2) = taskResults l1 ++ taskResults l2.
Proof. apply flat_map_app. Qed.

Lemma statsWrites_app l1 l2 : statsWrites (l1 ++ l2) = statsWrites l1 ++ statsWrites l2.
Proof. apply flat_map_app. Qed.

Lemma fsWrites_app l1 l2 : fsWrites (l1 ++ l2) = fsWrites l1 ++ fsWrites l2.
Proof. apply flat_map_app. Qed.

Lemma sessionAccounts_app l1 l2 :
  sessionAccounts (l1 ++ l2) = sessionAccounts l1 ++ sessionAccounts l2.
Proof. apply flat_map_app. Qed.

Lemma keeps_stats_trans s1 s2 s3 : keeps_stats s1 s2 -> keeps_stats s2 s3 -> keeps_stats s1 s3.
Proof. apply (fr_trans _ _ keeps_stats_Frame). Qed.

(** What one launch adds to the trace. *)
Lemma launch_events_summary a t evs (r : Res LaunchResult) :
  Forall (session_event a) evs ->
  let all := EvLaunch a t :: evs ++ match r with Ok o => [EvLaunched a t o] | Throw _ => [] end in
  taskEvents all = EvLaunch a t :: match r with Ok o => [EvLaunched a t o] | Throw _ => [] end
  /\ launchedAccounts all = [a]
  /\ taskResults all = match r with Ok o => [o] | Throw _ => [] end
  /\ statsWrites all = []
  /\ Forall (fun b => b = a) (sessionAccounts all).
Proof.
  intros H all. subst all.
  destruct (session_events_summary a evs H) as (I1 & I2 & I3 & I4 & I5).
  change (EvLaunch a t :: evs ++ ?x) with ([EvLaunch a t] ++ evs ++ x).
  rewrite !taskEvents_app, !launchedAccounts_app, !taskResults_app, !statsWrites_app,
    !sessionAccounts_app, I1, I2, I3, I4.
  destruct r; simpl; rewrite ?app_nil_r; repeat split; auto.
Qed.

Lemma run_when_log_bind {B} (c : bool) logger l message (k : unit -> M World B) s :
  (when c (log logger l message) ≫= k) s
  = k tt (if c then add_line (logger, l, message) s else s).
Proof. destruct c; reflexivity. Qed.

Lemma when_wait_run (c : bool) s :
  exists s2, when c waitBeforeNextBot s = (Ok tt, s2) /\ page_rel s s2.
Proof.
  destruct c; simpl.
  - pose proof (waitBeforeNextBot_returns s) as Hr.
    pose proof (steps_waitBeforeNextBot s) as Hs.
    destruct (waitBeforeNextBot s) as [r s2]. simpl in *. subst r. eauto.
  - exists s. split; [reflexivity | apply (fr_refl _ _ page_Frame)].
Qed.

Lemma taskFailed_spec r : taskFailed r = negb (succeededOrSkipped r).
Proof. destruct r as [[]|]; reflexivity. Qed.

(** The loop over the tasks launches them in order, each returning before
    the next is entered; it writes no snapshot; its result tells whether
    every task succeeded or was skipped.  If a launch throws, the loop
    stops there. *)
Lemma runTasks_run tasks total t b s :
  exists r s' evs,
    runTasks cfg tasks total t b s = (r, s')
    /\ keeps_stats s s'
    /\ trace s' = trace s ++ evs
    /\ statsWrites evs = []
    /\ Forall (fun a => In a tasks) (sessionAccounts evs)
    /\ match r with
       | Ok b' =>
           exists results,
             length results = length tasks
             /\ taskEvents evs = launchSequence t tasks results
             /\ taskResults evs = results
             /\ b' = b && forallb succeededOrSkipped results
       | Throw _ => exists k, launchedAccounts evs = take k tasks
       end.
Proof.
  revert b s. induction tasks as [|a rest IH]; intros b s.
  - exists (Ok b), s, []. simpl. rewrite app_nil_r.
    split; [reflexivity|]. split; [split; reflexivity|]. split; [reflexivity|].
    split; [reflexivity|]. split; [constructor|].
    exists []. simpl. rewrite andb_true_r. auto.
  - cbn [runTasks]. rewrite run_log_bind.
    match goal with |- context [add_line ?l s] => set (s0 := add_line l s) end.
    rewrite run_bind.
    destruct (launchBotForTask_run cfg a t (aiPromptHint a) s0)
      as (r1 & s1 & evs1 & E1 & K1 & T1 & F1).
    rewrite E1.
    destruct (launch_events_summary a t evs1 r1 F1) as (L1 & L2 & L3 & L4 & L5).
    cbv zeta in L1, L2, L3, L4, L5.
    destruct r1 as [res|e].
    + cbv zeta. rewrite run_when_log_bind.
      match goal with |- context [if taskFailed res then ?x else s1] =>
        set (s1' := if taskFailed res then x else s1) end.
      assert (Hs1' : trace s1' = trace s1 /\ keeps_stats s1 s1').
      { subst s1'. destruct (taskFailed res); split; try reflexivity; split; reflexivity. }
      destruct Hs1' as [T1' K1'].
      rewrite run_bind.
      destruct (when_wait_run (1 <? total)%nat s1') as (s2 & -> & [(evs2 & T2 & F2) K2]).
      destruct (page_events_summary evs2 F2) as (P1 & P2 & P3 & P4 & P5 & P6).
      destruct (IH (if taskFailed res then false else b) s2)
        as (r3 & s3 & evs3 & -> & K3 & T3 & W3 & S3 & R3).
      exists r3, s3, ((EvLaunch a t :: evs1 ++ [EvLaunched a t res]) ++ evs2 ++ evs3).
      split; [reflexivity|]. split.
      { eapply keeps_stats_trans; [exact K1|]. eapply keeps_stats_trans; [exact K1'|].
        eapply keeps_stats_trans; [exact K2 | exact K3]. }
      split.
      { rewrite T3, T2, T1', T1. subst s0. cbn [trace add_line].
        rewrite <- !app_assoc. reflexivity. }
      rewrite !statsWrites_app, !sessionAccounts_app, L4, P2, W3, P6.
      split; [reflexivity|]. split.
      { apply Forall_app. split.
        - eapply Forall_impl; [exact L5|]. intros ? ->. now left.
        - simpl. eapply Forall_impl; [exact S3|]. intros x Hx. now right. }
      destruct r3 as [b'|e3].
      * destruct R3 as (results & Hlen & Hev & Hres & Hb).
        exists (res :: results). split; [simpl; now rewrite Hlen|].
        rewrite !taskEvents_app, !taskResults_app, L1, L3, P3, P5, Hev, Hres.
        split; [reflexivity|]. split; [reflexivity|].
        rewrite Hb. simpl. rewrite taskFailed_spec.
        destruct (succeededOrSkipped res), b; reflexivity.
      * destruct R3 as (k & Hk). exists (S k).
        rewrite !launchedAccounts_app, L2, P4, Hk. reflexivity.
    + exists (Throw e), s1, (EvLaunch a t :: evs1 ++ []).
      split; [reflexivity|]. split; [exact K1|]. split.
      { rewrite T1. subst s0. reflexivity. }
      split; [exact L4|]. split.
      { eapply Forall_impl; [exact L5|]. intros ? ->. now left. }
      exists 1%nat. rewrite L2. reflexivity.
Qed.

(** ** One target in one cycle *)

Lemma checkTarget_unfold tm t s :
  checkTarget cfg tm t s =
  match fetchAndWait t s with
  | (Ok (Some cur), s1) => compareStats cfg tm t cur s1
  | (Ok None, s1) => (Ok tt, add_line (skipLine t) s1)
  | (Throw e, s1) => (Throw e, s1)
  end.
Proof.
  unfold checkTarget. rewrite run_bind.
  destruct (fetchAndWait t s) as [[[cur|]|e] s1]; reflexivity.
Qed.

Lemma fetchAndWait_run t s r s1 :
  fetchAndWait t s = (r, s1) ->
  keeps_stats s s1 /\ exists evs, trace s1 = trace s ++ evs /\ Forall page_event evs.
Proof.
  intros H. pose proof (steps_fetchAndWait t s) as [He Hk]. rewrite H in *. auto.
Qed.



(** When the fetch yields no result, the target is skipped: nothing is awaited, launched or written after the fetch,
    and both the snapshot map and the snapshot file stay as they were. *)
Lemma null_stats_skip tm t s s1 :
  fetchAndWait t s = (Ok None, s1) ->
  let run := checkTarget cfg tm t s in
  fst run = Ok tt
  /\ trace (snd run) = trace s1
  /\ profileStats (snd run) = profileStats s
  /\ profileStatsFile (snd run) = profileStatsFile s
  /\ fsWrites (new_events s (snd run)) = []
  /\ taskEvents (new_events s (snd run)) = []
  /\ sessionAccounts (new_events s (snd run)) = [].
Proof.
  intros Hf run. subst run.
  destruct (fetchAndWait_run _ _ _ _ Hf) as ((Kp & Kf) & evs & Htr & Hev).
  destruct (page_events_summary evs Hev) as (P1 & P2 & P3 & P4 & P5 & P6).
  rewrite checkTarget_unfold, Hf. cbn [fst snd trace profileStats profileStatsFile add_line].
  erewrite new_events_app by (cbn [trace add_line]; exact Htr).
  rewrite P1, P3, P6, Kp, Kf. repeat (split; [reflexivity|]). reflexivity.
Qed.


End Monitor.



(** The fan-out does not de-duplicate a target list: an enabled account
    that lists the target twice is one subscribed account, and two tasks
    are launched for it. *)
Lemma listed_twice_launched_twice :
  let before := watching 5 100 in
  let run := checkTarget (env := scripted sixPosts) onlyBob
               (buildTargetMap (List.filter enabled (accounts onlyBob))) "nasa" before in
  fst (fetchAndWait (env := scripted sixPosts) "nasa" before) = Ok (Some (stats 6 100))
  /\ subscribers onlyBob "nasa" = [bob]
  /\ launchedAccounts (new_events before (snd run)) = [bob; bob]
  /\ launchedAccounts (new_events before (snd run)) <> subscribers onlyBob "nasa".
Proof. vm_compute. repeat split; discriminate. Qed.


(* ===================================================================== *)
(** * The snapshot file during the loop *)
(* ===================================================================== *)

(** [updateProfileStatsInCsv] needs [profile_stats.csv] to be there.  It
    is: [loadProfileStatsFromCsv] creates it before the loop starts, and
    nothing in the loop removes it. *)
Section StatsFile.
Context {World : Type} {env : Env World}.
Variable cfg : Config.
Implicit Types s : State World.

Lemma file_kept_Frame : Frame (World := World) file_kept (fun _ => True).
Proof. split; unfold file_kept; intros; simpl; auto. Qed.

Lemma keeps_stats_file_kept s s' : keeps_stats s s' -> file_kept s s'.
Proof. intros [_ H] Hs. now rewrite H. Qed.

Lemma loadProfileStatsFromCsv_creates s :
  is_Some (profileStatsFile (snd (loadProfileStatsFromCsv s))).
Proof.
  unfold loadProfileStatsFromCsv. rewrite run_gets_bind.
  destruct (profileStatsFile s) as [content|] eqn:H; [|run_pure; simpl; eauto].
  unfold try_catch. rewrite run_bind. unfold fs.
  destruct (refuse ReadFileSync (world s)) as [[e|] w]; run_pure; simpl; [|rewrite H]; eauto.
Qed.

Lemma kept_writeProfileStatsFile content :
  steps (World := World) file_kept (writeProfileStatsFile content).
Proof. intros s _. simpl. eauto. Qed.

Lemma kept_commitStats t cur : steps (World := World) file_kept (commitStats t cur).
Proof.
  pose proof file_kept_Frame as HF. pose proof kept_writeProfileStatsFile as Hw.
  unfold commitStats, updateProfileStatsInCsv.
  frame HF (fun X (op : Op X) (r : Res X) (_ : bot_op op) => I)
           (fun X (h : Host X) (x : X) => I).
  apply steps_modify. intros s Hs. exact Hs.
Qed.

Lemma kept_fetchAndWait t : steps file_kept (fetchAndWait t).
Proof.
  eapply steps_weaken; [|apply steps_fetchAndWait].
  intros s s' [_ Hk]. now apply keeps_stats_file_kept.
Qed.

Lemma kept_runTasks tasks total t b : steps file_kept (runTasks cfg tasks total t b).
Proof.
  intros s. destruct (runTasks_run cfg tasks total t b s) as (r & s' & evs & -> & Hk & _).
  now apply keeps_stats_file_kept.
Qed.

Lemma kept_checkTarget tm t : steps file_kept (checkTarget cfg tm t).
Proof.
  pose proof file_kept_Frame as HF. pose proof kept_commitStats as Hc.
  pose proof kept_fetchAndWait as Hf. pose proof kept_runTasks as Hr.
  unfold checkTarget, compareStats.
  frame HF (fun X (op : Op X) (r : Res X) (_ : bot_op op) => I)
           (fun X (h : Host X) (x : X) => I).
Qed.

(** Every target of every cycle is checked with the file in place. *)
Lemma kept_monitorLoop cycles tm : steps file_kept (monitorLoop cfg cycles tm).
Proof.
  pose proof file_kept_Frame as HF.
  induction cycles as [|n IH]; cbn [monitorLoop].
  - apply (steps_ret _ _ HF).
  - apply (steps_bind _ _ HF); [|intros; exact IH].
    assert (Hl : steps file_kept (forEach (map fst tm) (checkTarget cfg tm))).
    { induction (map fst tm) as [|x l IHl]; cbn [forEach].
      - apply (steps_ret _ _ HF).
      - apply (steps_bind _ _ HF); [apply kept_checkTarget | intros; exact IHl]. }
    unfold monitoringCycle.
    frame HF (fun X (op : Op X) (r : Res X) (_ : bot_op op) => I)
             (fun X (h : Host X) (x : X) => I).
Qed.
End StatsFile.

(* ===================================================================== *)
(** * [getProfileStats] *)
(* ===================================================================== *)

Section Fetch.
Context {World : Type} {env : Env World}.
Implicit Types s : State World.

Lemma getProfileStats_blocks u l s :
  getProfileStats u l s =
  match fetchProfileStats u l s with
  | (Ok r, s1) => (Ok r, s1)
  | (Throw e, s1) => fetchFailed u l e s1
  end.
Proof. reflexivity. Qed.

(** The [catch] block: one screenshot, then no result, unless the
    screenshot itself rejects. *)
Lemma fetchFailed_run u l e s :
  exists (shot : Res unit) s',
    fetchFailed u l e s = (match shot with Ok _ => Ok None | Throw e' => Throw e' end, s')
    /\ trace s' = trace s ++ [EvOp (Screenshot (statsErrorScreenshot u)) shot].
Proof.
  unfold fetchFailed. run_pure. run_any E.
  - destruct a. eexists (Ok tt), _. split; [reflexivity|]. now trace_norm.
  - eexists (Throw e0), _. split; [reflexivity|]. now trace_norm.
Qed.

Lemma followerCountFromTitle_run s :
  exists r s' evs,
    followerCountFromTitle s = (r, s') /\ trace s' = trace s ++ evs
    /\ match r with
       | Ok (Some f) =>
           exists n t,
             evs = [ EvOp (Count spanWithTitle) (Ok n);
                     EvOp (GetAttribute spanWithTitle "title") (Ok (Some t)) ]
             /\ f = JS.parseInt (JS.remove_all "," t) /\ JS.isNaN f = false
       | _ => True
       end.
Proof.
  unfold followerCountFromTitle. run_any E1.
  2: { eexists _, _, _. split; [reflexivity|]. split; [now trace_norm | exact I]. }
  destruct (0 <? a)%nat.
  2: { eexists _, _, _. split; [reflexivity|]. split; [now trace_norm | exact I]. }
  run_any E2.
  2: { eexists _, _, _. split; [reflexivity|]. split; [trace_norm; now rewrite <- app_assoc | exact I]. }
  destruct a0 as [t|].
  2: { eexists _, _, _. split; [reflexivity|]. split; [trace_norm; now rewrite <- app_assoc | exact I]. }
  destruct (JS.is_empty t); cbn [negb].
  { eexists _, _, _. split; [reflexivity|]. split; [trace_norm; now rewrite <- app_assoc | exact I]. }
  destruct (JS.isNaN (JS.parseInt (JS.remove_all "," t))) eqn:Hnan; cbn [negb].
  { eexists _, _, _. split; [reflexivity|]. split; [trace_norm; now rewrite <- app_assoc | exact I]. }
  eexists _, _, _. split; [reflexivity|]. split; [trace_norm; now rewrite <- app_assoc|].
  exists a, t. auto.
Qed.

Lemma followerCountFromText_run s :
  exists r s' evs,
    followerCountFromText s = (r, s') /\ trace s' = trace s ++ evs
    /\ match r with
       | Ok (Some f) =>
           exists t,
             evs = [ EvOp (TextContent followerLi) (Ok (Some t)) ]
             /\ parseFollowerCount (JS.first_field " " (JS.remove_all "," t)) = Some f
       | _ => True
       end.
Proof.
  unfold followerCountFromText. run_any E1.
  2: { eexists _, _, _. split; [reflexivity|]. split; [now trace_norm | exact I]. }
  destruct a as [t|].
  2: { eexists _, _, _. split; [reflexivity|]. split; [now trace_norm | exact I]. }
  destruct (JS.is_empty t); cbn [negb].
  { eexists _, _, _. split; [reflexivity|]. split; [now trace_norm | exact I]. }
  eexists _, _, _. split; [reflexivity|]. split; [now trace_norm|].
  destruct (parseFollowerCount _) eqn:Hp; [|exact I]. exists t. auto.
Qed.

(** A fetch whose [try] block yields a snapshot read it from the page. *)
Lemma fetchProfileStats_cases u l s :
  match fetchProfileStats u l s with
  | (Ok (Some stats), s1) => exists evs, trace s1 = trace s ++ evs /\ fetchedFrom u stats evs
  | _ => True
  end.
Proof.
  unfold fetchProfileStats. run_pure.
  run_any E1; [destruct a|exact I].
  run_any E2; [destruct a|exact I].
  run_any E3; [|exact I]. destruct a as [|n]; [|exact I]. cbn [Nat.ltb Nat.leb].
  run_any E4; [|exact I]. destruct a as [|n]; [|exact I]. cbn [Nat.ltb Nat.leb].
  run_any E5; [destruct a|exact I].
  run_any E6; [|exact I]. destruct a as [postText|].
  2: { cbn [JS.truthy negb]. run_pure. run_any E7; exact I. }
  unfold JS.truthy. destruct (JS.is_empty postText) eqn:Hempty; cbn [negb].
  { run_pure. run_any E7; exact I. }
  cbn [default from_option id].
  destruct (JS.isNaN (JS.parseInt (JS.first_field " " (JS.remove_all "," postText)))) eqn:Hnan;
    [exact I|].
  rewrite run_bind.
  match goal with |- context [ followerCountFromTitle ?st ] =>
    destruct (followerCountFromTitle_run st) as (r1 & s1 & evs1 & -> & Htr1 & Hsrc1) end.
  revert Htr1. trace_norm. intros Htr1.
  destruct r1 as [[f|]|e]; [| |exact I].
  - rewrite run_bind. change (mret (M := M World) (Some f) s1) with (Ok (Some f), s1).
    cbv iota. run_pure.
    destruct Hsrc1 as (n & t & -> & Hf & Hfn).
    eexists. split.
    { cbn [trace add_line]. rewrite Htr1. repeat rewrite <- app_assoc. reflexivity. }
    exists postText, [EvOp (Count spanWithTitle) (Ok n);
                      EvOp (GetAttribute spanWithTitle "title") (Ok (Some t))].
    split; [reflexivity|]. split; [now intros ->|]. split; [reflexivity|].
    split; [exact Hnan|]. left. exists n, t. auto.
  - rewrite run_bind.
    destruct (followerCountFromText_run s1) as (r2 & s2 & evs2 & -> & Htr2 & Hsrc2).
    destruct r2 as [[f|]|e]; [| |exact I].
    2: { run_pure. run_any E7; exact I. }
    run_pure. destruct Hsrc2 as (t & -> & Hf).
    eexists. split.
    { cbn [trace add_line]. rewrite Htr2, Htr1. repeat rewrite <- app_assoc. reflexivity. }
    exists postText, (evs1 ++ [EvOp (TextContent followerLi) (Ok (Some t))]).
    split; [reflexivity|]. split; [now intros ->|]. split; [reflexivity|].
    split; [exact Hnan|]. right. exists evs1, t. auto.
Qed.

(** The three outcomes of [getProfileStats]: a snapshot read from an
    available, public page; no result; or the rejection of the screenshot
    taken in the [catch] block. *)
Lemma getProfileStats_cases u l s :
  exists r s1 evs,
    getProfileStats u l s = (r, s1) /\ trace s1 = trace s ++ evs
    /\ match r with
       | Ok (Some stats) => fetchedFrom u stats evs
       | Ok None => True
       | Throw e =>
           exists pre, evs = pre ++ [EvOp (Screenshot (statsErrorScreenshot u)) (Throw e)]
       end.
Proof.
  rewrite getProfileStats_blocks.
  pose proof (fetchProfileStats_cases u l s) as Hc.
  pose proof (steps_fetchProfileStats _ _ page_Frame page_op u l s) as Hs.
  destruct (fetchProfileStats u l s) as [[[stats|]|e] s1].
  - destruct Hc as (evs & Htr & Hfrom). eauto 6.
  - destruct Hs as [(evs & Htr & _) _]. exists (Ok None), s1, evs. auto.
  - destruct Hs as [(evs & Htr & _) _]. cbn [snd] in Htr.
    destruct (fetchFailed_run u l e s1) as (shot & s2 & -> & Htr2).
    destruct shot as [[]|e'].
    + eexists _, _, _. split; [reflexivity|]. split; [|exact I].
      rewrite Htr2, Htr, <- app_assoc. reflexivity.
    + eexists _, _, _. split; [reflexivity|]. split.
      * rewrite Htr2, Htr, <- app_assoc. reflexivity.
      * eauto.
Qed.
End Fetch.

Section FetchFailure.
Context {World : Type} {env : Env World}.
Variable cfg : Config.
Implicit Types s : State World.

(** The loop awaits the fetch, then a random delay. *)
Lemma fetchAndWait_blocks t s :
  match getProfileStats t globalLogger (add_line (checkingLine t) s) with
  | (Ok r, s1) =>
      exists x d s2,
        fetchAndWait t s = (Ok r, s2)
        /\ trace s2 = trace s1 ++ [EvHost MathRandom x; EvHost (Delay d) tt]
  | (Throw e, s1) => fetchAndWait t s = (Throw e, s1)
  end.
Proof.
  unfold fetchAndWait. run_pure. rewrite run_bind. unfold checkingLine.
  destruct (getProfileStats _ _ _) as [[r|e] s1]; [|reflexivity].
  rewrite run_bind. unfold await.
  destruct (host MathRandom (world s1)) as [x w] eqn:Hx. cbv zeta. run_pure.
  rewrite run_bind.
  match goal with |- context [ host (Delay ?d) ?w0 ] =>
    destruct (host (Delay d) w0) as [[] w'] eqn:Hd; exists x, d end.
  eexists. split; [reflexivity|]. cbn [trace add_event set_world add_line].
  now rewrite <- app_assoc.
Qed.

(** C4 (amended): [getProfileStats] yields a snapshot only when the page
    was found available and public and both counts were read; in every
    other case it returns null, unless the screenshot taken in its [catch]
    block itself rejects, in which case that error leaves
    [getProfileStats] and the loop body.  When it returns null the loop
    skips the target: after the delay that follows the fetch nothing more
    is awaited, the snapshot map and the CSV file stay as they were, no
    file is written and no task or session is started. *)
Theorem failed_fetch_skips_target tm t s :
  let fetch := getProfileStats t globalLogger (add_line (checkingLine t) s) in
  let run := checkTarget cfg tm t s in
  match fst fetch with
  | Ok (Some stats) => fetchedFrom t stats (new_events s (snd fetch))
  | Ok None =>
      fst run = Ok tt
      /\ (exists x d, new_events s (snd run)
                      = new_events s (snd fetch) ++ [EvHost MathRandom x; EvHost (Delay d) tt])
      /\ profileStats (snd run) = profileStats s
      /\ profileStatsFile (snd run) = profileStatsFile s
      /\ fsWrites (new_events s (snd run)) = []
      /\ taskEvents (new_events s (snd run)) = []
      /\ sessionAccounts (new_events s (snd run)) = []
  | Throw e =>
      fst run = Throw e
      /\ exists pre, new_events s (snd fetch)
                     = pre ++ [EvOp (Screenshot (statsErrorScreenshot t)) (Throw e)]
  end.
Proof.
  intros fetch run. subst fetch run.
  pose proof (fetchAndWait_blocks t s) as Hb.
  destruct (getProfileStats_cases t globalLogger (add_line (checkingLine t) s))
    as (r & s1 & evs & Hg & Htr & Hcase).
  rewrite Hg in *. cbn [fst snd]. cbn [trace add_line] in Htr.
  rewrite (new_events_app _ _ _ Htr).
  destruct r as [[stats|]|e].
  - exact Hcase.
  - destruct Hb as (x & d & s2 & Hf & Htr2).
    destruct (null_stats_skip cfg tm t s s2 Hf) as (H1 & H2 & H3 & H4 & H5 & H6 & H7).
    split; [exact H1|]. split; [|auto].
    exists x, d. apply new_events_app. now rewrite H2, Htr2, Htr, <- app_assoc.
  - split; [|exact Hcase]. rewrite checkTarget_unfold, Hb. reflexivity.
Qed.
End FetchFailure.

(** C4 (amended), on a private profile and on a site out of reach: the
    fetch returns null and the target is skipped. *)
Lemma failed_fetch_skips_target_witness :
  let before := watching 5 100 in
  let tm := buildTargetMap (List.filter enabled (accounts onlyAlice)) in
  let fetch p := getProfileStats (env := scripted p) "nasa" globalLogger
                   (add_line (checkingLine "nasa") before) in
  let run p := checkTarget (env := scripted p) onlyAlice tm "nasa" before in
  (fst (fetch privateStats) = Ok None
   /\ fst (run privateStats) = Ok tt
   /\ profileStats (snd (run privateStats)) = profileStats before
   /\ fsWrites (new_events before (snd (run privateStats))) = []
   /\ taskEvents (new_events before (snd (run privateStats))) = [])
  /\ (fst (fetch unreachable) = Ok None
      /\ fst (run unreachable) = Ok tt
      /\ profileStats (snd (run unreachable)) = profileStats before
      /\ fsWrites (new_events before (snd (run unreachable))) = []
      /\ taskEvents (new_events before (snd (run unreachable))) = []).
Proof.
  cbv zeta. split.
  - pose proof (failed_fetch_skips_target (env := scripted privateStats) onlyAlice
                  (buildTargetMap (List.filter enabled (accounts onlyAlice))) "nasa"
                  (watching 5 100)) as H.
    cbv zeta in H.
    assert (Hnull : fst (getProfileStats (env := scripted privateStats) "nasa" globalLogger
                           (add_line (checkingLine "nasa") (watching 5 100))) = Ok None)
      by (vm_compute; reflexivity).
    rewrite Hnull in H. destruct H as (H1 & _ & H3 & _ & H5 & H6 & _). auto.
  - pose proof (failed_fetch_skips_target (env := scripted unreachable) onlyAlice
                  (buildTargetMap (List.filter enabled (accounts onlyAlice))) "nasa"
                  (watching 5 100)) as H.
    cbv zeta in H.
    assert (Hnull : fst (getProfileStats (env := scripted unreachable) "nasa" globalLogger
                           (add_line (checkingLine "nasa") (watching 5 100))) = Ok None)
      by (vm_compute; reflexivity).
    rewrite Hnull in H. destruct H as (H1 & _ & H3 & _ & H5 & H6 & _). auto.
Defined.

(** C4 as stated fails: with the browser gone the navigation rejects, the
    screenshot of the [catch] block rejects too, [getProfileStats] does not
    return null and the loop does not go on to the next target. *)
Lemma rejected_screenshot_escapes_getProfileStats :
  fst (fetchProfileStats (env := scripted offline) "nasa" globalLogger
         (add_line (checkingLine "nasa") started)) = Throw "rejected"
  /\ fst (getProfileStats (env := scripted offline) "nasa" globalLogger
            (add_line (checkingLine "nasa") started)) = Throw "rejected"
  /\ fst (getProfileStats (env := scripted offline) "nasa" globalLogger
            (add_line (checkingLine "nasa") started)) <> Ok None
  /\ fst (checkTarget (env := scripted offline) config [] "nasa" started) = Throw "rejected"
  /\ fst (forEach ["nasa"; "google"]
            (checkTarget (env := scripted offline) config []) started) = Throw "rejected".
Proof. vm_compute. repeat split; discriminate. Qed.

(* ===================================================================== *)
(** * [parseFollowerCount] *)
(* ===================================================================== *)

Section Rounding.
Variables prec emax : Z.

Lemma shr_exponent mrs e n : e <= snd (shr mrs e n).
Proof. destruct n; simpl; lia. Qed.

Lemma digits2_pos_shift m k :
  digits2_pos (Pos.iter xO m k) = (digits2_pos m + k)%positive.
Proof.
  induction k using Pos.peano_ind.
  - simpl. lia.
  - rewrite Pos.iter_succ. simpl. rewrite IHk. lia.
Qed.

Lemma Zpos_shift m k : Z.pos (Pos.iter xO m k) = Z.pos m * 2 ^ Z.pos k.
Proof.
  induction k using Pos.peano_ind.
  - simpl. lia.
  - rewrite Pos.iter_succ, Pos2Z.inj_xO, IHk, Pos2Z.inj_succ, Z.pow_succ_r by lia. lia.
Qed.

(** An integer rounded to a number is an integer, unless it overflows. *)
Lemma binary_round_integer sx mx :
  JS.isFinite (binary_round prec emax sx mx 0) = true ->
  JS.is_integer (binary_round prec emax sx mx 0) = true.
Proof.
  unfold binary_round, shl_align.
  destruct (fexp prec emax (Z.pos (digits2_pos mx) + 0) - 0) as [|d|d] eqn:Hf.
  3: { rewrite Z.add_0_r, Z.sub_0_r in Hf. rewrite Z.add_0_r, Hf.
       unfold binary_round_aux, shr_fexp. cbn [Zdigits2 shr_record_of_loc].
       rewrite digits2_pos_shift.
       replace (Z.pos (digits2_pos mx + d) + Z.neg d) with (Z.pos (digits2_pos mx)) by lia.
       rewrite Hf, Z.sub_diag. cbn [shr shr_m loc_of_shr_record round_nearest_even Zdigits2].
       rewrite digits2_pos_shift.
       replace (Z.pos (digits2_pos mx + d) + Z.neg d) with (Z.pos (digits2_pos mx)) by lia.
       rewrite Hf, Z.sub_diag. cbn [shr shr_m].
       destruct (Z.neg d <=? emax - prec); [|discriminate].
       intros _. cbn [JS.is_integer Z.leb Z.compare Z.opp].
       rewrite Zpos_shift, Z.mod_mul by lia. reflexivity. }
  all: unfold binary_round_aux;
    destruct (shr_fexp prec emax (Z.pos mx) 0 loc_Exact) as [mrs1 e1] eqn:H1;
    destruct (shr_fexp prec emax _ e1 loc_Exact) as [mrs2 e2] eqn:H2;
    assert (0 <= e2) by
      (pose proof (shr_exponent (shr_record_of_loc (Z.pos mx) loc_Exact) 0
                     (fexp prec emax (Zdigits2 (Z.pos mx) + 0) - 0)) as G1;
       unfold shr_fexp in H1, H2; rewrite H1 in G1; cbn [snd] in G1;
       match type of H2 with shr ?r ?e ?n = _ =>
         pose proof (shr_exponent r e n) as G2; rewrite H2 in G2; cbn [snd] in G2 end;
       lia);
    destruct (shr_m mrs2); [reflexivity| |discriminate];
    destruct (e2 <=? emax - prec); [|discriminate];
    intros _; cbn [JS.is_integer];
    destruct (0 <=? e2) eqn:He; [reflexivity|lia].
Qed.
End Rounding.

(** [Math.round] yields an integer, or leaves an infinity or NaN as it is. *)
Lemma Math_round_integer x :
  JS.isFinite (JS.Math_round x) = true -> JS.is_integer (JS.Math_round x) = true.
Proof.
  destruct x as [s|s| |s m e]; try (intros; reflexivity); try discriminate.
  unfold JS.Math_round. destruct (0 <=? e) eqn:He.
  - intros _. cbn [JS.is_integer]. now rewrite He.
  - unfold binary_normalize.
    destruct ((2 * (if s then Z.neg m else Z.pos m) + 2 ^ (- e)) / 2 ^ (1 - e));
      [reflexivity| |]; apply binary_round_integer.
Qed.

Lemma remove_all_includes c s : JS.includes (JS.remove_all c s) (String c EmptyString) = false.
Proof.
  induction s as [|d s IH]; [reflexivity|].
  cbn [JS.remove_all]. destruct (Ascii.eqb d c) eqn:Hd; [exact IH|].
  cbn [JS.includes String.prefix]. rewrite IH.
  destruct (ascii_dec c d) as [->|Hne]; [now rewrite Ascii.eqb_refl in Hd|reflexivity].
Qed.

Lemma toLowerCase_is_empty s : JS.is_empty (JS.toLowerCase s) = JS.is_empty s.
Proof. now destruct s. Qed.

(** C10: [parseFollowerCount] returns null exactly for the empty text and
    for a text whose cleaned form does not start with a number; otherwise,
    with [n] the number parsed from the cleaned form, it returns
    [round(n * 1000)] when the cleaned form contains [k],
    [round(n * 1000000)] when it contains [m] (and no [k]), and [n] itself
    when it contains neither.  The cleaned form has no comma, texts that
    differ only by case give the same result, and the result for an
    abbreviated text is an integer whenever it is finite. *)
Theorem parseFollowerCount_cases text :
  let cleaned := cleanedText text in
  let n := JS.parseFloat cleaned in
  (parseFollowerCount text = None <-> text = EmptyString \/ JS.isNaN n = true)
  /\ (JS.isNaN n = false -> JS.includes cleaned "k" = true ->
      parseFollowerCount text = Some (JS.Math_round (JS.mul n (JS.of_Z 1000))))
  /\ (JS.isNaN n = false -> JS.includes cleaned "k" = false -> JS.includes cleaned "m" = true ->
      parseFollowerCount text = Some (JS.Math_round (JS.mul n (JS.of_Z 1000000))))
  /\ (JS.isNaN n = false -> JS.includes cleaned "k" = false -> JS.includes cleaned "m" = false ->
      parseFollowerCount text = Some n)
  /\ JS.includes cleaned "," = false
  /\ (forall other, JS.toLowerCase other = JS.toLowerCase text ->
      parseFollowerCount other = parseFollowerCount text)
  /\ (forall r, parseFollowerCount text = Some r ->
      JS.includes cleaned "k" || JS.includes cleaned "m" = true ->
      JS.isFinite r = true -> JS.is_integer r = true).
Proof.
  intros cleaned n. subst cleaned n. unfold parseFollowerCount, cleanedText.
  assert (Hempty : JS.is_empty text = true ->
            JS.isNaN (JS.parseFloat (JS.remove_all "," (JS.trim (JS.toLowerCase text)))) = true)
    by (destruct text; [reflexivity|discriminate]).
  split; [|split; [|split; [|split; [|split; [|split]]]]].
  - destruct (JS.is_empty text) eqn:He.
    + split; [intros _; right; auto|reflexivity].
    + destruct (JS.isNaN _) eqn:Hn.
      * split; [intros _; now right|reflexivity].
      * split.
        -- repeat match goal with |- context [if ?b then _ else _] => destruct b end;
             discriminate.
        -- intros [->|]; discriminate.
  - intros Hn Hk. destruct (JS.is_empty text); [rewrite Hempty in Hn; [discriminate|reflexivity]|].
    now rewrite Hn, Hk.
  - intros Hn Hk Hm.
    destruct (JS.is_empty text); [rewrite Hempty in Hn; [discriminate|reflexivity]|].
    now rewrite Hn, Hk, Hm.
  - intros Hn Hk Hm.
    destruct (JS.is_empty text); [rewrite Hempty in Hn; [discriminate|reflexivity]|].
    now rewrite Hn, Hk, Hm.
  - apply remove_all_includes.
  - intros other Ho. rewrite <- (toLowerCase_is_empty other), <- (toLowerCase_is_empty text), Ho.
    reflexivity.
  - intros r Hr Hkm Hfin. destruct (JS.is_empty text); [discriminate|].
    destruct (JS.isNaN _); [discriminate|].
    destruct (JS.includes _ "k").
    + injection Hr as <-. now apply Math_round_integer.
    + cbn [orb] in Hkm. rewrite Hkm in Hr. injection Hr as <-. now apply Math_round_integer.
Qed.

(** C10 at [1.5K], [2.5M], [12,345], the empty text and a word. *)
Lemma parseFollowerCount_cases_witness :
  parseFollowerCount "1.5K" = Some (JS.of_Z 1500)
  /\ parseFollowerCount "2.5M" = Some (JS.of_Z 2500000)
  /\ parseFollowerCount "12,345" = Some (JS.of_Z 12345)
  /\ parseFollowerCount EmptyString = None
  /\ parseFollowerCount "followers" = None.
Proof.
  split; [|split; [|split; [|split]]].
  - destruct (parseFollowerCount_cases "1.5K") as (_ & Hk & _).
    rewrite Hk by (vm_compute; reflexivity). vm_compute. reflexivity.
  - destruct (parseFollowerCount_cases "2.5M") as (_ & _ & Hm & _).
    rewrite Hm by (vm_compute; reflexivity). vm_compute. reflexivity.
  - destruct (parseFollowerCount_cases "12,345") as (_ & _ & _ & Hp & _).
    rewrite Hp by (vm_compute; reflexivity). vm_compute. reflexivity.
  - destruct (parseFollowerCount_cases EmptyString) as ([_ Hnull] & _).
    apply Hnull. now left.
  - destruct (parseFollowerCount_cases "followers") as ([_ Hnull] & _).
    apply Hnull. right. vm_compute. reflexivity.
Defined.

(* ===================================================================== *)
(** * Fingerprints *)
(* ===================================================================== *)

Section Fingerprints.
Context {World : Type} {env : Env World}.
Variable cfg : Config.
Implicit Types s : State World.

Lemma fingerprint_Frame a f :
  Frame (World := World) (fingerprint_rel a f) (uses_fingerprint a f).
Proof. apply Frame_with; [apply emits_Frame | apply keeps_fingerprints_Frame]. Qed.

Lemma fingerprint_op a f X (op : Op X) r : bot_op op -> uses_fingerprint a f (EvOp op r).
Proof. destruct op; simpl; tauto. Qed.

Lemma fingerprint_host a f X (h : Host X) x : uses_fingerprint a f (EvHost h x).
Proof. exact I. Qed.

Lemma fingerprint_log a f entry : uses_fingerprint a f (EvFs (AppendInteractionLog entry)).
Proof. exact I. Qed.

Lemma steps_openSession_uses a l h f :
  steps (fingerprint_rel a f) (openSession cfg a l h f).
Proof.
  unfold openSession.
  pose proof (fingerprint_Frame a f). pose proof (fingerprint_op a f).
  pose proof (fingerprint_host a f). pose proof (fingerprint_log a f).
  frame (fingerprint_Frame a f) (fingerprint_op a f) (fingerprint_host a f).
  all: simpl; repeat split; try reflexivity; eauto.
  match goal with |- context [if ?c then _ else _] => destruct c end; auto.
Qed.

Lemma initializeBotSession_loaded a l h s f :
  fingerprintFiles s !! username a = Some f ->
  initializeBotSession cfg a l h s
  = openSession cfg a l h f
      (add_line (l, Info, "Loading fingerprint for " +:+ username a)
         (add_event (EvSession a) s)).
Proof.
  intros Hf. unfold initializeBotSession, emit, loadOrCreateFingerprint.
  rewrite run_modify_bind, run_bind, run_gets_bind.
  cbn [fingerprintFiles add_event]. rewrite Hf. run_pure. reflexivity.
Qed.

Lemma initializeBotSession_generated a l h s r rs w :
  fingerprintFiles s !! username a = None ->
  perform GenerateFingerprint (world s) = (r, rs, w) ->
  let s1 := deliver rs (add_event (EvOp GenerateFingerprint r)
              (set_world w (add_line (l, Info, "Generating new fingerprint for " +:+ username a)
                 (add_event (EvSession a) s)))) in
  initializeBotSession cfg a l h s
  = match r with
    | Ok g =>
        openSession cfg a l h g
          (set_fingerprintFiles (<[ username a := g ]> (fingerprintFiles s1))
             (add_event (EvFs (WriteFingerprint (username a) g)) s1))
    | Throw e => (Throw e, s1)
    end.
Proof.
  intros Hf Hp s1. subst s1. unfold initializeBotSession, emit, loadOrCreateFingerprint.
  rewrite run_modify_bind, run_bind, run_gets_bind.
  cbn [fingerprintFiles add_event]. rewrite Hf. run_pure.
  destruct r as [g|e].
  - run_ok Hp. rewrite run_modify_bind. reflexivity.
  - run_throw Hp. reflexivity.
Qed.

(** An established session launched a browser, created its context from
    [f] and scripted it from [f]. *)
Lemma openSession_established a l h f s session :
  fst (openSession cfg a l h f s) = Ok (Some session) ->
  exists browser rest,
    new_events s (snd (openSession cfg a l h f s))
    = EvOp (ChromiumLaunch (default (headless (settings cfg)) h)) (Ok browser)
      :: EvOp (NewContext browser
                 (contextOptions a f (bool_decide (username a ∈ cookieFiles s)))) (Ok tt)
      :: EvOp (AddInitScript (initScriptArgs f)) (Ok tt) :: rest.
Proof.
  unfold openSession. cbv zeta. run_any E1; [|discriminate].
  unfold try_catch. rewrite run_gets_bind.
  rewrite cookieFiles_deliver. cbn [cookieFiles add_event set_world].
  run_any E2.
  2: { run_pure. run_any E3; discriminate. }
  run_any E3.
  2: { run_pure. run_any E4; discriminate. }
  destruct a1, a2.
  match goal with |- context [ (new_InstagramBot ?x ?y ?z ≫= ?k) ?st ] =>
    assert (Hs : steps (session_rel a) (new_InstagramBot x y z ≫= k));
    [|specialize (Hs st);
      destruct ((new_InstagramBot x y z ≫= k) st) as [[r|e] s4] eqn:Hm]
  end.
  { pose proof (session_Frame (World := World) a) as HF. pose proof (session_op a).
    pose proof (session_host a). pose proof (session_log a).
    frame HF (session_op a) (session_host a). }
  2: { run_pure. run_any E4; discriminate. }
  intros _. destruct Hs as [(rest & Htr & _) _]. cbn [snd] in *.
  exists a0, rest. apply new_events_app. rewrite Htr. trace_norm.
  repeat rewrite <- app_assoc. reflexivity.
Qed.

(** A session of an account whose fingerprint is persisted runs on it. *)
Lemma loaded_session a l h s f :
  fingerprintFiles s !! username a = Some f ->
  let run := initializeBotSession cfg a l h s in
  fingerprintFiles (snd run) = fingerprintFiles s
  /\ Forall (uses_fingerprint a f) (new_events s (snd run))
  /\ (forall session, fst run = Ok (Some session) ->
      exists browser cookiesSaved rest,
        new_events s (snd run)
        = EvSession a
          :: EvOp (ChromiumLaunch (default (headless (settings cfg)) h)) (Ok browser)
          :: EvOp (NewContext browser (contextOptions a f cookiesSaved)) (Ok tt)
          :: EvOp (AddInitScript (initScriptArgs f)) (Ok tt) :: rest).
Proof.
  intros Hf run. subst run. rewrite (initializeBotSession_loaded _ _ _ _ _ Hf).
  set (s0 := add_line (l, Info, "Loading fingerprint for " +:+ username a)
               (add_event (EvSession a) s)).
  destruct (steps_openSession_uses a l h f s0) as [(evs & Htr & Hevs) Hk].
  assert (Hnew : new_events s (snd (openSession cfg a l h f s0)) = EvSession a :: evs).
  { apply new_events_app. rewrite Htr. subst s0. cbn [trace add_line add_event].
    rewrite <- app_assoc. reflexivity. }
  split; [exact Hk|]. split.
  - rewrite Hnew. constructor; [exact I | exact Hevs].
  - intros session Hs.
    destruct (openSession_established a l h f s0 session Hs) as (b & rest & Hest).
    exists b, (bool_decide (username a ∈ cookieFiles s0)), rest.
    rewrite Hnew. f_equal. rewrite <- Hest. symmetry. apply new_events_app. exact Htr.
Qed.

(** C8: a session of an account whose fingerprint is persisted loads it:
    the fingerprint files stay as they were, no fingerprint is generated
    or written, and every browser context of the session has the user
    agent, viewport, scale factor, locale, time zone, colour scheme and
    reduced-motion setting of the persisted fingerprint, every init script
    its hardware concurrency, device memory and WebGL strings (see
    [uses_fingerprint]; an established session has created and scripted
    one such context); the same holds for the session initialized next, so
    both run on the identical fingerprint.  Only when no fingerprint is
    persisted is one generated; it is then written under the name of the
    account before the browser is launched, and the session and the one
    initialized next run on it, without generating or writing another.  If
    the generator rejects, nothing is written. *)
Theorem fingerprint_load_or_create a l h s :
  let u := username a in
  let run := initializeBotSession cfg a l h s in
  let evs := new_events s (snd run) in
  let again f :=
    forall l' h',
      let next := initializeBotSession cfg a l' h' (snd run) in
      fingerprintFiles (snd next) = fingerprintFiles (snd run)
      /\ Forall (uses_fingerprint a f) (new_events (snd run) (snd next)) in
  match fingerprintFiles s !! u with
  | Some f =>
      fingerprintFiles (snd run) = fingerprintFiles s
      /\ Forall (uses_fingerprint a f) evs
      /\ (forall session, fst run = Ok (Some session) ->
          exists browser cookiesSaved rest,
            evs = EvSession a
                  :: EvOp (ChromiumLaunch (default (headless (settings cfg)) h)) (Ok browser)
                  :: EvOp (NewContext browser (contextOptions a f cookiesSaved)) (Ok tt)
                  :: EvOp (AddInitScript (initScriptArgs f)) (Ok tt) :: rest)
      /\ again f
  | None =>
      match fst (fst (perform GenerateFingerprint (world s))) with
      | Ok g =>
          fingerprintFiles (snd run) = <[ u := g ]> (fingerprintFiles s)
          /\ (exists rest,
                evs = EvSession a :: EvOp GenerateFingerprint (Ok g)
                        :: EvFs (WriteFingerprint u g) :: rest
                /\ Forall (uses_fingerprint a g) rest)
          /\ again g
      | Throw e =>
          fst run = Throw e
          /\ fingerprintFiles (snd run) = fingerprintFiles s
          /\ evs = [EvSession a; EvOp GenerateFingerprint (Throw e)]
      end
  end.
Proof.
  intros u run evs again. subst u run evs again. cbv beta.
  destruct (fingerprintFiles s !! username a) as [f|] eqn:Hf.
  - destruct (loaded_session a l h s f Hf) as (Hk & Hu & Hest).
    split; [exact Hk|]. split; [exact Hu|]. split; [exact Hest|].
    intros l' h'. cbv zeta.
    destruct (loaded_session a l' h' (snd (initializeBotSession cfg a l h s)) f)
      as (Hk' & Hu' & _); [rewrite Hk; exact Hf | auto].
  - destruct (perform GenerateFingerprint (world s)) as [[r rs] w] eqn:Hp.
    rewrite (initializeBotSession_generated a l h s r rs w Hf Hp). cbv zeta. cbn [fst].
    destruct r as [g|e].
    + match goal with |- context [ openSession cfg a l h g ?st ] =>
        destruct (steps_openSession_uses a l h g st) as [(rest & Htr & Hrest) Hk];
        set (s2 := snd (openSession cfg a l h g st)) in *;
        assert (Hfiles : fingerprintFiles s2 = <[ username a := g ]> (fingerprintFiles s))
      end.
      { rewrite Hk. cbn [fingerprintFiles set_fingerprintFiles].
        rewrite fingerprintFiles_deliver. reflexivity. }
      split; [exact Hfiles|]. split.
      * exists rest. split; [|exact Hrest].
        apply new_events_app. rewrite Htr.
        cbn [trace set_fingerprintFiles add_event]. rewrite trace_deliver.
        cbn [trace add_event set_world add_line]. repeat rewrite <- app_assoc. reflexivity.
      * intros l' h'. cbv zeta.
        destruct (loaded_session a l' h' s2 g) as (Hk' & Hu' & _);
          [rewrite Hfiles; apply lookup_insert_eq | auto].
    + cbn [fst snd]. split; [reflexivity|]. split.
      * rewrite fingerprintFiles_deliver. reflexivity.
      * apply new_events_app. rewrite trace_deliver.
        cbn [trace add_event set_world add_line]. rewrite <- app_assoc. reflexivity.
Qed.
End Fingerprints.

(** C8 with the fingerprint of the account on disk, where the session
    runs on it although the generator would give another one: its browser
    context has the user agent of the persisted fingerprint and its init
    script the WebGL strings; and with no fingerprint on disk, where the
    generated one is written and the next session runs on it. *)
Lemma fingerprint_load_or_create_witness :
  let loaded := initializeBotSession (env := scripted blank) config alice "alice" None
                  returning in
  let created := initializeBotSession (env := scripted blank) config alice "alice" None
                   initial in
  let next := initializeBotSession (env := scripted blank) config alice "alice" None
                (snd created) in
  (fingerprintFiles (snd loaded) = {[ "alice" := laptop ]}
   /\ Forall (uses_fingerprint alice laptop) (new_events returning (snd loaded))
   /\ exists browser options args rest,
        new_events returning (snd loaded)
        = EvSession alice :: EvOp (ChromiumLaunch true) (Ok browser)
          :: EvOp (NewContext browser options) (Ok tt)
          :: EvOp (AddInitScript args) (Ok tt) :: rest
        /\ ctxUserAgent options = "Mozilla/5.0 (Macintosh; Intel Mac OS X 10_15_7)"
        /\ argWebgl args = ("Apple", "Apple M1"))
  /\ (fingerprintFiles (snd created) = {[ "alice" := desktop ]}
      /\ fingerprintFiles (snd next) = {[ "alice" := desktop ]}
      /\ Forall (uses_fingerprint alice desktop) (new_events (snd created) (snd next))).
Proof.
  cbv zeta. split.
  - pose proof (fingerprint_load_or_create (env := scripted blank) config alice "alice" None
                  returning) as H.
    cbv zeta in H.
    assert (Hl : fingerprintFiles returning !! username alice = Some laptop)
      by (vm_compute; reflexivity).
    rewrite Hl in H. destruct H as (H1 & H2 & H3 & _).
    split; [exact H1|]. split; [exact H2|].
    assert (Hs : exists session,
               fst (initializeBotSession (env := scripted blank) config alice "alice" None
                      returning) = Ok (Some session))
      by (vm_compute; eexists; reflexivity).
    destruct Hs as [session Hs].
    destruct (H3 session Hs) as (browser & cookiesSaved & rest & Hevs).
    exists browser, (contextOptions alice laptop cookiesSaved), (initScriptArgs laptop), rest.
    split; [exact Hevs|]. split; reflexivity.
  - pose proof (fingerprint_load_or_create (env := scripted blank) config alice "alice" None
                  initial) as H.
    cbv zeta in H.
    assert (Hl : fingerprintFiles initial !! username alice = None)
      by (vm_compute; reflexivity).
    rewrite Hl in H.
    change (fst (fst (perform (Env := scripted blank) GenerateFingerprint (world initial))))
      with (Ok desktop) in H.
    destruct H as (H1 & _ & Hnext). destruct (Hnext "alice" None) as [H2 H3].
    assert (Hmap : <[ username alice := desktop ]> (fingerprintFiles initial)
                   = ({[ "alice" := desktop ]} : gmap string Fingerprint))
      by (apply insert_empty).
    rewrite Hmap in H1. split; [exact H1|]. split; [|exact H3].
    rewrite H2. exact H1.
Defined.

(* ===================================================================== *)
(** * Sessions of enabled accounts *)
(* ===================================================================== *)

Section EnabledSessions.
Context {World : Type} {env : Env World}.
Variable cfg : Config.
Implicit Types s : State World.

Lemma enabled_Frame : Frame (World := World) (emits session_enabled) session_enabled.
Proof. apply emits_Frame. Qed.

Lemma enabled_op X (op : Op X) r : bot_op op -> session_enabled (EvOp op r).
Proof. intros _. exact I. Qed.

Lemma enabled_host X (h : Host X) x : session_enabled (EvHost h x).
Proof. exact I. Qed.

Lemma enabled_log entry : session_enabled (EvFs (AppendInteractionLog entry)).
Proof. exact I. Qed.

Lemma session_event_enabled a e : enabled a = true -> session_event a e -> session_enabled e.
Proof. intros Ha. destruct e as [X op r|X h x|[]| | | |[]]; simpl; try tauto. now intros ->. Qed.

Lemma enabled_initializeBotSession a l h :
  enabled a = true -> steps (emits session_enabled) (initializeBotSession cfg a l h).
Proof.
  intros Ha. eapply steps_weaken; [|apply steps_initializeBotSession].
  intros s s' [He _]. eapply emits_weaken; [|exact He].
  intros e. now apply session_event_enabled.
Qed.

Lemma enabled_taskOnSession a t h session :
  enabled a = true -> steps (emits session_enabled) (taskOnSession a t h session).
Proof.
  intros Ha. eapply steps_weaken; [|apply steps_taskOnSession].
  intros s s' [He _]. eapply emits_weaken; [|exact He].
  intros e. now apply session_event_enabled.
Qed.

Lemma enabled_launchBotForTask a t h :
  enabled a = true -> steps (emits session_enabled) (launchBotForTask cfg a t h).
Proof.
  intros Ha. pose proof enabled_Frame as HF.
  pose proof (enabled_initializeBotSession a) as Hi.
  pose proof (enabled_taskOnSession a) as Ht.
  unfold launchBotForTask. frame HF enabled_op enabled_host.
  all: try (apply (steps_emit _ _ HF); exact I).
  all: auto.
Qed.

Lemma enabled_fetchAndWait t : steps (emits session_enabled) (fetchAndWait t).
Proof.
  eapply steps_weaken; [|apply steps_fetchAndWait].
  intros s s' [He _]. eapply emits_weaken; [|exact He].
  intros e. destruct e as [X op r|X h x|[]| | | |[]]; simpl; tauto.
Qed.

Lemma enabled_waitBeforeNextBot : steps (emits session_enabled) waitBeforeNextBot.
Proof. unfold waitBeforeNextBot. frame enabled_Frame enabled_op enabled_host. Qed.

Lemma enabled_runTasks tasks total t b :
  Forall (fun a => enabled a = true) tasks ->
  steps (emits session_enabled) (runTasks cfg tasks total t b).
Proof.
  intros Hall. revert b. induction Hall as [|a tasks Ha _ IH]; intros b.
  - apply (steps_ret _ _ enabled_Frame).
  - pose proof enabled_Frame as HF. pose proof (enabled_launchBotForTask a) as Hl.
    pose proof enabled_waitBeforeNextBot as Hw.
    cbn [runTasks]. frame HF enabled_op enabled_host.
    all: auto.
Qed.

Lemma enabled_writeProfileStatsFile content :
  steps (World := World) (emits session_enabled) (writeProfileStatsFile content).
Proof.
  intros s. exists [EvFs (WriteProfileStats content)].
  split; [reflexivity | repeat constructor].
Qed.

Lemma enabled_set_profileStats stats s : emits session_enabled s (set_profileStats stats s).
Proof. now apply emits_same_trace. Qed.

Lemma enabled_updateProfileStatsInCsv u p f :
  steps (World := World) (emits session_enabled) (updateProfileStatsInCsv u p f).
Proof.
  pose proof enabled_Frame as HF. pose proof enabled_writeProfileStatsFile as Hw.
  unfold updateProfileStatsInCsv. frame HF enabled_op enabled_host.
Qed.

Lemma enabled_commitStats t cur : steps (World := World) (emits session_enabled) (commitStats t cur).
Proof.
  pose proof enabled_Frame as HF. pose proof enabled_updateProfileStatsInCsv as Hu.
  unfold commitStats. frame HF enabled_op enabled_host.
  apply steps_modify. intros s. apply enabled_set_profileStats.
Qed.

Lemma enabled_loadProfileStatsFromCsv :
  steps (World := World) (emits session_enabled) loadProfileStatsFromCsv.
Proof.
  pose proof enabled_Frame as HF. pose proof enabled_writeProfileStatsFile as Hw.
  unfold loadProfileStatsFromCsv. frame HF enabled_op enabled_host.
Qed.

Lemma enabled_forEach {A} (l : list A) (f : A -> M World unit) :
  (forall x, steps (emits session_enabled) (f x)) ->
  steps (emits session_enabled) (forEach l f).
Proof.
  intros Hf. induction l as [|x l IH]; cbn [forEach].
  - apply (steps_ret _ _ enabled_Frame).
  - apply (steps_bind _ _ enabled_Frame); auto.
Qed.

Lemma enabled_compareStats t cur :
  steps (emits session_enabled)
    (compareStats cfg (buildTargetMap (List.filter enabled (accounts cfg))) t cur).
Proof.
  pose proof enabled_Frame as HF. pose proof enabled_commitStats as Hc.
  pose proof (enabled_runTasks (subscriptions cfg t) (length (subscriptions cfg t)) t true
                (subscriptions_enabled cfg t)) as Hr.
  unfold compareStats. fold (tasksFor (buildTargetMap (List.filter enabled (accounts cfg))) t).
  rewrite tasksFor_buildTargetMap.
  frame HF enabled_op enabled_host.
Qed.

Lemma enabled_checkTarget t :
  steps (emits session_enabled)
    (checkTarget cfg (buildTargetMap (List.filter enabled (accounts cfg))) t).
Proof.
  pose proof enabled_Frame as HF. pose proof enabled_fetchAndWait as Hf.
  pose proof enabled_compareStats as Hc.
  unfold checkTarget. frame HF enabled_op enabled_host.
Qed.

Lemma enabled_monitorLoop cycles :
  steps (emits session_enabled)
    (monitorLoop cfg cycles (buildTargetMap (List.filter enabled (accounts cfg)))).
Proof.
  pose proof enabled_Frame as HF.
  induction cycles as [|n IH]; cbn [monitorLoop].
  - apply (steps_ret _ _ HF).
  - apply (steps_bind _ _ HF); [|intros; exact IH].
    pose proof (enabled_forEach
                  (map fst (buildTargetMap (List.filter enabled (accounts cfg))))
                  _ enabled_checkTarget) as Hl.
    unfold monitoringCycle. frame HF enabled_op enabled_host.
Qed.

Lemma enabled_warnSharedTargets tm :
  steps (World := World) (emits session_enabled) (warnSharedTargets tm).
Proof.
  pose proof (enabled_Frame) as HF.
  unfold warnSharedTargets. frame HF enabled_op enabled_host.
  apply enabled_forEach. intros x. apply (steps_log _ _ HF).
Qed.

Lemma enabled_monitorWith browser body :
  steps (emits session_enabled) body ->
  steps (emits session_enabled) (monitorWith browser body).
Proof.
  intros Hb s. unfold monitorWith. specialize (Hb s).
  destruct (body s) as [[[]|e] s1]; [exact Hb|].
  eapply (emits_trans _ _ _ _ Hb).
  match goal with |- emits _ _ (snd (?m s1)) =>
    assert (Hm : steps (emits session_enabled) m)
      by (frame enabled_Frame enabled_op enabled_host);
    apply Hm
  end.
Qed.

Lemma enabled_head (a : AccountConfig) rest :
  List.filter enabled (accounts cfg) = a :: rest -> enabled a = true.
Proof.
  intros H. assert (Hin : In a (List.filter enabled (accounts cfg))) by (rewrite H; now left).
  now apply filter_In in Hin.
Qed.

Lemma enabled_runMonitorMode cycles :
  steps (emits session_enabled) (runMonitorMode cfg cycles).
Proof.
  pose proof enabled_Frame as HF. pose proof enabled_warnSharedTargets as Hw.
  pose proof enabled_loadProfileStatsFromCsv as Hl.
  pose proof (enabled_monitorLoop cycles) as Hloop.
  unfold runMonitorMode. cbv zeta.
  destruct (List.filter enabled (accounts cfg)) as [|monitorAccount rest] eqn:He.
  { frame HF enabled_op enabled_host. }
  pose proof (enabled_initializeBotSession monitorAccount
                (username monitorAccount +:+ "-MONITOR") (Some (headless (settings cfg)))
                (enabled_head _ _ He)) as Hi.
  apply (steps_bind _ _ HF); [apply (steps_log _ _ HF)|intros _].
  apply (steps_bind _ _ HF); [apply Hw|intros _].
  destruct (_ =? _)%nat; [frame HF enabled_op enabled_host|].
  apply (steps_bind _ _ HF); [apply (steps_log _ _ HF)|intros _].
  apply (steps_bind _ _ HF); [apply (steps_log _ _ HF)|intros _].
  apply (steps_bind _ _ HF); [exact Hi|intros [[browser bot]|]].
  - apply enabled_monitorWith.
    apply (steps_bind _ _ HF); [exact Hl|intros stats].
    apply (steps_bind _ _ HF); [|intros _; exact Hloop].
    apply steps_modify. intros s. apply enabled_set_profileStats.
  - frame HF enabled_op enabled_host.
Qed.

Lemma enabled_checkAccounts total index remaining :
  Forall (fun a => enabled a = true) remaining ->
  steps (emits session_enabled) (checkAccounts cfg total index remaining).
Proof.
  intros Hall. revert index. induction Hall as [|a remaining Ha _ IH]; intros index.
  - apply (steps_ret _ _ enabled_Frame).
  - pose proof enabled_Frame as HF.
    pose proof (enabled_initializeBotSession a (username a) (Some false) Ha) as Hi.
    cbn [checkAccounts]. frame HF enabled_op enabled_host.
    all: auto.
Qed.

Lemma enabled_runCheckAccountsMode :
  steps (emits session_enabled) (runCheckAccountsMode cfg).
Proof.
  pose proof enabled_Frame as HF.
  assert (Hall : Forall (fun a => enabled a = true) (List.filter enabled (accounts cfg))).
  { apply Forall_forall. intros a Ha. apply list_elem_of_In, filter_In in Ha. tauto. }
  unfold runCheckAccountsMode. cbv zeta.
  destruct (List.filter enabled (accounts cfg)) as [|a rest] eqn:He;
    [frame HF enabled_op enabled_host|].
  pose proof (enabled_checkAccounts (length (a :: rest)) 0 (a :: rest) Hall) as Hc.
  frame HF enabled_op enabled_host.
Qed.

Lemma enabled_testCommentWith (accountToUse : option AccountConfig) :
  (forall a, accountToUse = Some a -> enabled a = true) ->
  steps (emits session_enabled) (testCommentWith cfg accountToUse).
Proof.
  intros Ha. pose proof enabled_Frame as HF. unfold testCommentWith.
  destruct accountToUse as [a|]; [|frame HF enabled_op enabled_host].
  pose proof (enabled_launchBotForTask a) as Hl. specialize (Ha a eq_refl).
  frame HF enabled_op enabled_host. all: auto.
Qed.

Lemma enabled_runTestCommentMode testUsername :
  steps (emits session_enabled) (runTestCommentMode cfg testUsername).
Proof.
  pose proof enabled_Frame as HF. unfold runTestCommentMode. cbv zeta.
  apply (steps_bind _ _ HF); [apply (steps_log _ _ HF)|intros _].
  destruct (JS.truthy testUsername).
  - apply (steps_bind _ _ HF); [apply (steps_log _ _ HF)|intros _].
    destruct (find _ _) as [account|]; [|apply (steps_log _ _ HF)].
    destruct (enabled account) eqn:Ha; cbn [negb]; [|apply (steps_log _ _ HF)].
    apply enabled_testCommentWith. now intros a [= <-].
  - apply (steps_bind _ _ HF); [apply (steps_log _ _ HF)|intros _].
    apply enabled_testCommentWith. intros a Hfind.
    apply find_some in Hfind. tauto.
Qed.

Lemma enabled_sessionAccounts evs :
  Forall session_enabled evs -> Forall (fun a => enabled a = true) (sessionAccounts evs).
Proof.
  induction 1 as [|e evs He _ IH]; [constructor|].
  unfold sessionAccounts in *. destruct e; simpl; auto.
Qed.

(** C9: in monitor mode (over any number of cycles), in test-comment mode
    and in check-accounts mode, every account for which
    [initializeBotSession] is entered has its [enabled] flag set; and a
    test-comment request that names a disabled account returns after its
    error line, with no session, no launch and no other event. *)
Theorem sessions_only_for_enabled_accounts s :
  let enabledOnly (s' : State World) :=
    Forall (fun a => enabled a = true) (sessionAccounts (new_events s s')) in
  (forall cycles, enabledOnly (snd (runMonitorMode cfg cycles s)))
  /\ (forall testUsername, enabledOnly (snd (runTestCommentMode cfg testUsername s)))
  /\ enabledOnly (snd (runCheckAccountsMode cfg s))
  /\ (forall name account,
        name <> EmptyString ->
        find (fun acc => String.eqb (username acc) name) (accounts cfg) = Some account ->
        enabled account = false ->
        fst (runTestCommentMode cfg (Some name) s) = Ok tt
        /\ new_events s (snd (runTestCommentMode cfg (Some name) s)) = []).
Proof.
  assert (Hmode : forall A (m : M World A),
            steps (emits session_enabled) m ->
            Forall (fun a => enabled a = true) (sessionAccounts (new_events s (snd (m s))))).
  { intros A m Hm. destruct (Hm s) as (evs & Htr & Hevs).
    rewrite (new_events_app _ _ _ Htr). now apply enabled_sessionAccounts. }
  cbv zeta. split; [|split; [|split]].
  - intros cycles. apply Hmode, enabled_runMonitorMode.
  - intros testUsername. apply Hmode, enabled_runTestCommentMode.
  - apply Hmode, enabled_runCheckAccountsMode.
  - intros name account Hname Hfind Hdis. unfold runTestCommentMode.
    assert (Ht : JS.truthy (Some name) = true) by (destruct name; [congruence|reflexivity]).
    rewrite Ht. cbv zeta. cbn [default from_option id]. run_pure.
    rewrite Hfind, Hdis. cbn [negb]. unfold log, modify. cbn [fst snd].
    split; [reflexivity|]. apply new_events_app. cbn [trace add_line].
    now rewrite app_nil_r.
Qed.
End EnabledSessions.

(** C9 with a disabled account listed before an enabled one: a test
    comment for the disabled one is refused, and one monitoring cycle that
    sees a new post starts the monitor session and the task session, both
    of the enabled account. *)
Lemma sessions_only_for_enabled_accounts_witness :
  let before := watching 5 100 in
  let monitor := runMonitorMode (env := scripted sixPosts) carolAndAlice 1 before in
  let test := runTestCommentMode (env := scripted sixPosts) carolAndAlice (Some "carol") before in
  fst test = Ok tt
  /\ new_events before (snd test) = []
  /\ sessionAccounts (new_events before (snd monitor)) = [alice; alice]
  /\ Forall (fun a => enabled a = true) (sessionAccounts (new_events before (snd monitor))).
Proof.
  destruct (sessions_only_for_enabled_accounts (env := scripted sixPosts) carolAndAlice
              (watching 5 100)) as (Hmonitor & _ & _ & Hrefused).
  destruct (Hrefused "carol" carol) as [Hr He]; [discriminate | reflexivity | reflexivity |].
  cbv zeta. split; [exact Hr|]. split; [exact He|].
  split; [vm_compute; reflexivity | apply Hmonitor].
Defined.

(* ===================================================================== *)
(** * The target map *)
(* ===================================================================== *)

Section TargetMapKeys.
Implicit Types m : TargetMap.

Lemma keys_push m k a :
  map fst (tm_push m k a)
  = if existsb (fun k' => String.eqb k' k) (map fst m) then map fst m else map fst m ++ [k].
Proof.
  induction m as [|[k' tasks] rest IH]; [reflexivity|].
  cbn [tm_push map fst existsb]. destruct (String.eqb k' k); cbn [orb map fst]; [reflexivity|].
  rewrite IH. now destruct (existsb _ _).
Qed.

Lemma keys_push_In m k a t : In t (map fst (tm_push m k a)) <-> In t (map fst m) \/ t = k.
Proof.
  rewrite keys_push. destruct (existsb _ _) eqn:He.
  - apply existsb_exists in He as (k' & Hin & Heq). apply String.eqb_eq in Heq. subst k'.
    split; [tauto | intros [H| ->]; assumption].
  - rewrite in_app_iff. simpl. intuition.
Qed.

Lemma keys_push_NoDup m k a : NoDup (map fst m) -> NoDup (map fst (tm_push m k a)).
Proof.
  intros Hnd. rewrite keys_push. destruct (existsb _ _) eqn:He; [exact Hnd|].
  apply NoDup_app. split; [exact Hnd|]. split; [|apply NoDup_singleton].
  intros x Hx Hk. apply list_elem_of_In in Hx. apply list_elem_of_In in Hk as [<-|[]].
  assert (existsb (fun k' => String.eqb k' k) (map fst m) = true); [|congruence].
  apply existsb_exists. exists k. split; [exact Hx | apply String.eqb_refl].
Qed.

Lemma tasks_push_nonempty m k a :
  Forall (fun entry => snd entry <> []) m ->
  Forall (fun entry => snd entry <> []) (tm_push m k a).
Proof.
  induction 1 as [|[k' tasks] rest Hne Hrest IH]; cbn [tm_push].
  - repeat constructor. discriminate.
  - destruct (String.eqb k' k); constructor; auto; simpl.
    all: try (intros Happ; apply app_eq_nil in Happ as [_ Happ]; discriminate Happ).
    all: assumption.
Qed.

Lemma tm_get_None m t : tm_get m t = None <-> ~ In t (map fst m).
Proof.
  induction m as [|[k tasks] rest IH]; simpl; [tauto|].
  destruct (String.eqb_spec k t) as [->|Hne]; [split; [discriminate | tauto]|].
  rewrite IH. tauto.
Qed.

Lemma tm_get_In m t tasks : tm_get m t = Some tasks -> In (t, tasks) m.
Proof.
  induction m as [|[k ts] rest IH]; simpl; [discriminate|].
  destruct (String.eqb_spec k t) as [->|Hne]; [intros [= ->]; now left | auto].
Qed.

(** X1: the target map has one key per target that some account given to
    it lists, and no other key; no key occurs twice; the task list of a key
    is never empty; and a lookup misses exactly for the targets that no
    account lists. *)
Theorem targetMap_keys (accs : list AccountConfig) :
  let tm := buildTargetMap accs in
  NoDup (map fst tm)
  /\ (forall t, In t (map fst tm) <-> exists a, In a accs /\ In t (targets a))
  /\ Forall (fun entry => snd entry <> []) tm
  /\ (forall t, tm_get tm t = None <-> ~ exists a, In a accs /\ In t (targets a))
  /\ (forall t tasks, tm_get tm t = Some tasks -> tasks <> []).
Proof.
  cbv zeta.
  assert (Hinner : forall a ts m,
            let m' := fold_left (fun m t => tm_push m t a) ts m in
            (NoDup (map fst m) -> NoDup (map fst m'))
            /\ (forall t, In t (map fst m') <-> In t (map fst m) \/ In t ts)
            /\ (Forall (fun entry => snd entry <> []) m ->
                Forall (fun entry => snd entry <> []) m')).
  { intros a ts. induction ts as [|t0 ts IH]; intros m; cbn [fold_left].
    - split; [auto|]. split; [simpl; tauto | auto].
    - destruct (IH (tm_push m t0 a)) as (I1 & I2 & I3). cbv zeta in *.
      split; [intros; apply I1; now apply keys_push_NoDup|].
      split; [|intros; apply I3; now apply tasks_push_nonempty].
      intros t. rewrite I2, keys_push_In. simpl. intuition. }
  assert (Houter : forall l m,
            let m' := fold_left
                        (fun m account =>
                           fold_left (fun m targetUsername => tm_push m targetUsername account)
                                     (targets account) m) l m in
            (NoDup (map fst m) -> NoDup (map fst m'))
            /\ (forall t, In t (map fst m')
                          <-> In t (map fst m) \/ exists a, In a l /\ In t (targets a))
            /\ (Forall (fun entry => snd entry <> []) m ->
                Forall (fun entry => snd entry <> []) m')).
  { induction l as [|a l IH]; intros m; cbn [fold_left].
    - split; [auto|]. split; [|auto]. intros t. split; [tauto|].
      intros [H|(a & [] & _)]; exact H.
    - destruct (Hinner a (targets a) m) as (J1 & J2 & J3).
      destruct (IH (fold_left (fun m t => tm_push m t a) (targets a) m)) as (I1 & I2 & I3).
      cbv zeta in *. split; [auto|]. split; [|auto].
      intros t. rewrite I2, J2. split.
      + intros [[H|H]|(b & Hb & Ht)]; [tauto | right; exists a; simpl; auto
                                       | right; exists b; simpl; auto].
      + intros [H|(b & [<-|Hb] & Ht)]; [tauto | tauto | right; eauto]. }
  destruct (Houter accs []) as (H1 & H2 & H3). cbv zeta in *. unfold buildTargetMap.
  assert (Hkeys : forall t,
            In t (map fst (fold_left
                    (fun m account =>
                       fold_left (fun m targetUsername => tm_push m targetUsername account)
                                 (targets account) m) accs []))
            <-> exists a, In a accs /\ In t (targets a)).
  { intros t. rewrite H2. simpl. tauto. }
  split; [apply H1; constructor|]. split; [exact Hkeys|].
  split; [apply H3; constructor|]. split.
  - intros t. rewrite tm_get_None, Hkeys. tauto.
  - intros t tasks Hget. apply tm_get_In in Hget.
    pose proof (H3 ltac:(constructor)) as Hne. rewrite Forall_forall in Hne.
    apply (Hne (t, tasks)). now apply list_elem_of_In.
Qed.
End TargetMapKeys.

(* ===================================================================== *)
(** * The [response] listener *)
(* ===================================================================== *)

Section Listener.
Context {World : Type} {env : Env World}.
Implicit Types s : State World.

Lemma isVideoResponse_url r : isVideoResponse r = true -> JS.truthy (Some (url r)) = true.
Proof.
  unfold isVideoResponse. destruct (contentType r); [|discriminate].
  destruct (url r); [|reflexivity].
  cbn. rewrite !andb_false_r. discriminate.
Qed.

Lemma deliver_closed rs s :
  isCapturingVideo s = false \/ JS.truthy (capturedVideoUrl s) = true ->
  deliver rs s = s.
Proof.
  intros H. induction rs as [|r rs IH]; [reflexivity|].
  cbn [deliver fold_left]. fold (deliver rs (onResponse r s)).
  assert (Hr : onResponse r s = s).
  { unfold onResponse. destruct H as [-> | H]; [reflexivity|].
    destruct (isCapturingVideo s); [simpl; now rewrite H | reflexivity]. }
  rewrite Hr. exact IH.
Qed.

(** X2: the listener keeps the URL of the first response that is an
    [video/mp4] answer from the CDN, and only while the capture window is
    open and no URL is held: later responses never replace a captured URL,
    and outside the window nothing is captured. *)
Theorem first_video_response_wins rs s :
  capturedVideoUrl (deliver rs s)
  = (if isCapturingVideo s && negb (JS.truthy (capturedVideoUrl s))
     then match find isVideoResponse rs with
          | Some r => Some (url r)
          | None => capturedVideoUrl s
          end
     else capturedVideoUrl s)
  /\ isCapturingVideo (deliver rs s) = isCapturingVideo s
  /\ trace (deliver rs s) = trace s
  /\ (forall later,
        JS.truthy (capturedVideoUrl (deliver rs s)) = true ->
        capturedVideoUrl (deliver later (deliver rs s)) = capturedVideoUrl (deliver rs s)).
Proof.
  split; [|split; [apply isCapturingVideo_deliver|split; [apply trace_deliver|]]].
  - destruct (isCapturingVideo s) eqn:Hc; cbn [andb];
      [|now rewrite deliver_closed by auto].
    destruct (JS.truthy (capturedVideoUrl s)) eqn:Ht; cbn [negb];
      [now rewrite deliver_closed by auto|].
    revert s Hc Ht. induction rs as [|r rs IH]; intros s Hc Ht; [reflexivity|].
    cbn [deliver fold_left find]. fold (deliver rs (onResponse r s)).
    assert (Hr : onResponse r s
                 = if isVideoResponse r then set_capturedVideoUrl (Some (url r)) s else s).
    { unfold onResponse, isVideoResponse. rewrite Hc, Ht. cbn [negb].
      destruct (contentType r); reflexivity. }
    rewrite Hr. destruct (isVideoResponse r) eqn:Hv.
    + rewrite deliver_closed; [reflexivity|].
      right. cbn [capturedVideoUrl set_capturedVideoUrl]. now apply isVideoResponse_url.
    + now apply IH.
  - intros later Ht. rewrite deliver_closed; auto.
Qed.
End Listener.

(* ===================================================================== *)
(** * The snapshot file *)
(* ===================================================================== *)

Section SnapshotFile.
Context {World : Type} {env : Env World}.
Implicit Types s : State World.

Lemma update_writes u p f s content :
  profileStatsFile s = Some content ->
  updateProfileStatsInCsv u p f s
  = (Ok tt, set_profileStatsFile (Some (updatedContent u p f content))
              (add_event (EvFs (WriteProfileStats (updatedContent u p f content))) s)).
Proof.
  intros H. unfold updateProfileStatsInCsv, try_catch. rewrite run_gets_bind, H. reflexivity.
Qed.


Lemma load_run_some s content w :
  profileStatsFile s = Some content ->
  refuse ReadFileSync (world s) = (None, w) ->
  loadProfileStatsFromCsv s
  = (Ok (readBack content),
     add_line (globalLogger, Info,
               "Loaded existing profile stats from data/logs/profile_stats.csv")
       (set_world w s)).
Proof.
  intros H Hr. unfold loadProfileStatsFromCsv. rewrite run_gets_bind, H.
  unfold try_catch. rewrite run_bind. unfold fs. rewrite Hr. reflexivity.
Qed.

Lemma load_run_refused s content e w :
  profileStatsFile s = Some content ->
  refuse ReadFileSync (world s) = (Some e, w) ->
  loadProfileStatsFromCsv s
  = (Ok ∅,
     set_profileStatsFile (Some CSV_HEADER)
       (add_event (EvFs (WriteProfileStats CSV_HEADER))
          (add_line (startingFresh e)
             (add_event (EvRefused ReadFileSync e) (set_world w s))))).
Proof.
  intros H Hr. unfold loadProfileStatsFromCsv. rewrite run_gets_bind, H.
  unfold try_catch. rewrite run_bind. unfold fs. rewrite Hr. reflexivity.
Qed.

(** What a load returns for a file that is there, according to whether the
    file system lets the read through. *)
Lemma load_reads s content :
  profileStatsFile s = Some content ->
  fst (loadProfileStatsFromCsv s)
  = Ok (match fst (refuse ReadFileSync (world s)) with
        | None => readBack content
        | Some _ => ∅
        end).
Proof.
  intros H. destruct (refuse ReadFileSync (world s)) as [[e|] w] eqn:Hr.
  - now rewrite (load_run_refused s content e w H Hr).
  - now rewrite (load_run_some s content w H Hr).
Qed.


(** X4: an update of one user leaves the entries of all other users as
    they load: what is read back for another user after the update is what
    was read for that user before.  The user name and the printed counts
    are non-empty and free of commas and newlines, and the first line of
    the file (the header) is not blank. *)
Theorem snapshot_update_keeps_others u p f s content :
  csvField u -> csvField (Number_toString p) -> csvField (Number_toString f) ->
  profileStatsFile s = Some content ->
  JS.is_empty (JS.trim (JS.first_field (ascii_of_nat 10) content)) = false ->
  let saved := snd (updateProfileStatsInCsv u p f s) in
  exists before after,
    fst (loadProfileStatsFromCsv s) = Ok before
    /\ fst (loadProfileStatsFromCsv saved) = Ok after
    /\ forall other, other <> u -> after !! other = before !! other.
Proof.
  intros Hu Hp Hf Hfile Hheader saved. subst saved.
  rewrite (update_writes u p f s content Hfile). cbn [snd].
  eexists _, _. split; [exact (load_reads s content Hfile)|].
  split; [apply load_reads; reflexivity|].
  cbn [world set_profileStatsFile add_event].
  destruct (fst (refuse ReadFileSync (world s))); [reflexivity|].
  now apply (loaded_after_update u p f content Hu Hp Hf Hheader).
Qed.

(** X5: [updateProfileStatsInCsv] never throws.  When the file is not
    there it writes nothing and prints an error line, so that a commit
    changes the snapshot in memory and leaves no file behind. *)
Theorem update_without_file u (cur : ProfileStats) s :
  fst (updateProfileStatsInCsv u (postCount cur) (followerCount cur) s) = Ok tt
  /\ fst (commitStats u cur s) = Ok tt
  /\ (profileStatsFile s = None ->
      let run := commitStats u cur s in
      profileStats (snd run) = <[ u := cur ]> (profileStats s)
      /\ profileStatsFile (snd run) = None
      /\ new_events s (snd run) = []
      /\ console (snd run)
         = console s
           ++ [(globalLogger, Error,
                "Failed to update profile stats for @" +:+ u +:+ " in CSV: "
                +:+ "ENOENT: no such file or directory, open 'data/logs/profile_stats.csv'")]).
Proof.
  unfold commitStats. rewrite run_modify_bind.
  unfold updateProfileStatsInCsv, try_catch. rewrite !run_gets_bind.
  cbn [profileStatsFile set_profileStats].
  destruct (profileStatsFile s) as [content|] eqn:Hfile; unfold throw, log, modify;
    cbn [fst snd].
  - split; [reflexivity|]. split; [reflexivity | discriminate].
  - split; [reflexivity|]. split; [reflexivity|]. intros _.
    cbn [profileStats profileStatsFile console add_line set_profileStats].
    split; [reflexivity|]. split; [exact Hfile|].
    split; [apply new_events_app; simpl; now rewrite app_nil_r | reflexivity].
Qed.

End SnapshotFile.


(** X4 on a file with two users: after the update of [nasa], [google]
    still loads with 3 posts and 50 followers. *)
Lemma snapshot_update_keeps_others_witness :
  exists after,
    fst (loadProfileStatsFromCsv (env := scripted blank)
           (snd (updateProfileStatsInCsv (env := scripted blank) "nasa"
                   (JS.of_Z 6) (JS.of_Z 100) twoSnapshots))) = Ok after
    /\ after !! "google" = Some (stats 3 50).
Proof.
  destruct (snapshot_update_keeps_others (env := scripted blank) "nasa"
              (JS.of_Z 6) (JS.of_Z 100) twoSnapshots
              ("username,post_count,follower_count" +:+ nl +:+ "nasa,5,100" +:+ nl
               +:+ "google,3,50" +:+ nl))
    as (before & after & Hb & Ha & Hkeep);
    [repeat split; vm_compute; reflexivity | repeat split; vm_compute; reflexivity
    | repeat split; vm_compute; reflexivity | vm_compute; reflexivity
    | vm_compute; reflexivity |].
  exists after. split; [exact Ha|]. rewrite (Hkeep "google") by discriminate.
  rewrite (load_reads twoSnapshots _ eq_refl) in Hb. injection Hb as <-.
  vm_compute. reflexivity.
Defined.

(* ===================================================================== *)
(** * Browsers *)
(* ===================================================================== *)

Section Browsers.
Context {World : Type} {env : Env World}.
Variable cfg : Config.
Implicit Types s : State World.

Lemma plain_Frame : Frame (World := World) (emits plain) plain.
Proof. apply emits_Frame. Qed.

Lemma plain_op X (op : Op X) r : bot_op op -> plain (EvOp op r).
Proof. destruct op; simpl; tauto. Qed.

Lemma plain_host X (h : Host X) x : plain (EvHost h x).
Proof. exact I. Qed.

Lemma plain_log entry : plain (EvFs (AppendInteractionLog entry)).
Proof. exact I. Qed.

Lemma plain_refused entry e : plain (EvRefused (AppendFileSync entry) e).
Proof. exact I. Qed.

Lemma browserLog_app l1 l2 : browserLog (l1 ++ l2) = browserLog l1 ++ browserLog l2.
Proof. apply flat_map_app. Qed.

Lemma openedAndClosed_app l1 l2 :
  openedAndClosed (l1 ++ l2) = openedAndClosed l1 ++ openedAndClosed l2.
Proof. apply flat_map_app. Qed.

Lemma plain_summary evs :
  Forall plain evs ->
  browserLog evs = [] /\ sessionAccounts evs = []
  /\ taskEvents evs = [] /\ launchedAccounts evs = [].
Proof.
  induction 1 as [|e evs He _ (I1 & I3 & I4 & I5)]; [now repeat split|].
  unfold browserLog, sessionAccounts, taskEvents, launchedAccounts in *.
  destruct e as [X op r|X h x|w| | | |c m]; try (now destruct He);
    cbn [flat_map List.filter app]; rewrite ?I1, ?I3, ?I4, ?I5; try tauto.
  destruct op; try (now destruct He); tauto.
Qed.

Lemma bind_ok_inv {A B} (m : M World A) (k : A -> M World B) s r :
  fst ((m ≫= k) s) = Ok r ->
  exists a, fst (m s) = Ok a /\ fst (k a (snd (m s))) = Ok r.
Proof.
  rewrite run_bind. destruct (m s) as [[a|e] s']; [eauto | discriminate].
Qed.

Lemma plain_loadOrCreateFingerprint a l :
  steps (emits plain) (loadOrCreateFingerprint a l).
Proof.
  pose proof plain_Frame as HF.
  unfold loadOrCreateFingerprint. frame HF plain_op plain_host.
  intros s. eexists [_]. split; [reflexivity|]. repeat constructor.
Qed.
(** The events of [openSession]: the launch; then, if it succeeded, events
    that touch no browser; then, if the session could not be established,
    the close of the browser that was launched. *)
Lemma openSession_shape a l h f s :
  let run := openSession cfg a l h f s in
  let launchOp := ChromiumLaunch (default (headless (settings cfg)) h) in
  (exists e, fst run = Throw e /\ new_events s (snd run) = [EvOp launchOp (Throw e)])
  \/ (exists b body,
        Forall plain body
        /\ ((exists bot,
               fst run = Ok (Some (b, bot))
               /\ new_events s (snd run) = EvOp launchOp (Ok b) :: body)
            \/ (exists rc : Res unit,
                  fst run = match rc with Ok _ => Ok None | Throw e => Throw e end
                  /\ new_events s (snd run)
                     = EvOp launchOp (Ok b) :: body ++ [EvOp (BrowserClose b) rc]))).
Proof.
  cbv zeta. unfold openSession. cbv zeta. run_any E1.
  2: { left. exists e. split; [reflexivity|]. apply new_events_app. cbn [snd].
       now trace_norm. }
  right. rename a0 into b. unfold try_catch.
  match goal with |- context [ (gets ?g ≫= ?k) ?st ] =>
    set (body := gets g ≫= k); set (st0 := st) end.
  assert (Htr0 : trace st0 = trace s ++ [EvOp (ChromiumLaunch (default (headless (settings cfg)) h)) (Ok b)])
    by (subst st0; now trace_norm).
  assert (Hs : steps (emits plain) body).
  { pose proof plain_Frame as HF. pose proof plain_op as HPop.
    pose proof plain_host as HPhost. pose proof plain_log as HPlog.
    subst body. frame HF HPop HPhost. }
  destruct (Hs st0) as (evs & Htr & Hev).
  destruct (body st0) as [[r|e] s1] eqn:Hb; cbn [snd] in Htr.
  - assert (Hr : fst (body st0) = Ok r) by now rewrite Hb.
    subst body.
    apply bind_ok_inv in Hr as (c & _ & Hr).
    apply bind_ok_inv in Hr as (? & _ & Hr).
    apply bind_ok_inv in Hr as (? & _ & Hr).
    apply bind_ok_inv in Hr as (bot & _ & Hr).
    apply bind_ok_inv in Hr as (? & _ & Hr).
    apply bind_ok_inv in Hr as (? & _ & Hr).
    injection Hr as <-.
    exists b, evs. split; [exact Hev|]. left. exists bot. split; [reflexivity|].
    apply new_events_app. cbv iota beta. cbn [snd].
    etransitivity; [exact Htr|]. rewrite Htr0, <- app_assoc. reflexivity.
  - run_pure. run_any E2.
    + exists b, evs. split; [exact Hev|]. right. exists (Ok a0). split; [reflexivity|].
      apply new_events_app.
      try match goal with |- context [mret (M := M World) ?v ?x] =>
        change (mret (M := M World) v x) with (Ok v, x) end.
      cbn [snd]. trace_norm. rewrite Htr, Htr0, <- !app_assoc. reflexivity.
    + exists b, evs. split; [exact Hev|]. right. exists (Throw e0). split; [reflexivity|].
      apply new_events_app.
      try match goal with |- context [mret (M := M World) ?v ?x] =>
        change (mret (M := M World) v x) with (Ok v, x) end.
      cbn [snd]. trace_norm. rewrite Htr, Htr0, <- !app_assoc. reflexivity.
Qed.
End Browsers.
Section SessionBrowsers.
Context {World : Type} {env : Env World}.
Variable cfg : Config.
Implicit Types s : State World.

Lemma new_events_trans s s1 s2 evs1 evs2 :
  trace s1 = trace s ++ evs1 -> trace s2 = trace s1 ++ evs2 ->
  new_events s s2 = evs1 ++ evs2.
Proof. intros H1 H2. apply new_events_app. now rewrite H2, H1, app_assoc. Qed.

Lemma new_events_trace P s s' : emits P s s' -> trace s' = trace s ++ new_events s s'.
Proof. intros H. now apply emits_new_events in H. Qed.

(** [loadOrCreateFingerprint] throws only when the generator does. *)
Lemma loadOrCreateFingerprint_throws a l s e :
  fst (loadOrCreateFingerprint a l s) = Throw e ->
  new_events s (snd (loadOrCreateFingerprint a l s)) = [EvOp GenerateFingerprint (Throw e)].
Proof.
  unfold loadOrCreateFingerprint. rewrite run_gets_bind.
  destruct (fingerprintFiles s !! username a) as [f|]; [discriminate|].
  run_pure. run_any E; [rewrite run_modify_bind; discriminate|].
  intros [= ->]. apply new_events_app. cbn [snd]. now trace_norm.
Qed.

(** The browsers of one [initializeBotSession]: the one it launched is
    open when a session is returned and closed when [null] is; an error
    leaves it only from the fingerprint generator, the launch or the
    [close] of the [catch] block. *)
Lemma initializeBotSession_log a l h s :
  let run := initializeBotSession cfg a l h s in
  let evs := new_events s (snd run) in
  sessionAccounts evs = [a] /\ taskEvents evs = []
  /\ match fst run with
     | Ok (Some (b, _)) => browserLog evs = [Opened b]
     | Ok None => exists b, browserLog evs = [Opened b; Closed b]
     | Throw e =>
         (browserLog evs = [] \/ exists b, browserLog evs = [Opened b; Closed b])
         /\ exists evs0 X (op : Op X), evs = evs0 ++ [EvOp op (Throw e)] /\ unguarded op
     end.
Proof.
  cbv zeta. unfold initializeBotSession, emit. rewrite run_modify_bind, run_bind.
  set (s0 := add_event (EvSession a) s).
  assert (H0 : trace s0 = trace s ++ [EvSession a]) by reflexivity.
  destruct (plain_loadOrCreateFingerprint a l s0) as (pre & Hpre & Hplain).
  pose proof (loadOrCreateFingerprint_throws a l s0) as Hthrow.
  destruct (loadOrCreateFingerprint a l s0) as [[f|e] s1]; cbn [fst snd] in *.
  2: { specialize (Hthrow e eq_refl). rewrite (new_events_app _ _ _ Hpre) in Hthrow.
       subst pre. rewrite (new_events_trans _ _ _ _ _ H0 Hpre). cbn.
       repeat split; auto. exists [EvSession a], _, GenerateFingerprint. now split. }
  destruct (plain_summary _ Hplain) as (L1 & L2 & L3 & _).
  pose proof (steps_openSession cfg a l h f s1) as [Ho _].
  apply new_events_trace in Ho.
  assert (H2 : trace s1 = trace s ++ [EvSession a] ++ pre)
    by (now rewrite Hpre, H0, <- app_assoc).
  rewrite (new_events_trans _ _ _ _ _ H2 Ho).
  rewrite !sessionAccounts_app, !taskEvents_app, !browserLog_app, L1, L2, L3.
  cbn [sessionAccounts taskEvents browserLog flat_map List.filter app].
  destruct (openSession_shape cfg a l h f s1) as [(e & Hr & Hev)|(b & body & Hbody & Hcases)].
  - rewrite Hr, Hev. cbn. repeat split; auto.
    exists (EvSession a :: pre), _, (ChromiumLaunch (default (headless (settings cfg)) h)).
    now split.
  - destruct (plain_summary _ Hbody) as (B1 & B2 & B3 & _).
    destruct Hcases as [(bot & Hr & Hev)|(rc & Hr & Hev)]; rewrite Hr, Hev.
    + cbn [sessionAccounts taskEvents browserLog flat_map List.filter app].
      fold (sessionAccounts body) (taskEvents body) (browserLog body).
      rewrite B1, B2, B3. now repeat split.
    + change (EvOp ?o (Ok b) :: body ++ ?t) with ([EvOp o (Ok b)] ++ body ++ t).
      rewrite !sessionAccounts_app, !taskEvents_app, !browserLog_app, B1, B2, B3.
      cbn [sessionAccounts taskEvents browserLog flat_map List.filter app].
      destruct rc as [[]|e]; repeat split; eauto.
      exists (EvSession a :: pre ++ EvOp (ChromiumLaunch (default (headless (settings cfg)) h)) (Ok b) :: body), _, (BrowserClose b).
      split; [|exact I]. cbn. now rewrite <- !app_assoc.
Qed.
End SessionBrowsers.

Section TaskBrowsers.
Context {World : Type} {env : Env World}.
Variable cfg : Config.
Implicit Types s : State World.

(** The task on an established session: nothing the task throws leaves
    it, and the browser is closed on every path. *)
Lemma taskOnSession_log a t h b bot s :
  let run := taskOnSession a t h (Some (b, bot)) s in
  let evs := new_events s (snd run) in
  sessionAccounts evs = [] /\ taskEvents evs = [] /\ browserLog evs = [Closed b]
  /\ match fst run with
     | Ok r => exists result, r = Finished result
     | Throw e => exists evs0, evs = evs0 ++ [EvOp (BrowserClose b) (Throw e)]
     end.
Proof.
  cbv zeta. unfold taskOnSession, try_finally.
  match goal with |- context [ try_catch ?m ?k s ] => set (inner := try_catch m k) end.
  assert (Hs : steps (emits plain) inner).
  { pose proof (plain_Frame (World := World)) as HF.
    pose proof (steps_runCommentTask _ _ HF plain_op plain_host plain_log plain_refused bot t h).
    subst inner. frame HF plain_op plain_host. }
  assert (Hok : exists result, fst (inner s) = Ok (Finished result)).
  { subst inner. unfold try_catch. rewrite run_bind.
    destruct (runCommentTask bot t h s) as [[r|e] s1]; [exists r|exists FAILED]; reflexivity. }
  destruct (Hs s) as (evs & Htr & Hev). destruct Hok as (result & Hok).
  destruct (inner s) as [r s1]; cbn [fst snd] in *. subst r.
  destruct (plain_summary _ Hev) as (L1 & L2 & L3 & _).
  assert (Hn : forall rc rs w,
             new_events s (deliver rs (add_event (EvOp (BrowserClose b) rc) (set_world w s1)))
             = evs ++ [EvOp (BrowserClose b) rc]).
  { intros. apply new_events_app. trace_norm. now rewrite Htr, <- app_assoc. }
  run_any E.
  - unfold log, modify. cbv iota beta. cbn [fst snd].
    unfold new_events in *. cbn [trace add_line]. rewrite Hn.
    rewrite sessionAccounts_app, taskEvents_app, browserLog_app, L1, L2, L3.
    repeat split; eauto.
  - cbn [fst snd]. rewrite Hn.
    rewrite sessionAccounts_app, taskEvents_app, browserLog_app, L1, L2, L3.
    repeat split; eauto.
Qed.
End TaskBrowsers.

Section LaunchBrowsers.
Context {World : Type} {env : Env World}.
Variable cfg : Config.
Implicit Types s : State World.

(** One [launchBotForTask]: one session of the account; when it returns,
    a browser was opened and closed; an error leaves it only from an
    operation awaited outside the [try] blocks. *)
Lemma launchBotForTask_log a t h s :
  let run := launchBotForTask cfg a t h s in
  let evs := new_events s (snd run) in
  sessionAccounts evs = [a]
  /\ match fst run with
     | Ok r =>
         taskEvents evs = [EvLaunch a t; EvLaunched a t r]
         /\ exists b, browserLog evs = [Opened b; Closed b]
     | Throw e =>
         taskEvents evs = [EvLaunch a t]
         /\ (browserLog evs = [] \/ exists b, browserLog evs = [Opened b; Closed b])
         /\ exists evs0 X (op : Op X), evs = evs0 ++ [EvOp op (Throw e)] /\ unguarded op
     end.
Proof.
  cbv zeta. rewrite launchBotForTask_unfold.
  set (s0 := add_event (EvLaunch a t) s).
  assert (H0 : trace s0 = trace s ++ [EvLaunch a t]) by reflexivity.
  pose proof (initializeBotSession_log cfg a (username a) (Some (headless (settings cfg))) s0)
    as (I1 & I2 & I3).
  pose proof (steps_initializeBotSession cfg a (username a) (Some (headless (settings cfg))) s0)
    as [Hi _].
  apply new_events_trace in Hi.
  destruct (initializeBotSession cfg a _ _ s0) as [[session|e] s1]; cbn [fst snd] in *.
  2: { rewrite (new_events_trans _ _ _ _ _ H0 Hi).
       destruct I3 as (I3 & evs0 & X & op & Hev & Hop).
       change ([EvLaunch a t] ++ ?l) with (EvLaunch a t :: l).
       cbn [sessionAccounts taskEvents browserLog flat_map List.filter app].
       fold (sessionAccounts (new_events s0 s1)) (taskEvents (new_events s0 s1))
            (browserLog (new_events s0 s1)).
       rewrite I1, I2. repeat split; auto.
       exists (EvLaunch a t :: evs0), X, op. rewrite Hev. now split. }
  assert (H1 : trace s1 = trace s ++ EvLaunch a t :: new_events s0 s1)
    by (now rewrite Hi, H0, <- app_assoc).
  destruct session as [[b bot]|].
  - pose proof (taskOnSession_log a t h b bot s1) as (T1 & T2 & T3 & T4).
    pose proof (steps_taskOnSession a t h (Some (b, bot)) s1) as [Ht _].
    apply new_events_trace in Ht.
    destruct (taskOnSession a t h (Some (b, bot)) s1) as [[r|e] s2]; cbn [fst snd] in *.
    + assert (Hn : new_events s (add_event (EvLaunched a t r) s2)
                   = [EvLaunch a t] ++ new_events s0 s1 ++ new_events s1 s2
                     ++ [EvLaunched a t r]).
      { apply new_events_app. cbn [trace add_event]. rewrite Ht, H1, <- !app_assoc.
        reflexivity. }
      rewrite Hn, !sessionAccounts_app, !taskEvents_app, !browserLog_app, I1, I2, I3, T1, T2, T3.
      split; [reflexivity|]. split; [reflexivity|]. now exists b.
    + assert (Hn : new_events s s2
                   = [EvLaunch a t] ++ new_events s0 s1 ++ new_events s1 s2).
      { apply new_events_app. rewrite Ht, H1, <- !app_assoc. reflexivity. }
      rewrite Hn, !sessionAccounts_app, !taskEvents_app, !browserLog_app, I1, I2, I3, T1, T2, T3.
      split; [reflexivity|]. split; [reflexivity|]. split; [right; now exists b|].
      destruct T4 as (evs0 & ->).
      exists ([EvLaunch a t] ++ new_events s0 s1 ++ evs0), _, (BrowserClose b).
      split; [now rewrite <- !app_assoc | exact I].
  - change (taskOnSession a t h None s1) with (Ok (A := LaunchResult) LAUNCH_ERROR, s1).
    cbv iota beta. cbn [fst snd].
    assert (Hn : new_events s (add_event (EvLaunched a t LAUNCH_ERROR) s1)
                 = [EvLaunch a t] ++ new_events s0 s1 ++ [EvLaunched a t LAUNCH_ERROR]).
    { apply new_events_app. cbn [trace add_event]. rewrite H1, <- !app_assoc.
      reflexivity. }
    destruct I3 as (b & I3).
    rewrite Hn, !sessionAccounts_app, !taskEvents_app, !browserLog_app, I1, I2, I3.
    split; [reflexivity|]. split; [reflexivity|]. now exists b.
Qed.
End LaunchBrowsers.

Section MonitorBrowsers.
Context {World : Type} {env : Env World}.
Variable cfg : Config.
Implicit Types s : State World.

Lemma one_Frame : Frame (World := World) one_at_a_time plain.
Proof.
  assert (Hsame : forall s s', trace s' = trace s -> one_at_a_time s s').
  { intros s s' H. exists []. split; [now rewrite app_nil_r | now exists []]. }
  split; intros; try (now apply Hsame).
  - destruct H as (e1 & H1 & b1 & L1), H0 as (e2 & H2 & b2 & L2).
    exists (e1 ++ e2). split; [now rewrite H2, H1, app_assoc|].
    exists (b1 ++ b2). now rewrite browserLog_app, openedAndClosed_app, L1, L2.
  - exists [e]. split; [reflexivity|]. exists [].
    now destruct (plain_summary [e] ltac:(now constructor)) as (-> & _).
Qed.

Lemma plain_one s s' : emits plain s s' -> one_at_a_time s s'.
Proof.
  intros (evs & H & Hev). exists evs. split; [exact H|]. exists [].
  now destruct (plain_summary _ Hev) as (-> & _).
Qed.

Lemma page_event_plain e : page_event e -> plain e.
Proof. destruct e as [X op r|X h x|[]| | | |[]]; simpl; try tauto. destruct op; simpl; tauto. Qed.

Lemma one_launchBotForTask a t h : steps one_at_a_time (launchBotForTask cfg a t h).
Proof.
  intros s. destruct (launchBotForTask_run cfg a t h s) as (r & s' & evs & Hrun & _ & Htr & _).
  pose proof (launchBotForTask_log cfg a t h s) as (_ & H).
  rewrite Hrun in *. cbn [fst snd] in *.
  rewrite (new_events_app _ _ _ Htr) in H.
  eexists. split; [exact Htr|].
  destruct r as [r|e].
  - destruct H as (_ & b & ->). now exists [b].
  - destruct H as (_ & [-> | (b & ->)] & _); [now exists [] | now exists [b]].
Qed.

Lemma one_fetchAndWait t : steps one_at_a_time (fetchAndWait t).
Proof.
  eapply steps_weaken; [|apply steps_fetchAndWait].
  intros s s' [He _]. apply plain_one. eapply emits_weaken; [|exact He].
  apply page_event_plain.
Qed.

Lemma one_waitBeforeNextBot : steps one_at_a_time waitBeforeNextBot.
Proof. unfold waitBeforeNextBot. frame one_Frame plain_op plain_host. Qed.

Lemma one_runTasks tasks total t b : steps one_at_a_time (runTasks cfg tasks total t b).
Proof.
  revert b. induction tasks as [|a tasks IH]; intros b.
  - apply (steps_ret _ _ one_Frame).
  - pose proof one_Frame as HF. pose proof (one_launchBotForTask a) as Hl.
    pose proof one_waitBeforeNextBot as Hw.
    cbn [runTasks]. frame HF plain_op plain_host.
    all: auto.
Qed.

Lemma one_writeProfileStatsFile content :
  steps (World := World) one_at_a_time (writeProfileStatsFile content).
Proof.
  intros s. apply plain_one. exists [EvFs (WriteProfileStats content)].
  split; [reflexivity | repeat constructor].
Qed.

Lemma one_updateProfileStatsInCsv u p f :
  steps (World := World) one_at_a_time (updateProfileStatsInCsv u p f).
Proof.
  pose proof one_Frame as HF. pose proof one_writeProfileStatsFile as Hw.
  unfold updateProfileStatsInCsv. frame HF plain_op plain_host.
Qed.

Lemma one_commitStats t cur : steps (World := World) one_at_a_time (commitStats t cur).
Proof.
  pose proof one_Frame as HF. pose proof one_updateProfileStatsInCsv as Hu.
  unfold commitStats. frame HF plain_op plain_host.
  apply steps_modify. intros s. apply plain_one. now apply emits_same_trace.
Qed.

Lemma one_loadProfileStatsFromCsv :
  steps (World := World) one_at_a_time loadProfileStatsFromCsv.
Proof.
  pose proof one_Frame as HF. pose proof one_writeProfileStatsFile as Hw.
  unfold loadProfileStatsFromCsv. frame HF plain_op plain_host.
Qed.

Lemma one_forEach {A} (l : list A) (f : A -> M World unit) :
  (forall x, steps one_at_a_time (f x)) -> steps one_at_a_time (forEach l f).
Proof.
  intros Hf. induction l as [|x l IH]; cbn [forEach].
  - apply (steps_ret _ _ one_Frame).
  - apply (steps_bind _ _ one_Frame); auto.
Qed.

Lemma one_compareStats tm t cur : steps one_at_a_time (compareStats cfg tm t cur).
Proof.
  pose proof one_Frame as HF. pose proof one_commitStats as Hc.
  pose proof one_runTasks as Hr.
  unfold compareStats. frame HF plain_op plain_host.
Qed.

Lemma one_checkTarget tm t : steps one_at_a_time (checkTarget cfg tm t).
Proof.
  pose proof one_Frame as HF. pose proof one_fetchAndWait as Hf.
  pose proof one_compareStats as Hc.
  unfold checkTarget. frame HF plain_op plain_host.
Qed.

Lemma one_monitorLoop cycles tm : steps one_at_a_time (monitorLoop cfg cycles tm).
Proof.
  pose proof one_Frame as HF.
  induction cycles as [|n IH]; cbn [monitorLoop].
  - apply (steps_ret _ _ HF).
  - apply (steps_bind _ _ HF); [|intros; exact IH].
    pose proof (one_forEach (map fst tm) _ (one_checkTarget tm)) as Hl.
    unfold monitoringCycle. frame HF plain_op plain_host.
Qed.
End MonitorBrowsers.

Section MonitorMode.
Context {World : Type} {env : Env World}.
Variable cfg : Config.
Implicit Types s : State World.

Lemma new_events_same s s0 s' : trace s0 = trace s -> new_events s0 s' = new_events s s'.
Proof. intros H. unfold new_events. now rewrite H. Qed.

Lemma forEach_log {A} (l : list A) (line : A -> LogLine) s :
  let run := forEach l (fun x => log (line x).1.1 (line x).1.2 (line x).2) s in
  fst run = Ok tt /\ trace (snd run) = trace s.
Proof.
  revert s. induction l as [|x l IH]; intros s; [now split|].
  cbn [forEach]. cbv zeta. rewrite run_log_bind.
  destruct (IH (add_line ((line x).1.1, (line x).1.2, (line x).2) s)) as [H1 H2].
  split; [exact H1 | now rewrite H2].
Qed.

(** The warning about shared targets only writes to the console. *)
Lemma warnSharedTargets_run tm s :
  fst (warnSharedTargets tm s) = Ok tt /\ trace (snd (warnSharedTargets tm s)) = trace s.
Proof.
  unfold warnSharedTargets. cbv zeta. destruct (0 <? _)%nat; [|now split].
  cbn [when]. run_pure. rewrite run_bind.
  match goal with |- context [ forEach ?l ?f ?st ] =>
    pose proof (forEach_log l
      (fun shared => (globalLogger, Warn,
         "  - Target: " +:+ fst shared +:+ " | Accounts: "
         +:+ JS.join ", " (map username (snd shared)))) st) as [Hr Ht];
    cbn [fst snd] in Hr, Ht;
    destruct (forEach l f st) as [r s1]
  end.
  cbn [fst snd] in *. subst r. split; [reflexivity|]. exact Ht.
Qed.

(** Monitor mode up to the monitor session: nothing but console lines. *)
Lemma runMonitorMode_start cycles s :
  let run := runMonitorMode cfg cycles s in
  let tm := buildTargetMap (List.filter enabled (accounts cfg)) in
  match List.filter enabled (accounts cfg) with
  | [] => fst run = Ok Returned /\ new_events s (snd run) = []
  | m :: _ =>
      if (length tm =? 0)%nat then fst run = Ok Returned /\ new_events s (snd run) = []
      else
        exists s0, trace s0 = trace s
        /\ run = match initializeBotSession cfg m (username m +:+ "-MONITOR")
                         (Some (headless (settings cfg))) s0 with
                 | (Ok (Some (b, _)), s1) =>
                     monitorWith b
                       (stats ← loadProfileStatsFromCsv;
                        modify (set_profileStats stats);;
                        monitorLoop cfg cycles tm) s1
                 | (Ok None, s1) =>
                     (Ok Returned,
                      add_line (globalLogger, Error,
                                "Could not initialize monitor account @" +:+ username m
                                +:+ ". Exiting.") s1)
                 | (Throw e, s1) => (Throw e, s1)
                 end
  end.
Proof.
  cbv zeta. unfold runMonitorMode. cbv zeta. rewrite run_log_bind.
  destruct (List.filter enabled (accounts cfg)) as [|m rest] eqn:He.
  { rewrite run_log_bind. split; [reflexivity|]. apply new_events_app.
    cbn. now rewrite app_nil_r. }
  rewrite run_bind.
  match goal with |- context [ warnSharedTargets ?tm ?st ] =>
    destruct (warnSharedTargets_run tm st) as [Hr Ht];
    destruct (warnSharedTargets tm st) as [r s1]
  end.
  cbn [fst snd] in *. subst r. cbn [trace add_line] in Ht.
  destruct (_ =? _)%nat.
  { rewrite run_log_bind. split; [reflexivity|]. apply new_events_app.
    cbn. now rewrite Ht, app_nil_r. }
  rewrite !run_log_bind, run_bind.
  match goal with |- context [ initializeBotSession _ _ _ _ ?st ] => exists st end.
  split; [cbn [trace add_line]; exact Ht|].
  destruct (initializeBotSession _ _ _ _ _) as [[[[b bot]|]|e] s2]; reflexivity.
Qed.
End MonitorMode.

Section BrowserDiscipline.
Context {World : Type} {env : Env World}.
Variable cfg : Config.
Implicit Types s : State World.

(** X9: the browsers of monitor mode, over any number of cycles. The first
    session is that of the first enabled account. While the mode is in
    its loop the monitor browser is open and every task browser was
    opened after it and had [close] awaited on it before the next one was
    opened; when the mode returns or throws, [close] has been awaited on
    every browser launched: none was launched, or the monitor browser was
    closed in the [catch] block of [initializeBotSession], or it was
    closed by the [finally] block after the task browsers. *)
Theorem monitor_mode_browsers cycles s :
  let run := runMonitorMode cfg cycles s in
  let evs := new_events s (snd run) in
  (evs = []
   \/ exists m accs rest,
        List.filter enabled (accounts cfg) = m :: accs /\ sessionAccounts evs = m :: rest)
  /\ match fst run with
     | Ok Running => exists b0 bs, browserLog evs = Opened b0 :: openedAndClosed bs
     | Ok Returned => browserLog evs = [] \/ exists b, browserLog evs = [Opened b; Closed b]
     | Throw e =>
         browserLog evs = []
         \/ (exists b, browserLog evs = [Opened b; Closed b])
         \/ exists b0 bs, browserLog evs = Opened b0 :: openedAndClosed bs ++ [Closed b0]
     end.
Proof.
  cbv zeta. pose proof (runMonitorMode_start cfg cycles s) as H. cbv zeta in H.
  destruct (List.filter enabled (accounts cfg)) as [|m accs] eqn:He.
  { destruct H as [-> ->]. split; [now left | now left]. }
  destruct (_ =? _)%nat.
  { destruct H as [-> ->]. split; [now left | now left]. }
  destruct H as (s0 & Ht & ->). rewrite <- !(new_events_same s s0 _ Ht).
  pose proof (initializeBotSession_log cfg m (username m +:+ "-MONITOR")
                (Some (headless (settings cfg))) s0) as (I1 & _ & I3).
  pose proof (steps_initializeBotSession cfg m (username m +:+ "-MONITOR")
                (Some (headless (settings cfg))) s0) as [Hi _].
  apply new_events_trace in Hi.
  destruct (initializeBotSession cfg m _ _ s0) as [[[[b bot]|]|e] s1]; cbn [fst snd] in *.
  - unfold monitorWith.
    match goal with |- context [ (loadProfileStatsFromCsv ≫= ?k) s1 ] =>
      set (body := loadProfileStatsFromCsv ≫= k)
    end.
    assert (Hb : steps one_at_a_time body).
    { pose proof (one_Frame (World := World)) as HF.
      apply (steps_bind _ _ HF); [apply one_loadProfileStatsFromCsv|intros stats].
      apply (steps_bind _ _ HF); [|intros _; apply one_monitorLoop].
      apply steps_modify. intros s'. apply plain_one. now apply emits_same_trace. }
    destruct (Hb s1) as (evs2 & Htr2 & bs & Hlog).
    destruct (body s1) as [[[]|e] s2]; cbn [fst snd] in *.
    + rewrite (new_events_trans _ _ _ _ _ Hi Htr2).
      rewrite sessionAccounts_app, browserLog_app, I1, I3, Hlog.
      split; [right; now exists m, accs, (sessionAccounts evs2)|]. now exists b, bs.
    + assert (Hn : forall rc rs w l1 l2,
                 new_events s0
                   (deliver rs (add_event (EvOp (BrowserClose b) rc)
                                  (set_world w (add_line l1 (add_line l2 s2)))))
                 = new_events s0 s1 ++ evs2 ++ [EvOp (BrowserClose b) rc]).
      { intros. apply new_events_app. trace_norm. now rewrite Htr2, Hi, <- !app_assoc. }
      run_pure. run_any E; unfold throw; cbn [fst snd]; rewrite Hn;
        rewrite !sessionAccounts_app, !browserLog_app, I1, I3, Hlog;
        (split; [right; now eexists m, accs, _|]); right; right; now exists b, bs.
  - assert (Hn : forall l, new_events s0 (add_line l s1) = new_events s0 s1) by reflexivity.
    rewrite Hn, I1. split; [right; now exists m, accs, []|]. now right.
  - rewrite I1. split; [right; now exists m, accs, []|].
    destruct I3 as ([I3 | I3] & _); [now left | right; now left].
Qed.
End BrowserDiscipline.

Section CheckAccounts.
Context {World : Type} {env : Env World}.
Variable cfg : Config.
Implicit Types s : State World.

Lemma openedAndClosed_cons b bs :
  [Opened b; Closed b] ++ openedAndClosed bs = openedAndClosed (b :: bs).
Proof. reflexivity. Qed.

(** The loop of check-accounts mode: one session per account, in order,
    each browser closed before the next session. *)
Lemma checkAccounts_log total index remaining s :
  let run := checkAccounts cfg total index remaining s in
  let evs := new_events s (snd run) in
  trace (snd run) = trace s ++ evs
  /\ (exists bs, browserLog evs = openedAndClosed bs)
  /\ taskEvents evs = []
  /\ match fst run with
     | Ok _ => sessionAccounts evs = remaining
     | Throw _ => sessionAccounts evs `prefix_of` remaining
     end.
Proof.
  cbv zeta. revert index s. induction remaining as [|a rest IH]; intros index s.
  { cbn. unfold new_events. rewrite drop_all, app_nil_r.
    split; [reflexivity|]. split; [now exists []|]. now split. }
  cbn [checkAccounts]. rewrite run_log_bind, run_bind.
  match goal with |- context [ initializeBotSession _ _ _ _ ?st ] => set (s0 := st) end.
  assert (Ht : trace s0 = trace s) by reflexivity.
  rewrite <- !(new_events_same s s0 _ Ht), <- Ht.
  pose proof (initializeBotSession_log cfg a (username a) (Some false) s0) as (I1 & I2 & I3).
  pose proof (steps_initializeBotSession cfg a (username a) (Some false) s0) as [Hi _].
  apply new_events_trace in Hi.
  destruct (initializeBotSession cfg a _ _ s0) as [[[[b bot]|]|e] s1]; cbn [fst snd] in *.
  - rewrite run_bind, run_log_bind, run_bind. unfold waitForEnter. rewrite run_log_bind.
    unfold await. cbn [world add_line].
    destruct (host WaitForEnter (world s1)) as [[] w1]. cbv iota beta.
    rewrite run_log_bind.
    assert (Hn : forall rc rs w l1 l2 l3,
               trace (deliver rs (add_event (EvOp (BrowserClose b) rc)
                       (set_world w (add_line l1
                          (add_event (EvHost WaitForEnter tt)
                             (set_world w1 (add_line l2 (add_line l3 s1))))))))
               = trace s0 ++ new_events s0 s1
                 ++ [EvHost WaitForEnter tt; EvOp (BrowserClose b) rc]).
    { intros. trace_norm. now rewrite Hi, <- !app_assoc. }
    unfold call.
    match goal with |- context [ perform (BrowserClose b) ?w ] =>
      destruct (perform (BrowserClose b) w) as [[[[]|e] rs] w2]
    end; cbv iota beta.
    + rewrite run_when_log_bind.
      match goal with |- context [ checkAccounts _ _ _ _ ?st ] => set (s2 := st) end.
      assert (H2 : trace s2 = trace s0 ++ new_events s0 s1
                               ++ [EvHost WaitForEnter tt; EvOp (BrowserClose b) (Ok tt)]).
      { subst s2. destruct (_ <? _)%nat; [cbn [trace add_line]|]; apply Hn. }
      destruct (IH (S index) s2) as (IH0 & (bs & IH1) & IH2 & IH3).
      set (evs2 := new_events s2 _) in *.
      rewrite (new_events_trans _ _ _ _ _ H2 IH0).
      rewrite IH0, H2, <- !app_assoc. split; [reflexivity|].
      rewrite !taskEvents_app, !browserLog_app, !sessionAccounts_app, I1, I2, I3, IH1, IH2.
      split; [now exists (b :: bs)|]. split; [reflexivity|].
      cbn [sessionAccounts flat_map app].
      destruct (checkAccounts cfg total (S index) rest s2).1; [now rewrite IH3|].
      now apply prefix_cons.
    + cbn [fst snd]. rewrite (new_events_app _ _ _ (Hn _ _ _ _ _ _)), Hn.
      split; [reflexivity|].
      rewrite !taskEvents_app, !browserLog_app, !sessionAccounts_app, I1, I2, I3.
      split; [now exists [b]|]. split; [reflexivity|]. now exists rest.
  - rewrite run_log_bind, run_when_log_bind.
    match goal with |- context [ checkAccounts _ _ _ _ ?st ] => set (s2 := st) end.
    assert (H2 : trace s2 = trace s0 ++ new_events s0 s1).
    { subst s2. destruct (_ <? _)%nat; cbn [trace add_line]; exact Hi. }
    destruct (IH (S index) s2) as (IH0 & (bs & IH1) & IH2 & IH3).
    set (evs2 := new_events s2 _) in *.
    rewrite (new_events_trans _ _ _ _ _ H2 IH0).
    rewrite IH0, H2, <- !app_assoc. split; [reflexivity|].
    destruct I3 as (b & I3).
    rewrite !taskEvents_app, !browserLog_app, !sessionAccounts_app, I1, I2, I3, IH1, IH2.
    split; [now exists (b :: bs)|]. split; [reflexivity|].
    cbn [sessionAccounts flat_map app].
    destruct (checkAccounts cfg total (S index) rest s2).1; [now rewrite IH3|].
    now apply prefix_cons.
  - split; [exact Hi|]. rewrite I1, I2. destruct I3 as (I3 & _). split; [|split; [reflexivity|]].
    + destruct I3 as [-> | (b & ->)]; [now exists [] | now exists [b]].
    + now exists rest.
Qed.
End CheckAccounts.

Section Modes.
Context {World : Type} {env : Env World}.
Variable cfg : Config.
Implicit Types s : State World.

Lemma buildTargetMap_no_targets accs :
  Forall (fun a => targets a = []) accs -> buildTargetMap accs = [].
Proof.
  intros Hall. unfold buildTargetMap.
  enough (H : forall m : TargetMap,
            fold_left (fun m account =>
                         fold_left (fun m targetUsername => tm_push m targetUsername account)
                                   (targets account) m) accs m = m) by apply H.
  induction Hall as [|a accs Ha _ IH]; intros m; [reflexivity|].
  cbn [fold_left]. rewrite Ha. apply IH.
Qed.



(** X10: when no enabled account lists a target (the targets of disabled
    accounts do not count), monitor mode returns at once: no session, no
    browser, no page operation and no file write, whatever the number of
    cycles asked for. *)
Theorem monitor_mode_without_targets cycles s :
  Forall (fun a => enabled a = true -> targets a = []) (accounts cfg) ->
  let run := runMonitorMode cfg cycles s in
  fst run = Ok Returned /\ new_events s (snd run) = [].
Proof.
  intros Hall. cbv zeta. pose proof (runMonitorMode_start cfg cycles s) as H. cbv zeta in H.
  destruct (List.filter enabled (accounts cfg)) as [|m accs] eqn:He; [exact H|].
  rewrite buildTargetMap_no_targets in H; [exact H|].
  rewrite <- He. apply Forall_forall. intros a Ha. apply list_elem_of_In, filter_In in Ha.
  destruct Ha as [Ha He']. rewrite Forall_forall in Hall. apply Hall; [|exact He'].
  now apply list_elem_of_In.
Qed.

(** X11: check-accounts mode opens a session for the enabled accounts in
    the order of the configuration, for all of them when it returns and
    for the first ones when an error ends it; it launches no comment
    task; and the browsers are opened one at a time, each with its
    [close] awaited before the next session begins. *)
Theorem check_accounts_mode s :
  let run := runCheckAccountsMode cfg s in
  let evs := new_events s (snd run) in
  (exists bs, browserLog evs = openedAndClosed bs)
  /\ taskEvents evs = []
  /\ match fst run with
     | Ok _ => sessionAccounts evs = List.filter enabled (accounts cfg)
     | Throw _ => sessionAccounts evs `prefix_of` List.filter enabled (accounts cfg)
     end.
Proof.
  cbv zeta. unfold runCheckAccountsMode. cbv zeta. rewrite run_log_bind.
  destruct (List.filter enabled (accounts cfg)) as [|a rest] eqn:He.
  { assert (Hn : forall l1 l2, new_events s (add_line l1 (add_line l2 s)) = []).
    { intros. apply new_events_app. cbn. now rewrite app_nil_r. }
    unfold log, modify. cbn [fst snd]. rewrite Hn. split; [now exists []|]. now split. }
  rewrite run_log_bind, run_bind.
  match goal with |- context [ checkAccounts _ _ _ _ ?st ] => set (s0 := st) end.
  assert (Ht : trace s0 = trace s) by reflexivity.
  rewrite <- !(new_events_same s s0 _ Ht).
  destruct (checkAccounts_log cfg (length (a :: rest)) 0 (a :: rest) s0) as (_ & C1 & C2 & C3).
  destruct (checkAccounts cfg _ _ _ s0) as [[[]|e] s1]; cbn [fst snd] in *.
  - unfold log, modify. cbn [fst snd].
    assert (Hn : forall l, new_events s0 (add_line l s1) = new_events s0 s1) by reflexivity.
    rewrite Hn. auto.
  - auto.
Qed.
End Modes.

Section TestMode.
Context {World : Type} {env : Env World}.
Variable cfg : Config.
Implicit Types s : State World.

(** What test-comment mode does once an account is chosen. *)
Lemma testCommentWith_log (chosen : option AccountConfig) s :
  let run := testCommentWith cfg chosen s in
  let evs := new_events s (snd run) in
  match chosen with
  | Some a =>
      match targets a with
      | t :: _ =>
          sessionAccounts evs = [a]
          /\ match fst run with
             | Ok _ =>
                 (exists r, taskEvents evs = [EvLaunch a t; EvLaunched a t r])
                 /\ exists b, browserLog evs = [Opened b; Closed b]
             | Throw _ =>
                 taskEvents evs = [EvLaunch a t]
                 /\ (browserLog evs = [] \/ exists b, browserLog evs = [Opened b; Closed b])
             end
      | [] => fst run = Ok tt /\ evs = []
      end
  | None => fst run = Ok tt /\ evs = []
  end.
Proof.
  cbv zeta. unfold testCommentWith.
  assert (Hn : forall l, new_events s (add_line l s) = []).
  { intros. apply new_events_app. cbn. now rewrite app_nil_r. }
  destruct chosen as [a|]; [|split; [reflexivity | apply Hn]].
  destruct (targets a) as [|t rest]; [split; [reflexivity | apply Hn]|].
  rewrite !run_log_bind, run_bind.
  match goal with |- context [ launchBotForTask _ _ _ _ ?st ] => set (s0 := st) end.
  assert (Ht : trace s0 = trace s) by reflexivity.
  rewrite <- !(new_events_same s s0 _ Ht).
  destruct (launchBotForTask_log cfg a t (aiPromptHint a) s0) as (L1 & L2).
  destruct (launchBotForTask cfg a t (aiPromptHint a) s0) as [[r|e] s1]; cbn [fst snd] in *.
  - unfold log, modify. cbn [fst snd].
    assert (Hl : forall l, new_events s0 (add_line l s1) = new_events s0 s1) by reflexivity.
    rewrite Hl. destruct L2 as (L2 & L3). split; [exact L1|]. split; [now exists r | exact L3].
  - destruct L2 as (L2 & L3 & _). auto.
Qed.

(** X12: test-comment mode works for the first account of the
    configuration that has the name given on the command line, or, with
    no name (or an empty one), for the first enabled account. If there is
    no such account, or it is disabled, or its list of targets is empty,
    the mode returns with no event at all. Otherwise it launches exactly
    one task, for that account on the first of its targets, in one
    session with one browser, on which [close] has been awaited when the
    mode returns. *)
Theorem test_mode_one_task testUsername s :
  let run := runTestCommentMode cfg testUsername s in
  let evs := new_events s (snd run) in
  let chosen :=
    if JS.truthy testUsername
    then find (fun acc => String.eqb (username acc) (default EmptyString testUsername))
              (accounts cfg)
    else find enabled (accounts cfg) in
  match chosen with
  | Some a =>
      if enabled a then
        match targets a with
        | t :: _ =>
            sessionAccounts evs = [a]
            /\ match fst run with
               | Ok _ =>
                   (exists r, taskEvents evs = [EvLaunch a t; EvLaunched a t r])
                   /\ exists b, browserLog evs = [Opened b; Closed b]
               | Throw _ =>
                   taskEvents evs = [EvLaunch a t]
                   /\ (browserLog evs = [] \/ exists b, browserLog evs = [Opened b; Closed b])
               end
        | [] => fst run = Ok tt /\ evs = []
        end
      else fst run = Ok tt /\ evs = []
  | None => fst run = Ok tt /\ evs = []
  end.
Proof.
  cbv zeta. unfold runTestCommentMode. cbv zeta. rewrite run_log_bind.
  assert (Hn : forall l1 l2 l3, new_events s (add_line l1 (add_line l2 (add_line l3 s))) = []).
  { intros. apply new_events_app. cbn. now rewrite app_nil_r. }
  destruct (JS.truthy testUsername).
  - rewrite run_log_bind.
    destruct (find _ (accounts cfg)) as [a|]; [|split; [reflexivity | apply Hn]].
    destruct (enabled a) eqn:Ha; cbn [negb]; [|split; [reflexivity | apply Hn]].
    match goal with |- context [ testCommentWith _ _ ?st ] =>
      pose proof (testCommentWith_log (Some a) st) as H;
      assert (Ht : trace st = trace s) by reflexivity;
      rewrite <- !(new_events_same s st _ Ht)
    end.
    exact H.
  - rewrite run_log_bind.
    match goal with |- context [ testCommentWith _ _ ?st ] =>
      pose proof (testCommentWith_log (find enabled (accounts cfg)) st) as H;
      assert (Ht : trace st = trace s) by reflexivity;
      rewrite <- !(new_events_same s st _ Ht)
    end.
    destruct (find enabled (accounts cfg)) as [a|] eqn:Hf; [|exact H].
    apply find_some in Hf as [_ ->]. exact H.
Qed.
End TestMode.

Lemma monitor_mode_without_targets_witness :
  Forall (fun a => enabled a = true -> targets a = []) (accounts carolAndIdle)
  /\ fst (runMonitorMode (env := scripted sixPosts) carolAndIdle 3 initial) = Ok Returned
  /\ new_events initial (snd (runMonitorMode (env := scripted sixPosts) carolAndIdle 3 initial))
     = [].
Proof.
  assert (H : Forall (fun a => enabled a = true -> targets a = []) (accounts carolAndIdle)).
  { constructor; [discriminate|]. constructor; [reflexivity|]. constructor. }
  split; [exact H|].
  exact (monitor_mode_without_targets (env := scripted sixPosts) carolAndIdle 3 initial H).
Defined.

(* ===================================================================== *)
(** * The interaction log *)
(* ===================================================================== *)

Section TaskLog.
Context {World : Type} {env : Env World}.
Implicit Types s : State World.
Variable this : Bot.
Variable t : string.

Lemma logAttempts_app l1 l2 : logAttempts (l1 ++ l2) = logAttempts l1 ++ logAttempts l2.
Proof. apply flat_map_app. Qed.

Lemma aiCalls_app l1 l2 : aiCalls (l1 ++ l2) = aiCalls l1 ++ aiCalls l2.
Proof. apply flat_map_app. Qed.

(** Every entry handed to the log was appended or refused. *)
Lemma attempts_length evs :
  length (logAttempts evs) = (length (logAppends evs) + length (refusedAppends evs))%nat.
Proof.
  induction evs as [|e evs IH]; [reflexivity|].
  change (e :: evs) with ([e] ++ evs).
  unfold logAttempts, logAppends, refusedAppends in *. rewrite !flat_map_app, !length_app, IH.
  destruct e as [X op r|X h x|[]| | | |[]]; cbn; lia.
Qed.

Lemma attempts_none evs :
  logAttempts evs = [] -> logAppends evs = [] /\ refusedAppends evs = [].
Proof.
  intros H. pose proof (attempts_length evs) as Hl. rewrite H in Hl. cbn in Hl.
  split; apply length_zero_iff_nil; lia.
Qed.

Lemma attempts_one evs entry :
  logAttempts evs = [entry] ->
  logAppends evs = [entry] /\ refusedAppends evs = []
  \/ logAppends evs = [] /\ refusedAppends evs = [entry].
Proof.
  induction evs as [|e evs IH]; [discriminate|].
  change (e :: evs) with ([e] ++ evs).
  unfold logAttempts, logAppends, refusedAppends in IH |- *. rewrite !flat_map_app.
  destruct e as [X op r|X h x|[]| | | |[]]; cbn; try exact IH.
  - intros [= -> H]. destruct (attempts_none evs H) as [H1 H2].
    unfold logAppends, refusedAppends in H1, H2. rewrite H1, H2. now left.
  - intros [= -> H]. destruct (attempts_none evs H) as [H1 H2].
    unfold logAppends, refusedAppends in H1, H2. rewrite H1, H2. now right.
Qed.

Lemma clicked_app l1 l2 : clicked (l1 ++ l2) = clicked l1 ++ clicked l2.
Proof. apply flat_map_app. Qed.

Lemma typed_app l1 l2 : typed (l1 ++ l2) = typed l1 ++ typed l2.
Proof. apply flat_map_app. Qed.

Lemma reading_summary evs :
  Forall reading evs ->
  logAttempts evs = [] /\ aiCalls evs = [] /\ clicked evs = [] /\ typed evs = [].
Proof.
  induction 1 as [|e evs He _ (I1 & I2 & I3 & I4)]; [now repeat split|].
  unfold logAttempts, aiCalls, clicked, typed in *.
  destruct e as [X op r|X h x|w| | | |c m]; try (now destruct He);
    cbn [flat_map app]; rewrite ?I1, ?I2, ?I3, ?I4; try tauto.
  destruct op; try (now destruct He); tauto.
Qed.

Lemma reading_Frame : Frame (World := World) (emits reading) reading.
Proof. apply emits_Frame. Qed.

Lemma reading_host X (h : Host X) x : reading (EvHost h x).
Proof. exact I. Qed.

(** ** Rules *)

Lemma ends_ret pre r :
  taskOutcome this t (Ok r) pre -> ends_task (World := World) this t pre (mret r).
Proof. intros H s. exists []. rewrite !app_nil_r. now split. Qed.

Lemma ends_log pre logger l message (k : unit -> M World InteractionResult) :
  ends_task this t pre (k tt) -> ends_task this t pre (log logger l message ≫= k).
Proof. intros H s. rewrite run_log_bind. apply (H (add_line (logger, l, message) s)). Qed.

Lemma ends_modify pre f (k : unit -> M World InteractionResult) :
  (forall s, trace (f s) = trace s) ->
  ends_task this t pre (k tt) -> ends_task this t pre (modify f ≫= k).
Proof.
  intros Hf H s. rewrite run_modify_bind. destruct (H (f s)) as (evs & Htr & Ho).
  exists evs. now rewrite Htr, Hf.
Qed.

Lemma ends_call {X} pre (op : Op X) (k : X -> M World InteractionResult) :
  (forall e, taskOutcome this t (Throw e) (pre ++ [EvOp op (Throw e)])) ->
  (forall a, ends_task this t (pre ++ [EvOp op (Ok a)]) (k a)) ->
  ends_task this t pre (call op ≫= k).
Proof.
  intros Hthrow Hk s. run_any E.
  - match goal with |- context [ k ?a ?st ] => destruct (Hk a st) as (evs & Htr & Ho) end.
    exists (EvOp op (Ok a) :: evs). split.
    + rewrite Htr. trace_norm. now rewrite <- app_assoc.
    + now rewrite <- app_assoc in Ho.
  - exists [EvOp op (Throw e)]. split; [cbn [fst snd]; now trace_norm|]. apply Hthrow.
Qed.

Lemma ends_ret_bind {A} pre (a : A) (k : A -> M World InteractionResult) :
  ends_task this t pre (k a) -> ends_task this t pre (mret a ≫= k).
Proof. intros H s. apply (H s). Qed.

Lemma ends_assoc {A B} pre (m : M World A) (f : A -> M World B)
    (k : B -> M World InteractionResult) :
  ends_task this t pre (m ≫= fun a => f a ≫= k) -> ends_task this t pre ((m ≫= f) ≫= k).
Proof.
  intros H s. specialize (H s). rewrite !run_bind in *.
  destruct (m s) as [[a|e] s1]; [|exact H]. now rewrite run_bind in H.
Qed.

Lemma ends_reading {A} pre (m : M World A) (k : A -> M World InteractionResult) :
  steps (emits reading) m ->
  (forall e evs, Forall reading evs -> taskOutcome this t (Throw e) (pre ++ evs)) ->
  (forall a evs, Forall reading evs -> ends_task this t (pre ++ evs) (k a)) ->
  ends_task this t pre (m ≫= k).
Proof.
  intros Hm Hthrow Hk s. rewrite run_bind. destruct (Hm s) as (evs1 & Htr1 & Hev).
  destruct (m s) as [[a|e] s1]; cbn [fst snd] in *.
  - destruct (Hk a evs1 Hev s1) as (evs & Htr & Ho).
    exists (evs1 ++ evs). split; [now rewrite Htr, Htr1, app_assoc|].
    now rewrite app_assoc.
  - exists evs1. split; [exact Htr1|]. now apply Hthrow.
Qed.

(** ** The blocks of the task that only read the page *)

Lemma reading_extractCaption : steps (emits reading) (extractCaption this).
Proof. unfold extractCaption. frame reading_Frame reading_host reading_host. Qed.

Lemma reading_findPostImage imageLocators :
  steps (emits reading) (findPostImage this imageLocators).
Proof.
  induction imageLocators as [|l ls IH]; cbn [findPostImage];
    frame reading_Frame reading_host reading_host.
Qed.

Lemma reading_extractMedia : steps (emits reading) (extractMedia this).
Proof.
  pose proof reading_findPostImage as Hf.
  unfold extractMedia. frame reading_Frame reading_host reading_host.
Qed.

Lemma ends_recordSubmission pre c matches :
  logAttempts pre = [] -> aiCalls pre = [Ok c] ->
  clicked pre = [First nonPinnedPostLinks; postButton] ->
  typed pre = [(commentTextarea, c)] ->
  ends_task (World := World) this t pre (recordSubmission this t c matches).
Proof.
  intros H1 H2 H3 H4 s. rewrite recordSubmission_run. cbn [fst snd].
  set (ts := fst (host Now (world s))).
  eexists. split; [rewrite logged_trace; reflexivity|].
  unfold taskOutcome.
  rewrite logAttempts_app, aiCalls_app, clicked_app, typed_app, H1, H2, H3, H4.
  exists ts, c. cbn [world add_line].
  destruct (fst (refuse (AppendFileSync _) _)); now repeat split.
Qed.
End TaskLog.

Ltac outcome :=
  unfold taskOutcome;
  repeat match goal with
         | H : Forall reading ?evs |- _ =>
             let H1 := fresh in let H2 := fresh in let H3 := fresh in
             let H4 := fresh in
             destruct (reading_summary evs H) as (H1 & H2 & H3 & H4); clear H;
             rewrite ?logAttempts_app, ?aiCalls_app, ?clicked_app, ?typed_app,
               ?H1, ?H2, ?H3, ?H4
         end;
  rewrite ?logAttempts_app, ?aiCalls_app, ?clicked_app, ?typed_app;
  cbn [logAttempts aiCalls clicked typed flat_map app length];
  repeat split;
  first [ reflexivity | lia | apply prefix_nil | now eexists [_] | now eexists [_; _]
        | idtac ].

Ltac ends_step this t :=
  first
    [ apply (ends_log this t)
    | apply (ends_modify this t); [reflexivity|]
    | apply (ends_call this t); [intros ?e | intros ?a]
    | apply (ends_ret this t)
    | apply (ends_ret_bind this t)
    | apply (ends_reading this t);
      [ first [ apply reading_extractCaption | apply reading_extractMedia ]
      | intros ?e ?evs ?Hev | intros ?a ?evs ?Hev ]
    | match goal with
      | |- ends_task _ _ _ (if ?b then _ else _) => destruct b
      | |- ends_task _ _ _ ((if ?b then _ else _) ≫= _) => destruct b
      end
    | apply (ends_assoc this t) ].

Section TaskEnds.
Context {World : Type} {env : Env World}.
Implicit Types s : State World.

Lemma ends_commentTask this t h : ends_task (World := World) this t [] (commentTask this t h).
Proof.
  unfold commentTask. cbv zeta.
  repeat ends_step this t.
  all: try solve [outcome].
  unfold submitComment. repeat ends_step this t.
  all: try solve [outcome].
  apply ends_recordSubmission; outcome.
Qed.

(** The comment task from its first to its last event. *)
Lemma runCommentTask_outcome this t h s :
  let run := runCommentTask this t h s in
  trace (snd run) = trace s ++ new_events s (snd run)
  /\ taskOutcome this t (fst run) (new_events s (snd run)).
Proof.
  cbv zeta. rewrite runCommentTask_blocks.
  destruct (ends_commentTask this t h (taskStart this t s)) as (evs & Htr & Ho).
  change (trace (taskStart this t s)) with (trace s) in Htr.
  destruct (commentTask this t h (taskStart this t s)) as [[r|e] s1]; cbn [fst snd] in *.
  - assert (Hn : new_events s (set_isCapturingVideo false s1) = evs)
      by now apply new_events_app.
    rewrite Hn. split; [exact Htr | exact Ho].
  - destruct (commentTaskFailed_run this t e s1) as (shot & s2 & -> & Htr2).
    assert (Hn : new_events s (set_isCapturingVideo false s2)
                 = evs ++ [EvOp (Screenshot (errorScreenshot this "comment_task_error" t)) shot]).
    { apply new_events_app. cbn [trace set_isCapturingVideo]. now rewrite Htr2, Htr, app_assoc. }
    cbn [fst snd]. rewrite Hn. split.
    { cbn [trace set_isCapturingVideo]. now rewrite Htr2, Htr, app_assoc. }
    cbn [app] in Ho. destruct Ho as (H1 & H2 & H3 & H4).
    destruct shot; unfold taskOutcome;
      rewrite logAttempts_app, aiCalls_app, clicked_app, typed_app, H1, !app_nil_r; auto.
Qed.

(** X13: what a comment task has done, by its result. [SUCCESS]: one
    entry was handed to the interaction log, that of the comment the AI
    generator returned on its only call, and it was appended unless the
    file system refused the append; that comment, and nothing else, was
    typed, into the comment box; and the latest non-pinned post and then
    the Post button were clicked, and nothing else. [SKIPPED]: nothing was
    handed to the log, nothing typed, and the Post button not clicked.
    [FAILED] or an exception: nothing was handed to the log, though a
    comment may have been typed and the Post button clicked. In every case
    the AI generator was called at most once, at most one text was typed,
    and nothing but the latest post and then the Post button was
    clicked. *)
Theorem comment_logged_iff_success this t h s :
  let run := runCommentTask this t h s in
  let evs := new_events s (snd run) in
  let latestPost := First nonPinnedPostLinks in
  match fst run with
  | Ok SUCCESS =>
      exists timestamp aiComment,
        let entry :=
          logEntryOf timestamp (username (bot_config this)) t "comment" aiComment in
        (logAppends evs = [entry] /\ refusedAppends evs = []
         \/ logAppends evs = [] /\ refusedAppends evs = [entry])
        /\ aiCalls evs = [Ok aiComment]
        /\ clicked evs = [latestPost; postButton]
        /\ typed evs = [(commentTextarea, aiComment)]
  | Ok SKIPPED =>
      logAppends evs = [] /\ refusedAppends evs = []
      /\ (length (aiCalls evs) <= 1)%nat
      /\ clicked evs `prefix_of` [latestPost]
      /\ typed evs = []
  | Ok FAILED | Throw _ =>
      logAppends evs = [] /\ refusedAppends evs = []
      /\ (length (aiCalls evs) <= 1)%nat
      /\ clicked evs `prefix_of` [latestPost; postButton]
      /\ (length (typed evs) <= 1)%nat
  end.
Proof.
  cbv zeta. pose proof (proj2 (runCommentTask_outcome this t h s)) as H.
  unfold taskOutcome in H.
  destruct (fst (runCommentTask this t h s)) as [[]|e].
  - destruct H as (ts & c & H1 & H2). exists ts, c.
    split; [exact (attempts_one _ _ H1) | exact H2].
  - destruct H as (H1 & H2). apply attempts_none in H1 as [H1 H1']. auto.
  - destruct H as (H1 & H2). apply attempts_none in H1 as [H1 H1']. auto.
  - destruct H as (H1 & H2). apply attempts_none in H1 as [H1 H1']. auto.
Qed.
End TaskEnds.

Section LaunchLog.
Context {World : Type} {env : Env World}.
Variable cfg : Config.
Implicit Types s : State World.

Lemma unlogged_summary evs :
  Forall (fun e => logAttempts [e] = []) evs -> logAttempts evs = [].
Proof.
  induction 1 as [|e evs He _ IH]; [reflexivity|].
  change (e :: evs) with ([e] ++ evs). now rewrite logAttempts_app, He, IH.
Qed.

(** Opening a session writes nothing to the interaction log. *)
Lemma unlogged_initializeBotSession a l h :
  steps (emits (fun e => logAttempts [e] = [])) (initializeBotSession cfg a l h).
Proof.
  pose proof (emits_Frame (World := World) (fun e => logAttempts [e] = [])) as HF.
  assert (HPop : forall X (op : Op X) r, bot_op op -> logAttempts [EvOp op r] = [])
    by reflexivity.
  assert (HPhost : forall X (h : Host X) x, logAttempts [EvHost h x] = []) by reflexivity.
  pose proof (steps_init _ _ HF HPop) as Hinit.
  pose proof (steps_new_InstagramBot _ _ HF) as Hnew.
  unfold initializeBotSession, loadOrCreateFingerprint, openSession.
  frame HF HPop HPhost.
  all: try reflexivity.
  - apply (steps_emit _ _ HF). reflexivity.
  - intros s. eexists [_]. split; [reflexivity|]. now constructor.
Qed.

Lemma new_InstagramBot_config a g l s bot :
  fst (new_InstagramBot a g l s) = Ok bot -> bot_config bot = a.
Proof.
  unfold new_InstagramBot. rewrite !run_modify_bind.
  destruct (developerMode g); rewrite run_log_bind; now intros [= <-].
Qed.

(** The bot of a session is the bot of the account. *)
Lemma session_bot a l h s b bot :
  fst (initializeBotSession cfg a l h s) = Ok (Some (b, bot)) -> bot_config bot = a.
Proof.
  unfold initializeBotSession, emit. rewrite run_modify_bind. intros H.
  apply bind_ok_inv in H as (f & _ & H). revert H.
  generalize (snd (loadOrCreateFingerprint a l (add_event (EvSession a) s))). intros s1.
  unfold openSession. cbv zeta. intros H.
  apply bind_ok_inv in H as (b' & _ & H). revert H.
  match goal with |- context [ try_catch ?m ?k ?st ] => generalize st end.
  intros s2. unfold try_catch.
  match goal with |- context [ (gets ?g ≫= ?k) s2 ] => set (body := gets g ≫= k) end.
  destruct (body s2) as [[r|e] s3] eqn:Hb.
  - intros [= ->]. assert (Hr : fst (body s2) = Ok (Some (b, bot))) by now rewrite Hb.
    subst body.
    apply bind_ok_inv in Hr as (c & _ & Hr).
    apply bind_ok_inv in Hr as (? & _ & Hr).
    apply bind_ok_inv in Hr as (? & _ & Hr).
    apply bind_ok_inv in Hr as (bot' & Hnew & Hr).
    apply bind_ok_inv in Hr as (? & _ & Hr).
    apply bind_ok_inv in Hr as (? & _ & Hr).
    injection Hr as <- <-. now apply new_InstagramBot_config in Hnew.
  - run_pure. run_any E; discriminate.
Qed.

(** The task on a session logs exactly what the comment task logs. *)
Lemma taskOnSession_logged a t h b bot s :
  let run := taskOnSession a t h (Some (b, bot)) s in
  let evs := new_events s (snd run) in
  match fst run with
  | Ok (Finished SUCCESS) =>
      exists timestamp aiComment,
        logAttempts evs
        = [logEntryOf timestamp (username (bot_config bot)) t "comment" aiComment]
  | Ok _ => logAttempts evs = []
  | Throw _ => (length (logAttempts evs) <= 1)%nat
  end.
Proof.
  cbv zeta. unfold taskOnSession, try_finally, try_catch. rewrite run_bind.
  destruct (runCommentTask_outcome bot t h s) as (Htr & Ho).
  set (evs := new_events s _) in *.
  destruct (runCommentTask bot t h s) as [r0 s1]; cbn [fst snd] in *.
  assert (Hn : forall rc rs w l1,
             new_events s (deliver rs (add_event (EvOp (BrowserClose b) rc)
                                         (set_world w (add_line l1 s1))))
             = evs ++ [EvOp (BrowserClose b) rc]).
  { intros. apply new_events_app. trace_norm. now rewrite Htr, <- app_assoc. }
  assert (Hl : forall rc, logAttempts (evs ++ [EvOp (BrowserClose b) rc]) = logAttempts evs).
  { intros. now rewrite logAttempts_app, app_nil_r. }
  destruct r0 as [r|e]; run_pure;
    repeat match goal with |- context [ mret (M := M World) ?v ?x ] =>
      change (mret (M := M World) v x) with (Ok v, x) end;
    cbv iota beta; run_any E; cbn [fst snd].
  all: unfold log, modify; cbn [fst snd].
  all: try (change (new_events s (add_line ?l ?st)) with (new_events s st)).
  all: rewrite Hn, Hl.
  - destruct r; [destruct Ho as (ts & c & Ho & _); now exists ts, c | apply Ho | apply Ho].
  - destruct r; [destruct Ho as (ts & c & -> & _); cbn; lia | |];
      destruct Ho as (-> & _); cbn; lia.
  - apply Ho.
  - destruct Ho as (-> & _). cbn; lia.
Qed.

(** A launch writes to the interaction log what its comment task does. *)
Lemma launchBotForTask_logged a t h s :
  let run := launchBotForTask cfg a t h s in
  let evs := new_events s (snd run) in
  match fst run with
  | Ok (Finished SUCCESS) =>
      exists timestamp aiComment,
        logAttempts evs = [logEntryOf timestamp (username a) t "comment" aiComment]
  | Ok _ => logAttempts evs = []
  | Throw _ => (length (logAttempts evs) <= 1)%nat
  end.
Proof.
  cbv zeta. rewrite launchBotForTask_unfold.
  set (s0 := add_event (EvLaunch a t) s).
  assert (H0 : trace s0 = trace s ++ [EvLaunch a t]) by reflexivity.
  pose proof (session_bot a (username a) (Some (headless (settings cfg))) s0) as Hbot.
  destruct (unlogged_initializeBotSession a (username a) (Some (headless (settings cfg))) s0)
    as (evs1 & Htr1 & Hev1).
  apply unlogged_summary in Hev1.
  destruct (initializeBotSession cfg a _ _ s0) as [[session|e] s1]; cbn [fst snd] in *.
  2: { rewrite (new_events_trans _ _ _ _ _ H0 Htr1), logAttempts_app, Hev1. cbn. lia. }
  destruct session as [[b bot]|].
  - specialize (Hbot b bot eq_refl).
    pose proof (taskOnSession_logged a t h b bot s1) as Ht. cbv zeta in Ht.
    pose proof (steps_taskOnSession a t h (Some (b, bot)) s1) as [Hs _].
    apply new_events_trace in Hs. rewrite Hbot in Ht.
    set (evs2 := new_events s1 _) in *.
    destruct (taskOnSession a t h (Some (b, bot)) s1) as [[r|e] s2]; cbn [fst snd] in *.
    + assert (Hn : new_events s (add_event (EvLaunched a t r) s2)
                   = [EvLaunch a t] ++ evs1 ++ evs2 ++ [EvLaunched a t r]).
      { apply new_events_app. cbn [trace add_event]. rewrite Hs, Htr1, H0, <- !app_assoc.
        reflexivity. }
      rewrite Hn, !logAttempts_app, Hev1. cbn [logAttempts flat_map app].
      rewrite app_nil_r. exact Ht.
    + assert (Hn : new_events s s2 = [EvLaunch a t] ++ evs1 ++ evs2).
      { apply new_events_app. rewrite Hs, Htr1, H0, <- !app_assoc. reflexivity. }
      rewrite Hn, !logAttempts_app, Hev1. exact Ht.
  - change (taskOnSession a t h None s1) with (Ok (A := LaunchResult) LAUNCH_ERROR, s1).
    cbv iota beta. cbn [fst snd].
    assert (Hn : new_events s (add_event (EvLaunched a t LAUNCH_ERROR) s1)
                 = [EvLaunch a t] ++ evs1 ++ [EvLaunched a t LAUNCH_ERROR]).
    { apply new_events_app. cbn [trace add_event]. rewrite Htr1, H0, <- !app_assoc.
      reflexivity. }
    rewrite Hn, !logAttempts_app, Hev1. reflexivity.
Qed.

(** X14: a launch hands one entry to the interaction log, that of its
    account and target, when it returns [SUCCESS], and the entry is
    appended unless the file system refuses the append; it hands none when
    it returns [SKIPPED], [FAILED] or [LAUNCH_ERROR]: opening the session
    (navigation, login, cookies) and closing the browser write nothing
    there. When an error leaves the launch at most one entry was handed
    over, the one of a comment posted before [close] rejected. *)
Theorem launch_logged_iff_success a t h s :
  let run := launchBotForTask cfg a t h s in
  let evs := new_events s (snd run) in
  match fst run with
  | Ok (Finished SUCCESS) =>
      exists timestamp aiComment,
        let entry := logEntryOf timestamp (username a) t "comment" aiComment in
        logAppends evs = [entry] /\ refusedAppends evs = []
        \/ logAppends evs = [] /\ refusedAppends evs = [entry]
  | Ok _ => logAppends evs = [] /\ refusedAppends evs = []
  | Throw _ => (length (logAppends evs) + length (refusedAppends evs) <= 1)%nat
  end.
Proof.
  cbv zeta. pose proof (launchBotForTask_logged a t h s) as H. cbv zeta in H.
  destruct (fst (launchBotForTask cfg a t h s)) as [[[]|]|e].
  - destruct H as (ts & c & H). exists ts, c. exact (attempts_one _ _ H).
  - exact (attempts_none _ H).
  - exact (attempts_none _ H).
  - exact (attempts_none _ H).
  - now rewrite <- attempts_length.
Qed.

(** X21: what a launch makes of the comment task it runs on its session.
    The browser is closed once, after everything the task did; when the
    close goes through, the launch returns what the task returned, and
    [FAILED] when the task threw; when the close rejects, its error is
    what leaves the launch, whatever the task did. *)
Theorem launch_result_is_task_result a t h b bot s :
  let task := runCommentTask bot t h s in
  let run := taskOnSession a t h (Some (b, bot)) s in
  exists closed,
    new_events s (snd run) = new_events s (snd task) ++ [EvOp (BrowserClose b) closed]
    /\ fst run
       = match closed with
         | Ok _ =>
             Ok (Finished (match fst task with Ok result => result | Throw _ => FAILED end))
         | Throw e => Throw e
         end.
Proof.
  cbv zeta. unfold taskOnSession, try_finally, try_catch. rewrite run_bind.
  destruct (runCommentTask_outcome bot t h s) as (Htr & _).
  set (evs := new_events s _) in *.
  destruct (runCommentTask bot t h s) as [r0 s1]; cbn [fst snd] in *.
  assert (Hn : forall rc rs w l1,
             new_events s (deliver rs (add_event (EvOp (BrowserClose b) rc)
                                         (set_world w (add_line l1 s1))))
             = evs ++ [EvOp (BrowserClose b) rc]).
  { intros. apply new_events_app. trace_norm. now rewrite Htr, <- app_assoc. }
  destruct r0 as [r|e]; run_pure;
    repeat match goal with |- context [ mret (M := M World) ?v ?x ] =>
      change (mret (M := M World) v x) with (Ok v, x) end;
    cbv iota beta; run_any E; cbn [fst snd].
  all: unfold log, modify; cbn [fst snd].
  all: try (change (new_events s (add_line ?l ?st)) with (new_events s st)).
  all: rewrite Hn; eexists; split; reflexivity.
Qed.
End LaunchLog.

(* ===================================================================== *)
(** * Media and cookies *)
(* ===================================================================== *)

(** Runs a [return] that is applied to a state. *)
Ltac run_ret :=
  repeat match goal with
         | |- context [ mret (M := M ?W) ?v ?x ] =>
             change (mret (M := M W) v x) with (Ok v, x)
         end;
  cbv iota beta.

Section Media.
Context {World : Type} {env : Env World}.
Implicit Types s : State World.

(** The image the loop settles on passed the filter of the loop. *)
Lemma findPostImage_result this imageLocators s :
  match fst (findPostImage this imageLocators s) with
  | Ok (Some src) =>
      JS.is_empty src = false /\ JS.includes src "static" = false
      /\ JS.includes src "sprite" = false
  | _ => True
  end.
Proof.
  revert s. induction imageLocators as [|l ls IH]; intros s; [exact I|].
  cbn [findPostImage]. run_any E1; [|exact I].
  rewrite run_bind.
  assert (Hrest : forall st,
    match fst
      ((src ← call (GetAttribute l "src");
        match src with
        | Some src' =>
            if negb (JS.is_empty src') && negb (JS.includes src' "static")
               && negb (JS.includes src' "sprite")
            then
              log (bot_logger this) Info
                ("Found post image: " +:+ JS.take 80 src' +:+ "...");;
              mret (Some src')
            else findPostImage this ls
        | None => findPostImage this ls
        end) st) with
    | Ok (Some src) =>
        JS.is_empty src = false /\ JS.includes src "static" = false
        /\ JS.includes src "sprite" = false
    | _ => True
    end).
  { intros st. run_any E2; [|exact I].
    destruct a0 as [src|]; [|apply IH].
    destruct (negb (JS.is_empty src)) eqn:H1; cbn [andb]; [|apply IH].
    destruct (negb (JS.includes src "static")) eqn:H2; cbn [andb]; [|apply IH].
    destruct (negb (JS.includes src "sprite")) eqn:H3; cbn [andb]; [|apply IH].
    rewrite run_log_bind. run_ret. cbn [fst]. apply negb_true_iff in H1, H2, H3. auto. }
  destruct (0 <? a)%nat.
  - match goal with |- context [ call (IsVisible l 2000) ?st ] =>
      destruct (call (IsVisible l 2000) st) as [[[]|e] s1]
    end; cbv iota beta; [apply Hrest | apply IH | exact I].
  - run_ret. apply IH.
Qed.

(** X16: the media block of the comment task never throws, whatever the
    page does, and never hands both an image and a video to the AI
    generator. An image URL it returns is not empty and contains neither
    [static] nor [sprite]; a video URL it returns is not empty and is the
    one the response listener captured. *)
Theorem media_for_the_generator this s :
  let run := extractMedia this s in
  match fst run with
  | Ok (image, video) =>
      (image = None \/ video = None)
      /\ match image with
         | Some src =>
             JS.is_empty src = false /\ JS.includes src "static" = false
             /\ JS.includes src "sprite" = false
         | None => True
         end
      /\ match video with
         | Some u => capturedVideoUrl (snd run) = Some u /\ JS.is_empty u = false
         | None => True
         end
  | Throw _ => False
  end.
Proof.
  cbv zeta. unfold extractMedia. cbv zeta. rewrite run_log_bind.
  match goal with |- context [ try_catch ?m ?k ?st ] => set (body := m); generalize st end.
  assert (Hbody : forall st,
            match body st with
            | (Ok (image, video), s') =>
                (image = None \/ video = None)
                /\ match image with
                   | Some src =>
                       JS.is_empty src = false /\ JS.includes src "static" = false
                       /\ JS.includes src "sprite" = false
                   | None => True
                   end
                /\ match video with
                   | Some u => capturedVideoUrl s' = Some u /\ JS.is_empty u = false
                   | None => True
                   end
            | (Throw _, _) => True
            end).
  { intros st. subst body. run_any E1; [|exact I].
    rewrite run_bind.
    assert (Hvideo : forall st1,
      match
        (log (bot_logger this) Info "Detected video post";;
         captured ← gets capturedVideoUrl;
         if JS.truthy captured then
           log (bot_logger this) Info
             ("Using captured video URL: " +:+ default EmptyString captured);;
           mret (M := M World) (@None string, captured)
         else
           log (bot_logger this) Warn
             "Video post detected but no video URL was captured from network requests";;
           mret (None, None)) st1
      with
      | (Ok (image, video), s') =>
          (image = None \/ video = None)
          /\ match image with
             | Some src =>
                 JS.is_empty src = false /\ JS.includes src "static" = false
                 /\ JS.includes src "sprite" = false
             | None => True
             end
          /\ match video with
             | Some u => capturedVideoUrl s' = Some u /\ JS.is_empty u = false
             | None => True
             end
      | (Throw _, _) => True
      end).
    { intros st1. rewrite run_log_bind, run_gets_bind.
      cbn [capturedVideoUrl add_line].
      destruct (capturedVideoUrl st1) as [u|] eqn:Hc; cbn [JS.truthy].
      - destruct (JS.is_empty u) eqn:Hu; cbn [negb]; rewrite run_log_bind; run_ret;
          cbn [capturedVideoUrl add_line]; auto.
      - rewrite run_log_bind. run_ret. auto. }
    assert (Himage : forall st1,
      match
        (postImageUrl ← findPostImage this
           [ First (Css (dialogSelector +:+ " img[src*=" +:+ q "instagram" +:+ "]"));
             First (Css (dialogSelector +:+ " img[alt]"));
             First (Css (dialogSelector +:+ " article img")) ];
         when (negb (JS.truthy postImageUrl))
           (log (bot_logger this) Info
              "No post image found or image could not be extracted.");;
         mret (M := M World) (postImageUrl, @None string)) st1
      with
      | (Ok (image, video), s') =>
          (image = None \/ video = None)
          /\ match image with
             | Some src =>
                 JS.is_empty src = false /\ JS.includes src "static" = false
                 /\ JS.includes src "sprite" = false
             | None => True
             end
          /\ match video with
             | Some u => capturedVideoUrl s' = Some u /\ JS.is_empty u = false
             | None => True
             end
      | (Throw _, _) => True
      end).
    { intros st1. rewrite run_bind.
      match goal with |- context [ findPostImage this ?ls st1 ] =>
        pose proof (findPostImage_result this ls st1) as Hf;
        destruct (findPostImage this ls st1) as [[img|e] s2]
      end; [|exact I].
      rewrite run_when_log_bind. run_ret. cbn [fst] in Hf.
      split; [now right|]. split; [|exact I]. destruct img; [exact Hf | exact I]. }
    destruct (0 <? a)%nat.
    - run_ret. apply Hvideo.
    - run_any E2; [|exact I]. run_ret. destruct (0 <? a0)%nat; [apply Hvideo | apply Himage]. }
  intros st. unfold try_catch. specialize (Hbody st).
  destruct (body st) as [[[image video]|e] s1]; [exact Hbody|].
  rewrite run_log_bind. run_ret. cbn [fst snd]. auto.
Qed.
End Media.

Section Cookies.
Context {World : Type} {env : Env World}.
Implicit Types s : State World.
Variable this : Bot.


Lemma bind_ok_run {A B} (m : M World A) (k : A -> M World B) s r s' :
  (m ≫= k) s = (Ok r, s') -> exists a s1, m s = (Ok a, s1) /\ k a s1 = (Ok r, s').
Proof.
  rewrite run_bind. destruct (m s) as [[a|e] s1]; [eauto | discriminate].
Qed.

Lemma any_Frame : Frame (World := World) (emits (fun _ => True)) (fun _ => True).
Proof. apply emits_Frame. Qed.

Lemma any_op X (op : Op X) (r : Res X) : bot_op op -> True.
Proof. auto. Qed.

Lemma any_host X (h : Host X) (x : X) : True.
Proof. auto. Qed.

Lemma saved_mono s0 s1 s2 s3 :
  emits (fun _ => True) s0 s1 -> emits (fun _ => True) s1 s2 -> emits (fun _ => True) s2 s3 ->
  cookieFiles s3 = cookieFiles s2 -> cookies_saved this s1 s2 -> cookies_saved this s0 s3.
Proof.
  intros (e0 & H0 & _) (e1 & H1 & _) (e2 & H2 & _) Hc [Hin | (e & Hin)].
  - left. now rewrite Hc.
  - right. exists e. rewrite (new_events_app _ _ _ H1) in Hin.
    erewrite new_events_app; [|rewrite H2, H1, H0, <- !app_assoc; reflexivity].
    apply in_or_app. right. apply in_or_app. now left.
Qed.

(** [ensureCookiesAreSaved] never throws, and leaves the cookie file in
    place unless saving it failed. *)
Lemma ensureCookiesAreSaved_saved s :
  let run := ensureCookiesAreSaved this s in
  fst run = Ok tt /\ emits (fun _ => True) s (snd run) /\ cookies_saved this s (snd run).
Proof.
  cbv zeta. unfold ensureCookiesAreSaved. rewrite run_gets_bind.
  destruct (bool_decide (username (bot_config this) ∈ cookieFiles s)) eqn:Hd; cbn [negb].
  - apply bool_decide_eq_true in Hd. run_ret. cbn [fst snd].
    split; [reflexivity|]. split; [apply emits_refl | now left].
  - rewrite run_log_bind. unfold try_catch. run_any E.
    + rewrite run_modify_bind. unfold log, modify. cbn [fst snd].
      split; [reflexivity|]. split.
      * eexists [_]. split; [cbn [trace set_cookieFiles add_line]; now trace_norm|].
        now constructor.
      * left. cbn [cookieFiles set_cookieFiles add_line]. set_solver.
    + unfold log, modify. cbn [fst snd]. split; [reflexivity|]. split.
      * eexists [_]. split; [now trace_norm | now constructor].
      * right. exists e. erewrite new_events_app; [|now trace_norm]. now left.
Qed.

(** A login that types the credentials ends with the cookies on disk. *)
Lemma typeCredentialsAndSubmit_saved s r :
  fst (typeCredentialsAndSubmit this s) = Ok r ->
  username (bot_config this) ∈ cookieFiles (snd (typeCredentialsAndSubmit this s)).
Proof.
  destruct (typeCredentialsAndSubmit this s) as [r' s'] eqn:H. cbn [fst snd].
  intros ->. unfold typeCredentialsAndSubmit in H.
  repeat first [ rewrite run_log_bind in H
               | apply bind_ok_run in H as (? & ? & _ & H) ].
  injection H as <-. cbn [cookieFiles set_cookieFiles]. set_solver.
Qed.
End Cookies.

(** The trace of [s1] extends that of [s] when [Hm] says that [s1] is the
    state a computation built from the operations of the bot leaves. *)
Ltac grown HF this Hm G :=
  match type of Hm with
  | ?m ?s = (_, ?s1) =>
      assert (G : emits (fun _ => True) s s1);
      [ let Hs := fresh in
        assert (Hs : steps (emits (fun _ => True)) m);
        [ pose proof (steps_dismissCommonPopups _ _ HF any_op this);
          pose proof (steps_checkIfLoggedIn _ _ HF any_op this);
          pose proof (steps_ensureCookiesAreSaved _ _ HF any_op this);
          pose proof (steps_login _ _ HF any_op this);
          pose proof (steps_typeCredentialsAndSubmit _ _ HF any_op this);
          frame HF any_op any_host; fail 2 "cannot frame" m
        | specialize (Hs s); rewrite Hm in Hs; exact Hs ]
      | ]
  end.

Section Login.
Context {World : Type} {env : Env World}.
Implicit Types s : State World.
Variable this : Bot.

(** A login that returns leaves the cookies on disk, unless it found the
    session already open and could not save them. *)
Lemma login_saved s r :
  fst (login this s) = Ok r ->
  emits (fun _ => True) s (snd (login this s)) /\ cookies_saved this s (snd (login this s)).
Proof.
  pose proof (any_Frame (World := World)) as HF.
  pose proof (steps_login _ _ HF any_op this s) as Hall.
  destruct (login this s) as [r' s'] eqn:H. cbn [fst snd] in *.
  intros ->. split; [exact Hall|]. unfold login in H.
  apply bind_ok_run in H as (n & s1 & H1 & H). grown HF this H1 G1.
  apply bind_ok_run in H as ([] & s2 & H2 & H). grown HF this H2 G2.
  apply bind_ok_run in H as ([] & s3 & H3 & H). grown HF this H3 G3.
  apply bind_ok_run in H as (found & s4 & H4 & H).
  destruct found.
  { left. pose proof (typeCredentialsAndSubmit_saved this s4 r) as Hs.
    rewrite H in Hs. now apply Hs. }
  injection H as <- <-. unfold try_catch in H4.
  match type of H4 with context [ match ?b s3 with _ => _ end ] =>
    destruct (b s3) as [[found|e] s5] eqn:Hb
  end.
  { apply bind_ok_run in Hb as (? & ? & _ & Hb). injection Hb as <- <-. discriminate. }
  grown HF this Hb G5.
  apply bind_ok_run in H4 as ([] & s6 & H6 & H4). grown HF this H6 G6.
  apply bind_ok_run in H4 as (loggedIn & s7 & H7 & H4). grown HF this H7 G7.
  destruct loggedIn; [|discriminate].
  rewrite run_log_bind in H4.
  apply bind_ok_run in H4 as ([] & s8 & H8 & H4). injection H4 as <-.
  match type of H8 with ensureCookiesAreSaved this ?st = _ =>
    destruct (ensureCookiesAreSaved_saved this st) as (_ & Ge & Hsaved);
    rewrite H8 in Ge, Hsaved; cbn [snd] in Ge, Hsaved;
    assert (Gl : emits (fun _ => True) s7 st) by (now apply emits_same_trace)
  end.
  eapply saved_mono; [| exact Ge | apply emits_refl | reflexivity | exact Hsaved].
  repeat (eapply emits_trans; [eassumption|]). exact Gl.
Qed.

(** X15: when [init] returns it returns [true], and the cookie file of
    the account is then on disk, unless a [storageState] that was to write
    it rejected during the call (which [ensureCookiesAreSaved] only
    prints): both the path that finds the session open and the path that
    logs in end with the cookies saved. *)
Theorem init_saves_cookies s :
  let run := init this s in
  match fst run with
  | Ok r =>
      r = true
      /\ (username (bot_config this) ∈ cookieFiles (snd run)
          \/ exists e,
               In (EvOp (StorageState (cookiePath this)) (Throw e))
                  (new_events s (snd run)))
  | Throw _ => True
  end.
Proof.
  cbv zeta. pose proof (any_Frame (World := World)) as HF.
  destruct (init this s) as [[r|e] s'] eqn:H; [|exact I]. cbn [fst snd].
  fold (cookies_saved this s s'). unfold init in H.
  apply bind_ok_run in H as ([] & s1 & H1 & H). grown HF this H1 G1.
  rewrite run_log_bind in H.
  match type of H with _ ?st = _ =>
    assert (G1' : emits (fun _ => True) s1 st) by (now apply emits_same_trace)
  end.
  apply bind_ok_run in H as ([] & s2 & H2 & H). grown HF this H2 G2.
  apply bind_ok_run in H as ([] & s3 & H3 & H). grown HF this H3 G3.
  apply bind_ok_run in H as ([] & s4 & H4 & H). grown HF this H4 G4.
  rewrite run_log_bind in H.
  match type of H with _ ?st = _ =>
    assert (G4' : emits (fun _ => True) s4 st) by (now apply emits_same_trace)
  end.
  assert (Hlogin : forall st line r1 s1',
            emits (fun _ => True) s st ->
            (log (bot_logger this) line.1 line.2;; login this;; mret true) st = (Ok r1, s1') ->
            r1 = true /\ cookies_saved this s s1').
  { intros st line r1 s1' Gst Hl. rewrite run_log_bind in Hl.
    apply bind_ok_run in Hl as ([] & s5 & H5 & Hl). injection Hl as <- <-.
    split; [reflexivity|].
    match type of H5 with login this ?st' = _ =>
      destruct (login_saved st' tt) as (Gl & Hs); [now rewrite H5|];
      rewrite H5 in Gl, Hs; cbn [snd] in Gl, Hs;
      assert (Gst' : emits (fun _ => True) st st') by (now apply emits_same_trace)
    end.
    eapply saved_mono; [| exact Gl | apply emits_refl | reflexivity | exact Hs].
    eapply emits_trans; eassumption. }
  unfold try_catch in H.
  match type of H with context [ match ?b ?st with _ => _ end ] =>
    assert (G5 : emits (fun _ => True) s st)
      by (repeat (eapply emits_trans; [eassumption|]); apply emits_refl);
    destruct (b st) as [[r0|e] s5] eqn:Hb
  end.
  - injection H as <- <-.
    apply bind_ok_run in Hb as ([] & s6 & H6 & Hb). grown HF this H6 G6.
    apply bind_ok_run in Hb as (loggedIn & s7 & H7 & Hb). grown HF this H7 G7.
    destruct loggedIn.
    + rewrite run_log_bind in Hb.
      apply bind_ok_run in Hb as ([] & s8 & H8 & Hb). injection Hb as <- <-.
      split; [reflexivity|].
      match type of H8 with ensureCookiesAreSaved this ?st = _ =>
        destruct (ensureCookiesAreSaved_saved this st) as (_ & Ge & Hsaved);
        rewrite H8 in Ge, Hsaved; cbn [snd] in Ge, Hsaved;
        assert (Gl : emits (fun _ => True) s7 st) by (now apply emits_same_trace)
      end.
      eapply saved_mono; [| exact Ge | apply emits_refl | reflexivity | exact Hsaved].
      repeat (eapply emits_trans; [eassumption|]). exact Gl.
    + apply (Hlogin s7 (Info, "Not logged in. Performing login.")); [|exact Hb].
      repeat (eapply emits_trans; [eassumption|]). apply emits_refl.
  - grown HF this Hb G6.
    apply (Hlogin s5 (Error, "Error during init: " +:+ e +:+ ". Attempting login..."));
      [|exact H].
    eapply emits_trans; eassumption.
Qed.
End Login.

(* ===================================================================== *)
(** * The interaction log over a run *)
(* ===================================================================== *)

Section LogAccounting.
Context {World : Type} {env : Env World}.
Variable cfg : Config.
Implicit Types s : State World.

Lemma successes_app l1 l2 : successes (l1 ++ l2) = (successes l1 + successes l2)%nat.
Proof. unfold successes. now rewrite taskResults_app, List.filter_app, length_app. Qed.

Lemma logged_refl s : logged_per_success s s.
Proof. exists []. split; [now rewrite app_nil_r | reflexivity]. Qed.

Lemma logged_trans s1 s2 s3 :
  logged_per_success s1 s2 -> logged_per_success s2 s3 -> logged_per_success s1 s3.
Proof.
  intros (e1 & H1 & L1) (e2 & H2 & L2). exists (e1 ++ e2).
  split; [now rewrite H2, H1, app_assoc|].
  rewrite logAttempts_app, length_app, successes_app. lia.
Qed.

Lemma logged_then_nearly s1 s2 s3 :
  logged_per_success s1 s2 -> logged_nearly s2 s3 -> logged_nearly s1 s3.
Proof.
  intros (e1 & H1 & L1) (e2 & H2 & L2). exists (e1 ++ e2).
  split; [now rewrite H2, H1, app_assoc|].
  rewrite logAttempts_app, length_app, successes_app. lia.
Qed.

Lemma nearly_then_logged s1 s2 s3 :
  logged_nearly s1 s2 -> logged_per_success s2 s3 -> logged_nearly s1 s3.
Proof.
  intros (e1 & H1 & L1) (e2 & H2 & L2). exists (e1 ++ e2).
  split; [now rewrite H2, H1, app_assoc|].
  rewrite logAttempts_app, length_app, successes_app. lia.
Qed.

Lemma logged_is_nearly s s' : logged_per_success s s' -> logged_nearly s s'.
Proof. intros (evs & H & L). exists evs. split; [exact H | lia]. Qed.

(** Events that are neither an entry of the interaction log nor the
    return of a task. *)
Lemma silent_logged s s' :
  emits (fun e => logAttempts [e] = [] /\ taskResults [e] = []) s s' ->
  logged_per_success s s'.
Proof.
  intros (evs & Htr & Hev). exists evs. split; [exact Htr|].
  clear Htr. induction Hev as [|e evs [H1 H2] _ IH]; [reflexivity|].
  change (e :: evs) with ([e] ++ evs).
  rewrite logAttempts_app, length_app, successes_app, H1, IH.
  unfold successes. now rewrite H2.
Qed.

(** ** Rules *)

Lemma leaves_ret {A} (a : A) :
  leaves (World := World) logged_per_success logged_nearly (mret a).
Proof. intros s. apply logged_refl. Qed.

Lemma leaves_bind {A B} (m : M World A) (k : A -> M World B) :
  leaves logged_per_success logged_nearly m ->
  (forall a, leaves logged_per_success logged_nearly (k a)) ->
  leaves logged_per_success logged_nearly (m ≫= k).
Proof.
  intros Hm Hk s. rewrite run_bind. specialize (Hm s).
  destruct (m s) as [[a|e] s1]; [|exact Hm]. cbn [fst snd] in Hm.
  specialize (Hk a s1). destruct (k a s1) as [[b|e] s2]; cbn [fst snd] in *.
  - eapply logged_trans; eassumption.
  - eapply logged_then_nearly; eassumption.
Qed.

Lemma leaves_silent {A} (m : M World A) :
  steps (emits (fun e => logAttempts [e] = [] /\ taskResults [e] = [])) m ->
  leaves logged_per_success logged_nearly m.
Proof.
  intros Hm s. pose proof (silent_logged _ _ (Hm s)) as H.
  destruct (fst (m s)); [exact H | now apply logged_is_nearly].
Qed.

(** ** The silent parts of the monitor *)

Lemma silent_Frame :
  Frame (World := World)
    (emits (fun e => logAttempts [e] = [] /\ taskResults [e] = []))
    (fun e => logAttempts [e] = [] /\ taskResults [e] = []).
Proof. apply emits_Frame. Qed.

Lemma silent_op X (op : Op X) r :
  bot_op op -> logAttempts [EvOp op r] = [] /\ taskResults [EvOp op r] = [].
Proof. now split. Qed.

Lemma silent_host X (h : Host X) x :
  logAttempts [EvHost h x] = [] /\ taskResults [EvHost h x] = [].
Proof. now split. Qed.

Lemma silent_page s s' :
  page_rel s s' -> emits (fun e => logAttempts [e] = [] /\ taskResults [e] = []) s s'.
Proof.
  intros [He _]. eapply emits_weaken; [|exact He].
  intros e. destruct e as [X op r|X h x|[]| | | |[]]; simpl; tauto.
Qed.

Lemma silent_writeProfileStatsFile content :
  steps (World := World) (emits (fun e => logAttempts [e] = [] /\ taskResults [e] = []))
    (writeProfileStatsFile content).
Proof.
  intros s. exists [EvFs (WriteProfileStats content)].
  split; [reflexivity | repeat constructor].
Qed.

Lemma silent_commitStats t cur :
  steps (World := World) (emits (fun e => logAttempts [e] = [] /\ taskResults [e] = []))
    (commitStats t cur).
Proof.
  pose proof silent_Frame as HF. pose proof silent_writeProfileStatsFile as Hw.
  unfold commitStats, updateProfileStatsInCsv. frame HF silent_op silent_host.
  apply steps_modify. intros s. now apply emits_same_trace.
Qed.

Lemma silent_loadProfileStatsFromCsv :
  steps (World := World) (emits (fun e => logAttempts [e] = [] /\ taskResults [e] = []))
    loadProfileStatsFromCsv.
Proof.
  pose proof silent_Frame as HF. pose proof silent_writeProfileStatsFile as Hw.
  unfold loadProfileStatsFromCsv. frame HF silent_op silent_host.
Qed.

Lemma silent_initializeBotSession a l h :
  steps (emits (fun e => logAttempts [e] = [] /\ taskResults [e] = []))
    (initializeBotSession cfg a l h).
Proof.
  pose proof silent_Frame as HF.
  pose proof (steps_init _ _ HF silent_op) as Hinit.
  pose proof (steps_new_InstagramBot _ _ HF) as Hnew.
  unfold initializeBotSession, loadOrCreateFingerprint, openSession.
  frame HF silent_op silent_host.
  all: try (now split).
  - apply (steps_emit _ _ HF). now split.
  - intros s. eexists [_]. split; [reflexivity|]. now repeat constructor.
Qed.

(** ** The tasks *)

Lemma taskResults_taskEvents evs : taskResults (taskEvents evs) = taskResults evs.
Proof.
  induction evs as [|e evs IH]; [reflexivity|].
  unfold taskResults, taskEvents in *.
  destruct e; cbn [List.filter flat_map app]; now rewrite ?IH.
Qed.

Lemma leaves_launchBotForTask a t h :
  leaves logged_per_success logged_nearly (launchBotForTask cfg a t h).
Proof.
  intros s. pose proof (launchBotForTask_logged cfg a t h s) as Hl.
  pose proof (launchBotForTask_log cfg a t h s) as (_ & Ht).
  destruct (launchBotForTask_run cfg a t h s) as (r & s' & evs0 & Hrun & _ & Htr & _).
  cbv zeta in Hl, Ht. rewrite Hrun in *. cbn [fst snd] in *.
  rewrite (new_events_app _ _ _ Htr) in Hl, Ht.
  set (evs := EvLaunch a t :: evs0 ++ _) in *.
  assert (Hres : taskResults evs = taskResults (taskEvents evs))
    by now rewrite taskResults_taskEvents.
  destruct r as [r|e]; (exists evs; split; [exact Htr|]); unfold successes; rewrite Hres.
  - destruct Ht as (-> & _). cbn [taskResults flat_map app List.filter].
    destruct r as [[]|]; cbn [length]; try (now rewrite Hl).
    destruct Hl as (ts & c & ->). reflexivity.
  - destruct Ht as (-> & _). cbn [taskResults flat_map app List.filter length]. lia.
Qed.

Lemma leaves_runTasks tasks total t b :
  leaves logged_per_success logged_nearly (runTasks cfg tasks total t b).
Proof.
  revert b. induction tasks as [|a tasks IH]; intros b; [apply leaves_ret|].
  cbn [runTasks].
  apply leaves_bind; [apply leaves_silent, (steps_log _ _ silent_Frame)|intros _].
  apply leaves_bind; [apply leaves_launchBotForTask|intros r].
  apply leaves_bind.
  { apply leaves_silent. frame silent_Frame silent_op silent_host. }
  intros _. apply leaves_bind; [|intros _; apply IH].
  apply leaves_silent. apply (steps_when _ _ silent_Frame).
  eapply steps_weaken; [apply silent_page | apply steps_waitBeforeNextBot].
Qed.

Lemma leaves_compareStats tm t cur :
  leaves logged_per_success logged_nearly (compareStats cfg tm t cur).
Proof.
  pose proof silent_commitStats as Hc.
  unfold compareStats. cbv zeta.
  apply leaves_bind; [apply leaves_silent, (steps_gets _ _ silent_Frame)|intros previous].
  destruct previous as [previous|].
  2: { apply leaves_silent. frame silent_Frame silent_op silent_host. }
  destruct (JS.gt _ _).
  2: { apply leaves_silent. frame silent_Frame silent_op silent_host. }
  apply leaves_bind; [apply leaves_silent, (steps_log _ _ silent_Frame)|intros _].
  apply leaves_bind.
  { apply leaves_silent. frame silent_Frame silent_op silent_host. }
  intros _. apply leaves_bind; [apply leaves_runTasks|intros ok].
  apply leaves_silent. frame silent_Frame silent_op silent_host.
Qed.

Lemma leaves_checkTarget tm t :
  leaves logged_per_success logged_nearly (checkTarget cfg tm t).
Proof.
  unfold checkTarget. apply leaves_bind.
  { apply leaves_silent. eapply steps_weaken; [apply silent_page | apply steps_fetchAndWait]. }
  intros [stats|]; [apply leaves_compareStats|].
  apply leaves_silent, (steps_log _ _ silent_Frame).
Qed.

Lemma leaves_forEach {A} (l : list A) (f : A -> M World unit) :
  (forall x, leaves logged_per_success logged_nearly (f x)) ->
  leaves logged_per_success logged_nearly (forEach l f).
Proof.
  intros Hf. induction l as [|x l IH]; cbn [forEach]; [apply leaves_ret|].
  apply leaves_bind; [apply Hf | intros _; exact IH].
Qed.

Lemma leaves_monitorLoop cycles tm :
  leaves logged_per_success logged_nearly (monitorLoop cfg cycles tm).
Proof.
  induction cycles as [|n IH]; cbn [monitorLoop]; [apply leaves_ret|].
  apply leaves_bind; [|intros _; exact IH].
  unfold monitoringCycle. cbv zeta.
  apply leaves_bind; [apply leaves_silent, (steps_log _ _ silent_Frame)|intros _].
  apply leaves_bind; [apply leaves_forEach, leaves_checkTarget|intros _].
  apply leaves_silent. frame silent_Frame silent_op silent_host.
Qed.

Lemma leaves_monitorWith b (body : M World unit) :
  leaves logged_per_success logged_nearly body ->
  leaves logged_per_success logged_nearly (monitorWith b body).
Proof.
  intros Hb s. unfold monitorWith. specialize (Hb s).
  destruct (body s) as [[[]|e] s1]; cbn [fst snd] in *; [exact Hb|].
  assert (Hn : forall rc rs w l1 l2,
             logged_per_success s1
               (deliver rs (add_event (EvOp (BrowserClose b) rc)
                              (set_world w (add_line l1 (add_line l2 s1)))))).
  { intros. exists [EvOp (BrowserClose b) rc]. split; [now trace_norm | reflexivity]. }
  run_pure. run_any E; unfold throw; cbn [fst snd];
    (eapply nearly_then_logged; [exact Hb | apply Hn]).
Qed.

(** X17: the interaction log in monitor mode, over any number of cycles.
    As long as the mode has not thrown, the log has been handed exactly one
    entry per task that returned [SUCCESS], and each of them was appended
    unless the file system refused the append: the entries appended and
    the entries refused are together as many as the tasks that returned
    [SUCCESS].  Fetching snapshots, opening sessions and committing
    snapshots hand nothing to the log.  When an error ended the mode, the
    log has been handed that number of entries or one more, the entry of a
    comment posted by a task that did not return. *)
Theorem monitor_log_accounting cycles s :
  let run := runMonitorMode cfg cycles s in
  let evs := new_events s (snd run) in
  let handed := (length (logAppends evs) + length (refusedAppends evs))%nat in
  match fst run with
  | Ok _ => handed = successes evs
  | Throw _ => (successes evs <= handed <= S (successes evs))%nat
  end.
Proof.
  cbv zeta.
  enough (H : leaves logged_per_success logged_nearly (runMonitorMode cfg cycles)).
  { specialize (H s). destruct (fst (runMonitorMode cfg cycles s));
      destruct H as (evs & Htr & Hl);
      now rewrite (new_events_app _ _ _ Htr), <- attempts_length. }
  unfold runMonitorMode. cbv zeta.
  apply leaves_bind; [apply leaves_silent, (steps_log _ _ silent_Frame)|intros _].
  destruct (List.filter enabled (accounts cfg)) as [|m accs].
  { apply leaves_silent. frame silent_Frame silent_op silent_host. }
  apply leaves_bind.
  { apply leaves_silent. unfold warnSharedTargets. cbv zeta.
    apply (steps_when _ _ silent_Frame).
    apply (steps_bind _ _ silent_Frame); [apply (steps_log _ _ silent_Frame)|intros _].
    apply (steps_bind _ _ silent_Frame); [apply (steps_log _ _ silent_Frame)|intros _].
    apply (steps_bind _ _ silent_Frame); [|intros _; apply (steps_log _ _ silent_Frame)].
    match goal with |- steps _ (forEach ?shared _) =>
      induction shared as [|x rest IH]
    end; cbn [forEach]; [apply (steps_ret _ _ silent_Frame)|].
    apply (steps_bind _ _ silent_Frame); [apply (steps_log _ _ silent_Frame)|intros _; exact IH]. }
  intros _. destruct (_ =? _)%nat.
  { apply leaves_silent. frame silent_Frame silent_op silent_host. }
  apply leaves_bind; [apply leaves_silent, (steps_log _ _ silent_Frame)|intros _].
  apply leaves_bind; [apply leaves_silent, (steps_log _ _ silent_Frame)|intros _].
  apply leaves_bind; [apply leaves_silent, silent_initializeBotSession|].
  intros [[b bot]|].
  2: { apply leaves_silent. frame silent_Frame silent_op silent_host. }
  apply leaves_monitorWith.
  apply leaves_bind; [apply leaves_silent, silent_loadProfileStatsFromCsv|intros stats].
  apply leaves_bind; [|intros _; apply leaves_monitorLoop].
  apply leaves_silent, steps_modify. intros s'. now apply emits_same_trace.
Qed.
End LogAccounting.

(* ===================================================================== *)
(** * Fetched counts *)
(* ===================================================================== *)

Section Numbers.

Lemma shr_1_nonneg mrs : 0 <= shr_m mrs -> 0 <= shr_m (shr_1 mrs).
Proof.
  destruct mrs as [m r s]. cbn [shr_m]. intros Hm.
  destruct m as [|p|p]; [cbn; lia| |lia].
  destruct p; cbn; lia.
Qed.

Lemma iter_shr_1_nonneg p mrs :
  0 <= shr_m mrs -> 0 <= shr_m (SpecFloat.iter_pos shr_1 p mrs).
Proof.
  revert mrs. induction p as [p IH|p IH|]; intros mrs Hm; cbn [SpecFloat.iter_pos].
  - now apply IH, IH, shr_1_nonneg.
  - now apply IH, IH.
  - now apply shr_1_nonneg.
Qed.

Lemma shr_fexp_nonneg m e l :
  0 <= m -> 0 <= shr_m (fst (shr_fexp JS.prec JS.emax m e l)).
Proof.
  intros Hm. unfold shr_fexp, shr.
  assert (H0 : 0 <= shr_m (shr_record_of_loc m l)) by (destruct l as [|[]]; exact Hm).
  destruct (_ - e) as [|p|p]; cbn [fst]; [exact H0 | now apply iter_shr_1_nonneg | exact H0].
Qed.

Lemma round_nearest_even_nonneg m l : 0 <= m -> 0 <= round_nearest_even m l.
Proof.
  intros Hm. unfold round_nearest_even. destruct l as [|[]]; try lia.
  destruct (IntDef.Z.even m); lia.
Qed.

Lemma binary_round_aux_number sx mx ex lx :
  0 <= mx -> JS.isNaN (binary_round_aux JS.prec JS.emax sx mx ex lx) = false.
Proof.
  intros Hm. unfold binary_round_aux.
  pose proof (shr_fexp_nonneg mx ex lx Hm) as H1.
  destruct (shr_fexp JS.prec JS.emax mx ex lx) as [mrs' e']. cbn [fst] in H1.
  pose proof (shr_fexp_nonneg _ e' loc_Exact
                (round_nearest_even_nonneg _ (loc_of_shr_record mrs') H1)) as H2.
  destruct (shr_fexp JS.prec JS.emax _ e' loc_Exact) as [mrs'' e'']. cbn [fst] in H2.
  destruct (shr_m mrs'') as [|p|p]; [reflexivity| |lia].
  now destruct (_ <=? _).
Qed.

Lemma binary_normalize_number m e szero :
  JS.isNaN (binary_normalize JS.prec JS.emax m e szero) = false.
Proof.
  unfold binary_normalize, binary_round.
  destruct m as [|p|p]; [reflexivity| |];
    destruct (shl_align _ _ _) as [mz ez]; now apply binary_round_aux_number.
Qed.

Lemma Math_round_number x : JS.isNaN x = false -> JS.isNaN (JS.Math_round x) = false.
Proof.
  destruct x as [s|s| |s m e]; try (intros; assumption). intros _.
  unfold JS.Math_round. destruct (0 <=? e); [reflexivity|].
  apply binary_normalize_number.
Qed.

Lemma mul_number x sy my ey :
  JS.isNaN x = false -> JS.isNaN (JS.mul x (S754_finite sy my ey)) = false.
Proof.
  destruct x as [s|s| |s m e]; try (intros; assumption); try reflexivity. intros _.
  unfold JS.mul, SFmul. now apply binary_round_aux_number.
Qed.

(** What [parseFollowerCount] returns is a number. *)
Lemma parseFollowerCount_number text f :
  parseFollowerCount text = Some f -> JS.isNaN f = false.
Proof.
  unfold parseFollowerCount. destruct (JS.is_empty text); [discriminate|]. cbv zeta.
  destruct (JS.isNaN (JS.parseFloat _)) eqn:Hn; [discriminate|].
  assert (Hk : exists m e, JS.of_Z 1000 = S754_finite false m e) by (vm_compute; eauto).
  assert (Hm : exists m e, JS.of_Z 1000000 = S754_finite false m e) by (vm_compute; eauto).
  destruct Hk as (mk & ek & ->), Hm as (mm & em & ->).
  destruct (JS.includes _ "k"); [|destruct (JS.includes _ "m")]; intros [= <-];
    [apply Math_round_number, mul_number | apply Math_round_number, mul_number |];
    exact Hn.
Qed.
End Numbers.

Section FetchedNumbers.
Context {World : Type} {env : Env World}.
Implicit Types s : State World.

(** X18: the counts of a snapshot that [getProfileStats] returns are
    numbers, never [NaN]: the post count and a follower count read from
    the [title] attribute are checked by the code, and a follower count
    read from the text, which [parseFollowerCount] may have multiplied by
    1000 or 1000000 and rounded, is a number or an infinity. So the
    comparisons of the monitoring loop are never made on a fetched
    [NaN]. *)
Theorem fetched_counts_are_numbers u l s :
  match fst (getProfileStats u l s) with
  | Ok (Some stats) =>
      JS.isNaN (postCount stats) = false /\ JS.isNaN (followerCount stats) = false
  | _ => True
  end.
Proof.
  destruct (getProfileStats_cases u l s) as (r & s1 & evs & -> & _ & H). cbn [fst].
  destruct r as [[stats|]|e]; try exact I.
  destruct H as (postText & rest & _ & _ & _ & Hp & Hf). split; [exact Hp|].
  destruct Hf as [(n & t & _ & _ & Hf) | (pre & t & _ & Hf)]; [exact Hf|].
  now apply parseFollowerCount_number in Hf.
Qed.
End FetchedNumbers.

(* ===================================================================== *)
(** * Logging in *)
(* ===================================================================== *)

(** Splits the run [H] of a sequence into the runs of its parts, with the
    growth of the trace over each. *)
Ltac unbind HF this H :=
  repeat (let Hm := fresh "Hm" in
          let G := fresh "G" in
          apply bind_ok_run in H as (? & ? & Hm & H); grown HF this Hm G).

(** The trace grows from the first state to the second along the growths
    in the context. *)
Ltac grows :=
  first [ apply emits_refl | eassumption | eapply emits_trans; [eassumption|]; grows ].

Section LoggedIn.
Context {World : Type} {env : Env World}.
Implicit Types s : State World.
Variable this : Bot.

Lemma seen_mono s0 s1 s2 s3 :
  emits (fun _ => True) s0 s1 -> emits (fun _ => True) s1 s2 -> emits (fun _ => True) s2 s3 ->
  seen_logged_in (username (bot_config this)) s1 s2 ->
  seen_logged_in (username (bot_config this)) s0 s3.
Proof.
  intros (e0 & H0 & _) (e1 & H1 & _) (e2 & H2 & _) (e & Hin & He).
  exists e. split; [|exact He]. rewrite (new_events_app _ _ _ H1) in Hin.
  erewrite new_events_app; [|rewrite H2, H1, H0, <- !app_assoc; reflexivity].
  apply in_or_app. right. apply in_or_app. now left.
Qed.

(** [checkIfLoggedIn] answers [true] only when it counted the profile link
    or the Home icon. *)
Lemma checkIfLoggedIn_true s s' :
  checkIfLoggedIn this s = (Ok true, s') ->
  seen_logged_in (username (bot_config this)) s s'.
Proof.
  unfold checkIfLoggedIn, try_catch.
  run_any E1; [|rewrite run_log_bind; discriminate].
  destruct (0 <? a)%nat eqn:H1.
  { run_ret. intros [= <-].
    match type of E1 with perform ?op _ = _ => exists (EvOp op (Ok a)) end. split.
    - erewrite new_events_app; [|trace_norm; reflexivity]. now left.
    - split; [now left|]. exists a. split; [reflexivity|]. now apply Nat.ltb_lt. }
  run_any E2; [|rewrite run_log_bind; discriminate].
  destruct (0 <? a0)%nat eqn:H2.
  { run_ret. intros [= <-].
    match type of E2 with perform ?op _ = _ => exists (EvOp op (Ok a0)) end. split.
    - erewrite new_events_app; [|trace_norm; rewrite <- app_assoc; reflexivity].
      right. now left.
    - split; [now right|]. exists a0. split; [reflexivity|]. now apply Nat.ltb_lt. }
  run_any E3; [|rewrite run_log_bind; discriminate].
  destruct (0 <? a1)%nat; run_ret; discriminate.
Qed.

(** A login that types the credentials returns only after the profile
    link has appeared. *)
Lemma typeCredentialsAndSubmit_seen s r s' :
  typeCredentialsAndSubmit this s = (Ok r, s') ->
  seen_logged_in (username (bot_config this)) s s'.
Proof.
  intros H. pose proof (any_Frame (World := World)) as HF.
  unfold typeCredentialsAndSubmit in H. unbind HF this H. grown HF this H Glast.
  match goal with
  | Hw : try_catch (call (WaitForSelector ?sel true 15000)) _ ?si = (Ok _, ?sj) |- _ =>
      assert (Hseen : seen_logged_in (username (bot_config this)) si sj);
      [ revert Hw; unfold try_catch;
        destruct (perform (WaitForSelector sel true 15000) (world si))
          as [[[[]|e] rs] w] eqn:E;
        rewrite (run_call _ _ _ _ _ E)
      | eapply (seen_mono s si sj s'); [grows | eassumption | grows | exact Hseen] ]
  end.
  - intros [= <- <-].
    match type of E with perform ?op _ = _ => exists (EvOp op (Ok tt)) end.
    split; [|now split].
    erewrite new_events_app; [|trace_norm; reflexivity]. now left.
  - run_any E2; discriminate.
Qed.

(** A login returns only when the page showed the account logged in. *)
Lemma login_seen s r s' :
  login this s = (Ok r, s') -> seen_logged_in (username (bot_config this)) s s'.
Proof.
  intros H. pose proof (any_Frame (World := World)) as HF.
  unfold login in H. unbind HF this H.
  match goal with
  | Hf : try_catch _ _ ?si = (Ok ?found, ?sj) |- _ => rename Hf into Hfound; destruct found
  end.
  { cbv iota in H. grown HF this H Gtyped. apply typeCredentialsAndSubmit_seen in H.
    match type of H with seen_logged_in _ ?sj _ =>
      eapply (seen_mono s sj s' s'); [grows | exact Gtyped | apply emits_refl | exact H]
    end. }
  injection H as <- <-. unfold try_catch in Hfound.
  match type of Hfound with context [ match ?b ?si with _ => _ end ] =>
    destruct (b si) as [[found|e] s5] eqn:Hb
  end.
  { apply bind_ok_run in Hb as (? & ? & _ & Hb). injection Hb as <- <-. discriminate. }
  grown HF this Hb Gb. unbind HF this Hfound.
  match goal with
  | Hc : checkIfLoggedIn this ?sa = (Ok ?loggedIn, ?sb) |- _ =>
      destruct loggedIn; [apply checkIfLoggedIn_true in Hc|discriminate];
      unbind HF this Hfound; grown HF this Hfound Glast;
      match goal with |- seen_logged_in _ _ ?sf =>
        eapply (seen_mono s sa sb sf); [grows | eassumption | grows | exact Hc]
      end
  end.
Qed.

(** X19: [init] returns only when the page showed the account logged in
    during the call: [checkIfLoggedIn] counted the profile link of the
    account or the Home icon, or, after the credentials were typed, the
    wait for the profile link ended well. In every other case it
    throws. *)
Theorem init_returns_logged_in s :
  let run := init this s in
  match fst run with
  | Ok _ => exists e, In e (new_events s (snd run))
                      /\ shows_logged_in (username (bot_config this)) e
  | Throw _ => True
  end.
Proof.
  cbv zeta. pose proof (any_Frame (World := World)) as HF.
  destruct (init this s) as [[r|e] s'] eqn:H; [|exact I]. cbn [fst snd].
  fold (seen_logged_in (username (bot_config this)) s s').
  unfold init in H. unbind HF this H.
  assert (Hlogin : forall st line r1 s1',
            emits (fun _ => True) s st ->
            (log (bot_logger this) line.1 line.2;; login this;; mret true) st = (Ok r1, s1') ->
            seen_logged_in (username (bot_config this)) s s1').
  { intros st line r1 s1' Gst Hl. unbind HF this Hl. injection Hl as <- <-.
    match goal with Hlog : login this ?sa = (Ok _, ?sb) |- _ =>
      apply login_seen in Hlog;
      eapply (seen_mono s sa sb sb); [grows | eassumption | apply emits_refl | exact Hlog]
    end. }
  unfold try_catch in H.
  match type of H with context [ match ?b ?st with _ => _ end ] =>
    assert (G5 : emits (fun _ => True) s st) by grows;
    destruct (b st) as [[r0|e] s5] eqn:Hb
  end.
  - injection H as <- <-. unbind HF this Hb.
    match goal with
    | Hc : checkIfLoggedIn this ?sa = (Ok ?loggedIn, ?sb) |- _ => destruct loggedIn
    end.
    + match goal with
      | Hc : checkIfLoggedIn this ?sa = (Ok true, ?sb) |- _ =>
          apply checkIfLoggedIn_true in Hc;
          unbind HF this Hb; grown HF this Hb Glast;
          match goal with |- seen_logged_in _ _ ?sf =>
            eapply (seen_mono s sa sb sf); [grows | eassumption | grows | exact Hc]
          end
      end.
    + match goal with
      | Hc : checkIfLoggedIn this ?sa = (Ok false, ?sb) |- _ =>
          eapply (Hlogin sb (Info, "Not logged in. Performing login.")); [grows | exact Hb]
      end.
  - grown HF this Hb G6.
    eapply (Hlogin s5 (Error, "Error during init: " +:+ e +:+ ". Attempting login..."));
      [grows | exact H].
Qed.
End LoggedIn.

(* ===================================================================== *)
(** * From the launches to the modes *)
(* ===================================================================== *)

(** An invariant of the sessions, the fetches and the launches is an
    invariant of the three modes. *)

Section Lifting.
Context {World : Type} {env : Env World}.
Variable cfg : Config.
Variable R : State World -> State World -> Prop.
Variable P : Event -> Prop.
Hypothesis HF : Frame R P.
Hypothesis HPhost : forall X (h : Host X) x, P (EvHost h x).
Hypothesis HPwrite : forall content, P (EvFs (WriteProfileStats content)).
Hypothesis HPread : forall e, P (EvRefused ReadFileSync e).
Hypothesis HPclose : forall b r, P (EvOp (BrowserClose b) r).
Hypothesis HRfile : forall s f, R s (set_profileStatsFile f s).
Hypothesis HRstats : forall s stats, R s (set_profileStats stats s).
Hypothesis Hfetch : forall t, steps R (fetchAndWait t).
Hypothesis Hsession : forall a l h, steps R (initializeBotSession cfg a l h).
Hypothesis Hlaunch : forall a t h, steps R (launchBotForTask cfg a t h).

Lemma lift_writeProfileStatsFile content : steps R (writeProfileStatsFile content).
Proof.
  intros s. unfold writeProfileStatsFile, modify. cbn [snd].
  eapply (fr_trans _ _ HF); [apply (fr_event _ _ HF), (HPwrite content) | apply HRfile].
Qed.

Lemma lift_commitStats t cur : steps R (commitStats t cur).
Proof.
  pose proof lift_writeProfileStatsFile as Hw.
  unfold commitStats, updateProfileStatsInCsv. frame HF HPhost HPhost.
  apply steps_modify. intros s. apply HRstats.
Qed.

Lemma lift_loadProfileStatsFromCsv : steps R loadProfileStatsFromCsv.
Proof.
  pose proof lift_writeProfileStatsFile as Hw.
  unfold loadProfileStatsFromCsv. frame HF HPhost HPhost.
Qed.

Lemma lift_forEach {A} (l : list A) (f : A -> M World unit) :
  (forall x, steps R (f x)) -> steps R (forEach l f).
Proof.
  intros Hf. induction l as [|x l IH]; cbn [forEach].
  - apply (steps_ret _ _ HF).
  - apply (steps_bind _ _ HF); auto.
Qed.

Lemma lift_runTasks tasks total t b : steps R (runTasks cfg tasks total t b).
Proof.
  revert b. induction tasks as [|a tasks IH]; intros b; [apply (steps_ret _ _ HF)|].
  pose proof (Hlaunch a) as Hl.
  cbn [runTasks]. unfold waitBeforeNextBot. frame HF HPhost HPhost.
  all: auto.
Qed.

Lemma lift_checkTarget tm t : steps R (checkTarget cfg tm t).
Proof.
  pose proof lift_commitStats as Hc. pose proof lift_runTasks as Hr.
  unfold checkTarget, compareStats. frame HF HPhost HPhost.
Qed.

Lemma lift_monitorLoop cycles tm : steps R (monitorLoop cfg cycles tm).
Proof.
  induction cycles as [|n IH]; cbn [monitorLoop]; [apply (steps_ret _ _ HF)|].
  apply (steps_bind _ _ HF); [|intros; exact IH].
  pose proof (lift_forEach (map fst tm) _ (lift_checkTarget tm)) as Hl.
  unfold monitoringCycle. frame HF HPhost HPhost.
Qed.

Lemma lift_runMonitorMode cycles : steps R (runMonitorMode cfg cycles).
Proof.
  pose proof lift_loadProfileStatsFromCsv as Hl.
  pose proof (lift_monitorLoop cycles) as Hloop.
  unfold runMonitorMode. cbv zeta.
  apply (steps_bind _ _ HF); [apply (steps_log _ _ HF)|intros _].
  destruct (List.filter enabled (accounts cfg)) as [|monitorAccount rest].
  { frame HF HPhost HPhost. }
  apply (steps_bind _ _ HF).
  { unfold warnSharedTargets. frame HF HPhost HPhost.
    apply lift_forEach. intros x. apply (steps_log _ _ HF). }
  intros _. destruct (_ =? _)%nat; [frame HF HPhost HPhost|].
  apply (steps_bind _ _ HF); [apply (steps_log _ _ HF)|intros _].
  apply (steps_bind _ _ HF); [apply (steps_log _ _ HF)|intros _].
  apply (steps_bind _ _ HF); [apply Hsession|intros [[browser bot]|]].
  2: { frame HF HPhost HPhost. }
  intros s. unfold monitorWith.
  match goal with |- context [ (loadProfileStatsFromCsv ≫= ?k) s ] =>
    assert (Hb : steps R (loadProfileStatsFromCsv ≫= k))
  end.
  { apply (steps_bind _ _ HF); [exact Hl|intros stats].
    apply (steps_bind _ _ HF); [|intros _; apply Hloop].
    apply steps_modify. intros s'. apply HRstats. }
  specialize (Hb s).
  destruct ((loadProfileStatsFromCsv ≫= _) s) as [[[]|e] s1]; [exact Hb|].
  eapply (fr_trans _ _ HF); [exact Hb|].
  match goal with |- R _ (snd (?m s1)) =>
    assert (Hm : steps R m) by (frame HF HPhost HPhost; apply HPclose);
    apply Hm
  end.
Qed.

Lemma lift_runCheckAccountsMode : steps R (runCheckAccountsMode cfg).
Proof.
  assert (Hc : forall total index remaining, steps R (checkAccounts cfg total index remaining)).
  { intros total index remaining. revert index.
    induction remaining as [|a remaining IH]; intros index; [apply (steps_ret _ _ HF)|].
    pose proof (Hsession a (username a) (Some false)) as Hi.
    cbn [checkAccounts]. unfold waitForEnter. frame HF HPhost HPhost.
    all: auto. }
  unfold runCheckAccountsMode. cbv zeta.
  destruct (List.filter enabled (accounts cfg)) as [|a rest];
    [frame HF HPhost HPhost|].
  pose proof (Hc (length (a :: rest)) 0%nat (a :: rest)).
  frame HF HPhost HPhost.
Qed.

Lemma lift_runTestCommentMode testUsername : steps R (runTestCommentMode cfg testUsername).
Proof.
  assert (Ht : forall chosen, steps R (testCommentWith cfg chosen)).
  { intros [a|]; unfold testCommentWith; [|frame HF HPhost HPhost].
    pose proof (Hlaunch a) as Hl. frame HF HPhost HPhost. all: auto. }
  unfold runTestCommentMode. cbv zeta.
  apply (steps_bind _ _ HF); [apply (steps_log _ _ HF)|intros _].
  destruct (JS.truthy testUsername).
  - apply (steps_bind _ _ HF); [apply (steps_log _ _ HF)|intros _].
    destruct (find _ _) as [account|]; [|apply (steps_log _ _ HF)].
    destruct (negb (enabled account)); [apply (steps_log _ _ HF) | apply Ht].
  - apply (steps_bind _ _ HF); [apply (steps_log _ _ HF) | intros _; apply Ht].
Qed.
End Lifting.

(* ===================================================================== *)
(** * What a run costs *)
(* ===================================================================== *)

Section Costs.
Context {World : Type} {env : Env World}.
Variable cfg : Config.
Implicit Types s : State World.

Lemma postClicks_app l1 l2 : postClicks (l1 ++ l2) = postClicks l1 ++ postClicks l2.
Proof. unfold postClicks. now rewrite clicked_app, List.filter_app. Qed.

Lemma costless_Frame : Frame (World := World) (emits costless) costless.
Proof. apply emits_Frame. Qed.

Lemma costless_host X (h : Host X) x : costless (EvHost h x).
Proof. now split. Qed.

Lemma costless_summary evs :
  Forall costless evs -> aiCalls evs = [] /\ postClicks evs = [].
Proof.
  induction 1 as [|e evs [H1 H2] _ [I1 I2]]; [now split|].
  change (e :: evs) with ([e] ++ evs).
  now rewrite aiCalls_app, postClicks_app, H1, H2, I1, I2.
Qed.

Lemma within_Frame : Frame (World := World) within_launches costless.
Proof.
  assert (Hsame : forall s s', trace s' = trace s -> within_launches s s').
  { intros s s' H. exists []. split; [now rewrite app_nil_r | split; reflexivity]. }
  split; intros; try (now apply Hsame).
  - destruct H as (e1 & H1 & A1 & C1), H0 as (e2 & H2 & A2 & C2).
    exists (e1 ++ e2). split; [now rewrite H2, H1, app_assoc|].
    rewrite aiCalls_app, postClicks_app, launchedAccounts_app, !length_app. lia.
  - exists [e]. split; [reflexivity|]. destruct H as [-> ->]. cbn. lia.
Qed.

Lemma costless_within s s' : emits costless s s' -> within_launches s s'.
Proof.
  intros (evs & H & Hev). exists evs. split; [exact H|].
  destruct (costless_summary _ Hev) as [-> ->]. cbn. lia.
Qed.

(** ** Nothing outside the comment task costs anything *)

Ltac costless_frame := frame costless_Frame costless_host costless_host; try (now split).

Lemma costless_checkIfLoggedIn this : steps (emits costless) (checkIfLoggedIn this).
Proof. unfold checkIfLoggedIn. costless_frame. Qed.

Lemma costless_dismissCommonPopups this : steps (emits costless) (dismissCommonPopups this).
Proof. unfold dismissCommonPopups. costless_frame. Qed.

Lemma costless_ensureCookiesAreSaved this :
  steps (emits costless) (ensureCookiesAreSaved this).
Proof. unfold ensureCookiesAreSaved. costless_frame. Qed.

Lemma costless_typeCredentialsAndSubmit this :
  steps (emits costless) (typeCredentialsAndSubmit this).
Proof.
  pose proof (costless_dismissCommonPopups this).
  unfold typeCredentialsAndSubmit. costless_frame.
Qed.

Lemma costless_login this : steps (emits costless) (login this).
Proof.
  pose proof (costless_dismissCommonPopups this).
  pose proof (costless_checkIfLoggedIn this).
  pose proof (costless_ensureCookiesAreSaved this).
  pose proof (costless_typeCredentialsAndSubmit this).
  unfold login. costless_frame.
Qed.

Lemma costless_init this : steps (emits costless) (init this).
Proof.
  pose proof (costless_dismissCommonPopups this).
  pose proof (costless_checkIfLoggedIn this).
  pose proof (costless_ensureCookiesAreSaved this).
  pose proof (costless_login this).
  unfold init. costless_frame.
Qed.

Lemma costless_initializeBotSession a l h :
  steps (emits costless) (initializeBotSession cfg a l h).
Proof.
  pose proof costless_init as Hinit.
  pose proof (steps_new_InstagramBot _ _ (costless_Frame)) as Hnew.
  unfold initializeBotSession, loadOrCreateFingerprint, openSession. costless_frame.
  - apply (steps_emit _ _ costless_Frame). now split.
  - intros s. eexists [_]. split; [reflexivity|]. now repeat constructor.
Qed.

Lemma costless_fetchAndWait t : steps (emits costless) (fetchAndWait t).
Proof.
  unfold fetchAndWait, getProfileStats, fetchProfileStats, fetchFailed,
    followerCountFromTitle, followerCountFromText.
  costless_frame.
Qed.

(** ** The comment task costs one call and one click at most *)

Lemma outcome_costs this t r evs :
  taskOutcome this t r evs ->
  (length (aiCalls evs) <= 1)%nat /\ (length (postClicks evs) <= 1)%nat.
Proof.
  assert (Hp : forall l, l `prefix_of` [First nonPinnedPostLinks; postButton] ->
               (length (List.filter (fun l => bool_decide (l = postButton)) l) <= 1)%nat).
  { intros l (k & Hk). destruct l as [|x [|y [|z l]]]; cbn in Hk; try discriminate.
    - cbn. lia.
    - injection Hk as <- _. vm_compute. lia.
    - injection Hk as <- <- _. vm_compute. lia. }
  unfold taskOutcome, postClicks. cbv zeta.
  destruct r as [[]|e].
  - intros (ts & c & _ & -> & -> & _). split; [cbn; lia | vm_compute; lia].
  - intros (_ & Ha & (k & Hk) & _). split; [exact Ha|]. apply Hp.
    exists (k ++ [postButton]).
    change [First nonPinnedPostLinks; postButton]
      with ([First nonPinnedPostLinks] ++ [postButton]).
    now rewrite Hk, <- app_assoc.
  - intros (_ & Ha & Hc & _). split; [exact Ha | now apply Hp].
  - intros (_ & Ha & Hc & _). split; [exact Ha | now apply Hp].
Qed.

(** The events of the task on a session: those of the comment task, then
    the [close] of the browser. *)
Lemma taskOnSession_task a t h b bot s :
  exists r evs rc,
    new_events s (snd (taskOnSession a t h (Some (b, bot)) s))
    = evs ++ [EvOp (BrowserClose b) rc]
    /\ taskOutcome bot t r evs.
Proof.
  unfold taskOnSession, try_finally, try_catch. rewrite run_bind.
  destruct (runCommentTask_outcome bot t h s) as (Htr & Ho).
  set (evs := new_events s _) in *.
  destruct (runCommentTask bot t h s) as [r0 s1]; cbn [fst snd] in *.
  assert (Hn : forall rc rs w l1,
             new_events s (deliver rs (add_event (EvOp (BrowserClose b) rc)
                                         (set_world w (add_line l1 s1))))
             = evs ++ [EvOp (BrowserClose b) rc]).
  { intros. apply new_events_app. trace_norm. now rewrite Htr, <- app_assoc. }
  destruct r0 as [r|e]; run_pure; run_ret; run_any E; cbn [fst snd];
    unfold log, modify; cbn [fst snd];
    try (change (new_events s (add_line ?l ?st)) with (new_events s st));
    rewrite Hn; eauto.
Qed.

Lemma within_launchBotForTask a t h : steps within_launches (launchBotForTask cfg a t h).
Proof.
  intros s. rewrite launchBotForTask_unfold.
  set (s0 := add_event (EvLaunch a t) s).
  assert (H0 : trace s0 = trace s ++ [EvLaunch a t]) by reflexivity.
  destruct (costless_initializeBotSession a (username a) (Some (headless (settings cfg))) s0)
    as (evs1 & Htr1 & Hev1).
  destruct (costless_summary _ Hev1) as [A1 C1].
  destruct (initializeBotSession cfg a _ _ s0) as [[session|e] s1]; cbn [fst snd] in *.
  2: { exists ([EvLaunch a t] ++ evs1). split; [now rewrite Htr1, H0, <- app_assoc|].
       rewrite aiCalls_app, postClicks_app, launchedAccounts_app, !length_app, A1, C1.
       cbn. lia. }
  destruct session as [[b bot]|].
  - destruct (taskOnSession_task a t h b bot s1) as (r0 & evs2 & rc & Hn & Ho).
    pose proof (steps_taskOnSession a t h (Some (b, bot)) s1) as [Hs _].
    apply new_events_trace in Hs. rewrite Hn in Hs.
    destruct (outcome_costs _ _ _ _ Ho) as [A2 C2].
    destruct (taskOnSession a t h (Some (b, bot)) s1) as [[r|e] s2]; cbn [fst snd] in *.
    + exists ([EvLaunch a t] ++ evs1 ++ (evs2 ++ [EvOp (BrowserClose b) rc])
              ++ [EvLaunched a t r]).
      split; [cbn [trace add_event]; rewrite Hs, Htr1, H0, <- !app_assoc; reflexivity|].
      rewrite !aiCalls_app, !postClicks_app, !launchedAccounts_app, !length_app, A1, C1.
      cbn. lia.
    + exists ([EvLaunch a t] ++ evs1 ++ (evs2 ++ [EvOp (BrowserClose b) rc])).
      split; [rewrite Hs, Htr1, H0, <- !app_assoc; reflexivity|].
      rewrite !aiCalls_app, !postClicks_app, !launchedAccounts_app, !length_app, A1, C1.
      cbn. lia.
  - change (taskOnSession a t h None s1) with (Ok (A := LaunchResult) LAUNCH_ERROR, s1).
    cbv iota beta. cbn [fst snd].
    exists ([EvLaunch a t] ++ evs1 ++ [EvLaunched a t LAUNCH_ERROR]).
    split; [cbn [trace add_event]; rewrite Htr1, H0, <- !app_assoc; reflexivity|].
    rewrite !aiCalls_app, !postClicks_app, !launchedAccounts_app, !length_app, A1, C1.
    cbn. lia.
Qed.

(** X20: in each of the three modes the AI generator is called, and the
    Post button clicked, at most once per launch of a task: opening a
    session, logging in, dismissing pop-ups and fetching the statistics of
    a profile never call the generator and never click Post. *)
Theorem calls_and_clicks_within_launches cycles testUsername s :
  let costs s' :=
    (length (aiCalls (new_events s s')) <= length (launchedAccounts (new_events s s')))%nat
    /\ (length (postClicks (new_events s s'))
        <= length (launchedAccounts (new_events s s')))%nat in
  costs (snd (runMonitorMode cfg cycles s))
  /\ costs (snd (runTestCommentMode cfg testUsername s))
  /\ costs (snd (runCheckAccountsMode cfg s)).
Proof.
  assert (Hl : forall s', within_launches s s' ->
               (length (aiCalls (new_events s s'))
                <= length (launchedAccounts (new_events s s')))%nat
               /\ (length (postClicks (new_events s s'))
                   <= length (launchedAccounts (new_events s s')))%nat).
  { intros s' (evs & Htr & H). now rewrite (new_events_app _ _ _ Htr). }
  assert (Hw : forall content, costless (EvFs (WriteProfileStats content))) by now split.
  assert (Hr : forall e, costless (EvRefused ReadFileSync e)) by now split.
  assert (Hc : forall b (r : Res unit), costless (EvOp (BrowserClose b) r)) by now split.
  assert (Hf : forall s0 f, within_launches s0 (set_profileStatsFile f s0)).
  { intros. now apply costless_within, emits_same_trace. }
  assert (Hs : forall s0 stats, within_launches s0 (set_profileStats stats s0)).
  { intros. now apply costless_within, emits_same_trace. }
  assert (Hfetch : forall t, steps within_launches (fetchAndWait t)).
  { intros t s0. apply costless_within, costless_fetchAndWait. }
  assert (Hsession : forall a l h, steps within_launches (initializeBotSession cfg a l h)).
  { intros a l h s0. apply costless_within, costless_initializeBotSession. }
  cbv zeta. split; [|split]; apply Hl.
  - apply (lift_runMonitorMode cfg _ _ within_Frame costless_host Hw Hr Hc Hf Hs
             Hfetch Hsession within_launchBotForTask).
  - apply (lift_runTestCommentMode cfg _ _ within_Frame within_launchBotForTask).
  - apply (lift_runCheckAccountsMode cfg _ _ within_Frame costless_host Hc Hsession).
Qed.
End Costs.
